(* ===== verification/_CoqProject ===== *)
-Q . S2P
Prelude.v
JsData.v
Data.v
Channel.v
Timers.v
Http.v
ChatArea.v
Samples.v
Session.v
MessageLog.v
Presence.v
Typing.v
Invariant.v
Chat.v
Wire.v
Sidebar.v
SidebarView.v
View.v
Scroll.v
App.v
