(* ===== verification/Prelude.v ===== *)
(** * vv-chat-app: a verification development for the chat client

    The program is the browser client of a group chat: three React
    components and a page that ties them together.

    - [src/src/pages/Chat.jsx] owns the socket.io connection and the
      selected group, and renders the sidebar and, once the socket exists,
      the chat area.
    - [src/src/components/ChatArea.jsx] is the session synchronisation
      engine: one effect that joins the selected room and installs seven
      socket handlers (and whose cleanup leaves the room and removes them),
      the message log (snapshot fetch, live events, sends), the presence
      list, the typing set and the debounce timer of the local user.
    - [src/src/components/Sidebar.jsx] lists the groups, computes which of
      them the user belongs to, and joins, leaves, creates and selects
      groups through REST calls.
    - [src/src/App.jsx] is the route table.

    ** Files

    - [Prelude] (this file): notation scope [js_scope] with the pipeline
      [w |> f], the [result] type of code that may throw, the hint database
      [js], the tactics [js_cases] and [js_crush], and the list
      lemmas the components share.
    - [JsData]: the JavaScript values the code relies on: [nullable]
      (null, undefined or an object) with truthiness and [Object.is],
      [JsSet] (an insertion-ordered [Set]) with its refinement to [gset], and
      [trim] on strings.
    - [Data]: the records that cross the wire: [User], [Message], [Group],
      [UserInfo], [Notification], [Toast], outgoing payloads and incoming
      events.
    - [Channel]: the interface [Channel] a component expects of the socket
      (emit, on, off and their laws) and [Socket], the model of the
      socket.io client that implements it.
    - [Timers]: the browser's [setTimeout] / [clearTimeout] table.
    - [Http]: the table of requests in flight (axios).
    - [ChatArea]: the component, operation by operation, stated against
      the [Channel] interface: [effect] and [cleanup_body] (the
      [useEffect] on [selectedGroup]), [run_handler] (the seven socket
      handlers), [fetchMessages] and [sendMessage] with their
      continuations, [handleTyping] and [run_callback] (the debounce
      closure), and what React and the browser do with them
      ([rerun_effect], [mount], [unmount], [deliver], [resolve],
      [advance]).
    - [Samples]: concrete users, rooms, messages and worlds for the
      witnesses.
    - [Session]: the room session: what the effect and its cleanup do to
      the listeners and the packets sent, and the abstract room protocol
      [room_trace] (joins and leaves alternate).
    - [MessageLog]: the [messages] cell: snapshot, live events, sends.
    - [Presence]: the [connectedUsers] cell and its refinement of the
      presence set of spec.md.
    - [Typing]: the [typingUsers] cell and its refinement of the typing
      set; the debounce timer of [handleTyping].
    - [Invariant]: [world_ok] and [room_ok], the invariants every
      operation of the chat area preserves.
    - [Chat]: the page [src/src/pages/Chat.jsx]: the mount effect that
      opens the socket, [setSelectedGroup], the page's unmount, the
      [action]s of the environment, [step] and [run], and the invariant
      [page_ok] of every reachable page.
    - [Wire]: the packets sent against the payload table of spec.md
      section 6 ([packet_ok]), and the round trip of a room entered and
      left.
    - [Sidebar]: the state, handlers and click closures of
      [src/src/components/Sidebar.jsx].
    - [SidebarView]: the JSX of the sidebar as a function of its cells
      ([sidebar_render]), the events of its controls ([sb_event],
      [sb_step]), the invariant [sidebar_ok] of every reachable sidebar,
      and the measure [sb_weight] under which the answers drain.
    - [View]: the JSX of the chat area as a function of its cells
      ([render], [renderTypingIndicator]) and what the page shows
      ([page_view]).
    - [Scroll]: the effect of the chat area that scrolls the list to its
      end ([scroll_effect]), and which steps of a page scroll ([scrolls]).
    - [App]: the route table of [src/src/App.jsx] ([routes], [visit]) and
      the chat page with its sidebar ([ChatPage], [Chat_render],
      [chat_step]): the sidebar's calls of [setSelectedGroup] and its
      logout drive the page.

    ** How state and effects are modelled

    A component's [useState] cells are the fields of a [Record]; a handler
    is a function from the state before to the state after.  React's
    functional updates ([setX(prev => ...)]) read the state at the time the
    handler runs; plain updates ([setX(value)]) use the value the closure
    captured when it was created.  The second kind matters in
    [sendMessage], which awaits a request: the continuation is a value
    that carries what the closure captured ([KSendMessage]), and the
    resolution step uses that captured value, as the code does.

    Effects on the outside world are explicit: the socket records the
    packets handed to it and its listener table, the timer table holds the
    pending callbacks with their deadlines, the request table the calls in
    flight, and toasts and console lines are appended to logs.  Time is a
    natural number of milliseconds.  An asynchronous function is split at
    each [await] into the part that runs at once and a continuation that
    runs when the environment resolves the request.

    JavaScript is single threaded: every handler runs to completion, so a
    run of the page is a list of [action]s and [run] folds [step] over it.
    Every operation is structurally terminating.  The only fuel is that
    of [SidebarView.drain], which answers the sidebar's requests until none
    is in flight: [sb_weight] of the sidebar is enough, since every answer
    lowers it, and it is at most twice the number of requests in flight.
    The only constant of the code is the debounce window, [DEBOUNCE] =
    2000 ms; timer ids start at 1 (an id is truthy) and request ids at 0.

    The chat page and its sidebar are two transition systems.  [App]
    composes them: the first render runs the mount effects of both, a
    step of the sidebar is followed by the page's [SetSelectedGroup] for
    each call of the prop it made, and by the page's unmount when it
    navigated away.  A run of the composition projects to a run of the
    page alone ([page_trace]), so what is proved of every reachable page
    holds inside the composition.  [PrivateRoute]
    and the pages other than Chat are not under [src/]: the first is a
    parameter of [visit], the others are names.

    What React does is part of the model where the code depends on it: a
    state setter bails out when given the value the cell holds
    ([Object.is], here identity [group_ref] of room objects), an effect
    re-runs when a dependency changed, running the cleanup the run before
    returned (for the scroll effect the dependencies are the [messages]
    array and the [typingUsers] set, which the state numbers by
    allocation: every call site of their setters builds a new one), and on unmount the cleanups of parent and child run in an
    order that depends on React's version ([unmount_order]).  The [toast]
    dependency of the effect is taken to be stable and the socket is set
    once.

    ** What the theorems show

    - Room sessions ([Session], [Chat]): in every reachable page the joins
      and leaves sent alternate and end in the selected room; each event
      name has exactly the room's one listener while a room is selected and
      none otherwise; a switch sends the leave of the old room and then the
      join of the new one; what the page's unmount sends.
    - Message log ([MessageLog]): events append in arrival order; a failed
      send changes neither draft, log nor channel; a successful send emits
      once and clears the draft; a blank draft sends nothing.  The
      continuation of a send overwrites what arrived meanwhile, and a
      snapshot that arrives late is applied to the room selected by then.
    - Presence and typing ([Presence], [Typing]): the cells refine the
      sets of spec.md under the events; a user who left is not listed;
      remote typists never expire on this side.
    - Debounce ([Typing], [Chat]): the stop-typing packet leaves exactly
      2000 ms after the last keystroke; at most one timer is pending in
      every reachable page; the [isTyping] flag is never raised; a room
      switch does not cancel the timer.
    - Sidebar ([Sidebar], [SidebarView]): only a joined room can be
      selected by a click; a join selects after both of its requests were
      answered; a leave clears the selection; a rejection without response
      breaks the error handler.  In every reachable sidebar the badges and
      button labels show the memberships the server listed, only an admin
      has the modal or a creation in flight, and the suspended handlers
      end whatever the backend answers.
    - Wire ([Wire]): every packet of every reachable page conforms to the
      payload table, no room id is undefined; a room entered and left
      brings the channel back to where it was.
    - Views ([View], [Scroll]): the typing indicator has one row per
      typing user with distinct keys; the send button is disabled exactly
      when submitting would do nothing; the list scrolls to its end
      exactly on the steps that replace the messages or the typing set,
      and never while the welcome screen is shown.
    - Composition ([App]): while the page is mounted its selection is the
      object the sidebar selected last and the socket is in that room; a
      join enters the room once both answers arrived; a leave of any
      group closes the selected room; a name clicked twice selects once,
      whatever happens on the page in between, while clicking the
      selected room after a refresh of the list leaves and rejoins it;
      logout unmounts the page and closes the socket; the chat route
      without [userInfo] throws at render unless [PrivateRoute] holds it
      back.
    - Where the code departs from spec.md the theorem states what the code
      does.

    ** What is not modelled

    Constant layout and styling props, icons, tooltips and hover styles
    of the JSX; [formatTime] (the browser's locale tables: a parameter of
    [View]); the position the browser scrolls to (the model says when
    [scrollIntoView] is called); [PrivateRoute], the landing, login and register pages and [UsersList]
    (not under [src/]); the Chakra UI and router libraries beyond what the
    code relies on (a modal renders its content while open, a route shows
    its element); the transport below socket.io (reconnection, and
    the buffering of what is emitted while the connection is down: an
    emit on a closed socket is dropped, as after [disconnect()]); the
    contents of HTTP errors beyond whether there is a response, a body
    and a message; answers that do not have the shape spec.md gives for
    their request (the model ignores them, the code would store
    [undefined] and throw at the next render); a [userInfo] entry that is
    present but is not the JSON of a user; timers that fire later than
    their deadline (a timer runs when the clock reaches it); characters
    outside Latin-1 in drafts (a string is a sequence of code units below
    256, so the white space [trim] removes is the white space among
    those); leaving the chat route in another way than by the logout
    button; other tabs writing to [localStorage]. *)

From stdpp Require Export base tactics option list strings gmap sets.
From Stdlib Require Export Ascii Lia.

(** ** Notation *)

Declare Scope js_scope.
Delimit Scope js_scope with js.

(** [w |> f |> g] threads a state through effects in program order. *)
Notation "w |> f" := (f w)
  (at level 40, left associativity, only parsing) : js_scope.

Global Open Scope js_scope.

(** ** Code that may throw *)

Inductive result (E A : Type) : Type :=
| Ok (a : A)
| Throw (e : E).

Arguments Ok {E A} a.
Arguments Throw {E A} e.

Definition result_map {E A B} (f : A → B) (r : result E A) : result E B :=
  match r with
  | Ok a => Ok (f a)
  | Throw e => Throw e
  end.

Definition is_ok {E A} (r : result E A) : bool :=
  match r with Ok _ => true | Throw _ => false end.

(** ** Automation *)

Create HintDb js discriminated.
Create Rewrite HintDb js.

(** Case analysis on every [decide], [bool_decide], [if] and [match] that
    blocks the goal, simplifying equations on the way. *)
Ltac js_cases :=
  repeat first
    [ progress simplify_eq/=
    | case_decide
    | case_bool_decide
    | case_match ].

Ltac js_crush :=
  intros; js_cases;
  try solve [ done | lia | congruence | eauto with js | set_solver ].

(** Closes a closed goal by evaluation. *)
Ltac by_compute := vm_compute; first [reflexivity | done | lia].

(** Closes a goal that is an instance of a proved statement at concrete
    values: both are evaluated, then compared.  The side conditions of the
    statement are given as [ltac:(by_compute)]. *)
Tactic Notation "witness" constr(H) :=
  generalize H; vm_compute; exact (λ W, W).

(** ** Lists: logs that only grow, filters, folds *)

Section list_facts.
Context {A : Type}.
Implicit Types (l k : list A) (x y : A).

Lemma prefix_snoc l x : l `prefix_of` l ++ [x].
Proof. by apply prefix_app_r. Qed.

Lemma prefix_app_trans l k1 k2 : l `prefix_of` k1 → l `prefix_of` k1 ++ k2.
Proof. intros. by apply prefix_app_r. Qed.

Lemma foldl_snoc {B} (f : B → A → B) (b : B) l x :
  foldl f b (l ++ [x]) = f (foldl f b l) x.
Proof. by rewrite foldl_app. Qed.

Lemma filter_snoc (keep : A → Prop) `{!∀ y, Decision (keep y)} l x :
  filter keep (l ++ [x]) = filter keep l ++ filter keep [x].
Proof. apply filter_app. Qed.

Lemma filter_one (keep : A → Prop) `{!∀ y, Decision (keep y)} x :
  filter keep [x] = if decide (keep x) then [x] else [].
Proof. done. Qed.

Lemma filter_idemp (P : A → Prop) `{!∀ x, Decision (P x)} l :
  filter P (filter P l) = filter P l.
Proof.
  induction l as [|x l IH]; [done|].
  rewrite filter_cons. case_decide; [|done].
  rewrite filter_cons. case_decide; [|done]. by f_equal.
Qed.

Lemma filter_all (P : A → Prop) `{!∀ x, Decision (P x)} l :
  Forall P l → filter P l = l.
Proof.
  induction 1 as [|x l Hx _ IH]; [done|].
  rewrite filter_cons. case_decide; [by f_equal | done].
Qed.

Lemma filter_none (P : A → Prop) `{!∀ x, Decision (P x)} l :
  Forall (λ x, ¬ P x) l → filter P l = [].
Proof.
  induction 1 as [|x l Hx _ IH]; [done|].
  rewrite filter_cons. by case_decide.
Qed.

Lemma length_filter_le (P : A → Prop) `{!∀ x, Decision (P x)} l :
  length (filter P l) ≤ length l.
Proof.
  induction l as [|x l IH]; [done|].
  rewrite filter_cons. case_decide; simpl; lia.
Qed.

Lemma last_snoc l x : last (l ++ [x]) = Some x.
Proof. by rewrite last_app. Qed.

Lemma elem_of_snoc l x y : y ∈ l ++ [x] ↔ y ∈ l ∨ y = x.
Proof. rewrite elem_of_app, list_elem_of_singleton. done. Qed.

Lemma NoDup_snoc l x : NoDup l → x ∉ l → NoDup (l ++ [x]).
Proof.
  intros Hl Hx. apply NoDup_app. split_and!; [done| |apply NoDup_singleton].
  intros y Hy ->%list_elem_of_singleton. done.
Qed.

(** A key that occurs once in a list determines its element. *)
Lemma NoDup_fmap_eq {B} (f : A → B) l x y :
  NoDup (f <$> l) → x ∈ l → y ∈ l → f x = f y → x = y.
Proof.
  induction l as [|z l IH]; [by intros _ ?%elem_of_nil|].
  rewrite fmap_cons, NoDup_cons, !elem_of_cons, list_elem_of_fmap.
  intros [Hz Hnd] [->|Hx] [->|Hy] Hf; [done| | |by apply IH].
  - destruct Hz. eauto.
  - destruct Hz. eauto.
Qed.

End list_facts.

#[export] Hint Resolve prefix_snoc prefix_app_trans NoDup_snoc : js.
#[export] Hint Rewrite @foldl_snoc @last_snoc : js.

(** ** Options *)

Lemma from_option_is_Some {A B} (f : A → B) (b : B) (o : option A) a :
  o = Some a → from_option f b o = f a.
Proof. by intros ->. Qed.
