(* ===== verification/JsData.v ===== *)
(** * JsData: the JavaScript values the components rely on

    - [nullable A]: a value that is [null], [undefined] or an object, with
      truthiness ([if (v)]), optional chaining ([v?.f]) and React's
      dependency comparison ([Object.is]), which compares objects by
      identity.
    - [JsSet]: a JavaScript [Set], a duplicate-free sequence in insertion
      order, with [add], [delete], [has], [size] and [Array.from], and its
      abstraction to a [gset].
    - [trim]: [String.prototype.trim] on strings of code units below 256. *)

From S2P Require Import Prelude.

(** ** null, undefined, objects *)

Inductive nullable (A : Type) : Type :=
| JNull
| JUndefined
| JObj (a : A).

Arguments JNull {A}.
Arguments JUndefined {A}.
Arguments JObj {A} a.

#[export] Instance nullable_eq_dec `{EqDecision A} : EqDecision (nullable A).
Proof. solve_decision. Defined.

#[export] Instance nullable_inhabited {A} : Inhabited (nullable A) :=
  populate JNull.

(** [if (v)]: only an object is truthy. *)
Definition truthy {A} (v : nullable A) : bool :=
  match v with
  | JObj _ => true
  | _ => false
  end.

(** [v?.f]: the field of an object, [undefined] ([None]) otherwise. *)
Definition opt_chain {A B} (f : A → B) (v : nullable A) : option B :=
  match v with
  | JObj a => Some (f a)
  | _ => None
  end.

(** [array.find(p)]: the first element that satisfies [p], or [undefined]. *)
Fixpoint array_find {A} (p : A → bool) (l : list A) : nullable A :=
  match l with
  | [] => JUndefined
  | x :: l' => if p x then JObj x else array_find p l'
  end.

(** Objects have an identity: the address the engine allocated them at. *)
Class Identified (A : Type) := obj_ref : A → nat.

(** [Object.is(v1, v2)], the comparison React uses for state and
    dependencies. *)
Definition object_is `{Identified A} (v1 v2 : nullable A) : bool :=
  match v1, v2 with
  | JNull, JNull => true
  | JUndefined, JUndefined => true
  | JObj a, JObj b => bool_decide (obj_ref a = obj_ref b)
  | _, _ => false
  end.

(** ** Sets in insertion order *)

Abbreviation JsSet A := (list A) (only parsing).

Section js_set.
Context `{EqDecision A}.
Implicit Types (x y : A) (s : list A).

Definition jsset_empty : JsSet A := [].

(** [s.add(x)]: appended at the end unless present. *)
Definition jsset_add (x : A) (s : JsSet A) : JsSet A :=
  if decide (x ∈ s) then s else s ++ [x].

(** [s.delete(x)]. *)
Definition jsset_delete (x : A) (s : JsSet A) : JsSet A :=
  filter (λ y, y ≠ x) s.

Definition jsset_has (x : A) (s : JsSet A) : bool := bool_decide (x ∈ s).

Definition jsset_size (s : JsSet A) : nat := length s.

(** [Array.from(s)]: the elements in insertion order. *)
Definition jsset_values (s : JsSet A) : list A := s.

(** Two sets are the same set when they have the same elements, in
    whatever order. *)
Definition jsset_equiv (s1 s2 : JsSet A) : Prop := ∀ x, x ∈ s1 ↔ x ∈ s2.

End js_set.

(** ** trim *)

(** The white space and line terminators of ECMAScript among the code
    units below 256: TAB, LF, VT, FF, CR, space and NBSP. *)
Definition js_whitespace (c : ascii) : bool :=
  match c with
  | "009"%char | "010"%char | "011"%char | "012"%char | "013"%char
  | " "%char | "160"%char => true
  | _ => false
  end.

Fixpoint all_space (s : string) : bool :=
  match s with
  | EmptyString => true
  | String c s' => js_whitespace c && all_space s'
  end.

Fixpoint trim_start (s : string) : string :=
  match s with
  | EmptyString => EmptyString
  | String c s' => if js_whitespace c then trim_start s' else s
  end.

Fixpoint trim_end (s : string) : string :=
  match s with
  | EmptyString => EmptyString
  | String c s' =>
      match trim_end s' with
      | EmptyString => if js_whitespace c then EmptyString else String c EmptyString
      | t => String c t
      end
  end.

Definition trim (s : string) : string := trim_end (trim_start s).

(** [!s.trim()]: the draft is blank. *)
Definition blank (s : string) : bool := bool_decide (trim s = EmptyString).

(** ** Lemmas: nullable *)

Section nullable_facts.
Context `{Identified A}.
Implicit Types v : nullable A.

Lemma truthy_JObj v : truthy v = true ↔ ∃ a, v = JObj a.
Proof. destruct v; naive_solver. Qed.

Lemma opt_chain_Some {B} (f : A → B) v b :
  opt_chain f v = Some b ↔ ∃ a, v = JObj a ∧ f a = b.
Proof. destruct v; naive_solver. Qed.

Lemma opt_chain_truthy {B} (f : A → B) v :
  is_Some (opt_chain f v) ↔ truthy v = true.
Proof. destruct v; simpl; rewrite ?is_Some_alt; naive_solver. Qed.

Lemma object_is_refl v : object_is v v = true.
Proof. destruct v; simpl; by rewrite ?bool_decide_true. Qed.

Lemma object_is_sym v1 v2 : object_is v1 v2 = object_is v2 v1.
Proof. destruct v1, v2; simpl; try done. apply bool_decide_ext. naive_solver. Qed.

Lemma object_is_trans v1 v2 v3 :
  object_is v1 v2 = true → object_is v2 v3 = true → object_is v1 v3 = true.
Proof.
  destruct v1, v2, v3; simpl; try done.
  rewrite !bool_decide_eq_true. congruence.
Qed.

Lemma object_is_truthy v1 v2 :
  object_is v1 v2 = true → truthy v1 = truthy v2.
Proof. by destruct v1, v2. Qed.

Lemma object_is_JObj a b :
  object_is (JObj a) (JObj b) = true ↔ obj_ref a = obj_ref b.
Proof. simpl. by rewrite bool_decide_eq_true. Qed.

End nullable_facts.

Lemma array_find_Some {A} (p : A → bool) l a :
  array_find p l = JObj a → a ∈ l ∧ p a = true.
Proof.
  induction l as [|x l IH]; simpl; [done|].
  destruct (p x) eqn:Hp.
  - intros [= ->]. split; [left | done].
  - intros [??]%IH. split; [by right | done].
Qed.

Lemma array_find_elem_of {A} (p : A → bool) l x :
  x ∈ l → p x = true → truthy (array_find p l) = true.
Proof.
  induction 1 as [x l|x y l _ IH]; simpl; intros Hp.
  - by rewrite Hp.
  - destruct (p y); [done | by apply IH].
Qed.

Lemma array_find_not_null {A} (p : A → bool) l : array_find p l ≠ JNull.
Proof. induction l as [|x l IH]; simpl; [done|]. by destruct (p x). Qed.

Lemma array_find_undefined {A} (p : A → bool) l :
  array_find p l = JUndefined ↔ Forall (λ x, p x = false) l.
Proof.
  induction l as [|x l IH]; simpl; [by split; [constructor|]|].
  rewrite Forall_cons. destruct (p x); [naive_solver | by rewrite IH; naive_solver].
Qed.

(** ** Lemmas: sets *)

Section js_set_facts.
Context `{EqDecision A}.
Implicit Types (x y : A) (s : list A).

Lemma elem_of_jsset_add x y s : y ∈ jsset_add x s ↔ y = x ∨ y ∈ s.
Proof.
  unfold jsset_add. case_decide; [naive_solver|].
  rewrite elem_of_snoc. naive_solver.
Qed.

Lemma elem_of_jsset_delete x y s : y ∈ jsset_delete x s ↔ y ≠ x ∧ y ∈ s.
Proof. unfold jsset_delete. by rewrite list_elem_of_filter. Qed.

Lemma NoDup_jsset_add x s : NoDup s → NoDup (jsset_add x s).
Proof. unfold jsset_add. case_decide; [done|]. intros. by apply NoDup_snoc. Qed.

Lemma NoDup_jsset_delete x s : NoDup s → NoDup (jsset_delete x s).
Proof. apply NoDup_filter. Qed.

Lemma jsset_add_present x s : x ∈ s → jsset_add x s = s.
Proof. unfold jsset_add. by case_decide. Qed.

Lemma jsset_add_absent x s : x ∉ s → jsset_add x s = s ++ [x].
Proof. unfold jsset_add. by case_decide. Qed.

Lemma jsset_add_idemp x s : jsset_add x (jsset_add x s) = jsset_add x s.
Proof. apply jsset_add_present, elem_of_jsset_add. by left. Qed.

Lemma jsset_add_prefix x s : s `prefix_of` jsset_add x s.
Proof. unfold jsset_add. case_decide; [done | apply prefix_snoc]. Qed.

Lemma jsset_delete_absent x s : x ∉ s → jsset_delete x s = s.
Proof.
  intros Hx. apply filter_all, Forall_forall. by intros y Hy ->.
Qed.

Lemma jsset_delete_idemp x s :
  jsset_delete x (jsset_delete x s) = jsset_delete x s.
Proof. apply filter_idemp. Qed.

Lemma jsset_delete_add x s : x ∉ s → jsset_delete x (jsset_add x s) = s.
Proof.
  intros Hx. rewrite jsset_add_absent by done. unfold jsset_delete.
  rewrite filter_snoc, filter_one. case_decide; [done|].
  rewrite app_nil_r. by apply jsset_delete_absent.
Qed.

Lemma jsset_has_add x s : jsset_has x (jsset_add x s) = true.
Proof. apply bool_decide_eq_true, elem_of_jsset_add. by left. Qed.

Lemma jsset_has_delete x s : jsset_has x (jsset_delete x s) = false.
Proof. apply bool_decide_eq_false. rewrite elem_of_jsset_delete. naive_solver. Qed.

Lemma jsset_size_add x s :
  jsset_size (jsset_add x s) = if decide (x ∈ s) then jsset_size s else S (jsset_size s).
Proof.
  unfold jsset_size, jsset_add. case_decide; [done|].
  rewrite length_app. simpl. lia.
Qed.

Lemma jsset_size_delete x s : jsset_size (jsset_delete x s) ≤ jsset_size s.
Proof. apply length_filter_le. Qed.

#[export] Instance jsset_equiv_equivalence : Equivalence (@jsset_equiv A).
Proof. unfold jsset_equiv. split; repeat intro; naive_solver. Qed.

#[export] Instance jsset_add_proper :
  Proper ((=) ==> jsset_equiv ==> jsset_equiv) (@jsset_add A _).
Proof.
  intros x ? <- s1 s2 Hs y. rewrite !elem_of_jsset_add. by rewrite (Hs y).
Qed.

#[export] Instance jsset_delete_proper :
  Proper ((=) ==> jsset_equiv ==> jsset_equiv) (@jsset_delete A _).
Proof.
  intros x ? <- s1 s2 Hs y. rewrite !elem_of_jsset_delete. by rewrite (Hs y).
Qed.

#[export] Instance jsset_has_proper :
  Proper ((=) ==> jsset_equiv ==> (=)) (@jsset_has A _).
Proof. intros x ? <- s1 s2 Hs. apply bool_decide_ext, Hs. Qed.

Lemma jsset_add_comm x y s :
  jsset_equiv (jsset_add x (jsset_add y s)) (jsset_add y (jsset_add x s)).
Proof. intros z. rewrite !elem_of_jsset_add. naive_solver. Qed.

End js_set_facts.

(** The abstraction to a finite set. *)
Section js_set_abs.
Context `{Countable A}.
Implicit Types (x y : A) (s : list A).

Definition jsset_abs (s : JsSet A) : gset A := list_to_set s.

Lemma jsset_abs_empty : jsset_abs jsset_empty = ∅.
Proof. done. Qed.

Lemma jsset_abs_add x s : jsset_abs (jsset_add x s) = {[x]} ∪ jsset_abs s.
Proof.
  apply set_eq. intros y. unfold jsset_abs.
  rewrite elem_of_union, !elem_of_list_to_set, elem_of_jsset_add. set_solver.
Qed.

Lemma jsset_abs_delete x s : jsset_abs (jsset_delete x s) = jsset_abs s ∖ {[x]}.
Proof.
  apply set_eq. intros y. unfold jsset_abs.
  rewrite elem_of_difference, !elem_of_list_to_set, elem_of_jsset_delete.
  set_solver.
Qed.

Lemma jsset_abs_has x s : jsset_has x s = bool_decide (x ∈ jsset_abs s).
Proof. apply bool_decide_ext. unfold jsset_abs. by rewrite elem_of_list_to_set. Qed.

Lemma jsset_abs_size s : NoDup s → jsset_size s = size (jsset_abs s).
Proof. intros. unfold jsset_abs. by rewrite size_list_to_set. Qed.

Lemma jsset_equiv_abs s1 s2 : jsset_equiv s1 s2 ↔ jsset_abs s1 = jsset_abs s2.
Proof.
  unfold jsset_equiv, jsset_abs. rewrite set_eq.
  by setoid_rewrite elem_of_list_to_set.
Qed.

End js_set_abs.

#[export] Hint Resolve NoDup_jsset_add NoDup_jsset_delete jsset_add_prefix : js.
#[export] Hint Rewrite @jsset_abs_add @jsset_abs_delete @jsset_add_idemp
  @jsset_delete_idemp : js.

(** ** Lemmas: trim *)

Lemma trim_start_all_space s : trim_start s = EmptyString ↔ all_space s = true.
Proof.
  induction s as [|c s IH]; simpl; [done|].
  destruct (js_whitespace c); simpl; [done | by split].
Qed.

Lemma trim_end_all_space s : trim_end s = EmptyString ↔ all_space s = true.
Proof.
  induction s as [|c s IH]; simpl; [done|].
  destruct (trim_end s) eqn:Ht.
  - destruct (js_whitespace c); simpl; [|done].
    split; [intros _; by apply IH | done].
  - split; [done|]. rewrite andb_true_iff. intros [_ Hs]. by apply IH in Hs.
Qed.

Lemma all_space_app s t :
  all_space (s +:+ t) = all_space s && all_space t.
Proof.
  induction s as [|c s IH]; simpl; [done|]. by rewrite IH, andb_assoc.
Qed.

Lemma all_space_trim_start s : all_space s = true → all_space (trim_start s) = true.
Proof. intros Hs. by apply trim_start_all_space in Hs as ->. Qed.

(** The result of [trim_start] does not begin with white space. *)
Lemma trim_start_head s c t : trim_start s = String c t → js_whitespace c = false.
Proof.
  induction s as [|c' s IH]; simpl; [done|].
  destruct (js_whitespace c') eqn:Hc; [done | by intros [= <- <-]].
Qed.

Lemma trim_start_fixed s c t : s = String c t → js_whitespace c = false → trim_start s = s.
Proof. intros -> Hc. simpl. by rewrite Hc. Qed.

Lemma trim_start_idemp s : trim_start (trim_start s) = trim_start s.
Proof.
  destruct (trim_start s) as [|c t] eqn:Ht; [done|].
  eapply trim_start_fixed; [done | by eapply trim_start_head].
Qed.

Lemma trim_end_idemp s : trim_end (trim_end s) = trim_end s.
Proof.
  induction s as [|c s IH]; simpl; [done|].
  destruct (trim_end s) as [|c' t] eqn:Ht.
  - destruct (js_whitespace c) eqn:Hc; simpl; [done | by rewrite Hc].
  - simpl in *. by rewrite IH.
Qed.

(** [trim_end] keeps the first character of a string that does not begin
    with white space. *)
Lemma trim_end_head c t :
  js_whitespace c = false → ∃ t', trim_end (String c t) = String c t'.
Proof.
  intros Hc. simpl. destruct (trim_end t); rewrite ?Hc; eauto.
Qed.

Lemma trim_start_trim_end s : trim_start (trim_end (trim_start s)) = trim_end (trim_start s).
Proof.
  destruct (trim_start s) as [|c t] eqn:Ht; [done|].
  pose proof (trim_start_head _ _ _ Ht) as Hc.
  destruct (trim_end_head c t Hc) as [t' ->]. simpl. by rewrite Hc.
Qed.

Lemma all_space_trim_start_eq s : all_space (trim_start s) = all_space s.
Proof.
  induction s as [|c s IH]; simpl; [done|].
  destruct (js_whitespace c) eqn:Hc; simpl; [done | by rewrite Hc].
Qed.

Lemma trim_idemp s : trim (trim s) = trim s.
Proof. unfold trim. rewrite trim_start_trim_end. apply trim_end_idemp. Qed.

Lemma trim_empty_iff s : trim s = EmptyString ↔ all_space s = true.
Proof. unfold trim. by rewrite trim_end_all_space, all_space_trim_start_eq. Qed.

Lemma blank_all_space s : blank s = all_space s.
Proof.
  unfold blank. destruct (all_space s) eqn:Hs.
  - by apply bool_decide_eq_true, trim_empty_iff.
  - apply bool_decide_eq_false. rewrite trim_empty_iff. congruence.
Qed.

(** What [trim] removes is white space, at both ends. *)
Lemma trim_start_spec s :
  ∃ a, s = a +:+ trim_start s ∧ all_space a = true.
Proof.
  induction s as [|c s (a & Hs & Ha)]; simpl; [by exists EmptyString|].
  destruct (js_whitespace c) eqn:Hc; [|by exists EmptyString].
  exists (String c a). simpl. rewrite Hc, Ha.
  split; [exact (f_equal (String c) Hs) | done].
Qed.

Lemma trim_end_spec s :
  ∃ b, s = trim_end s +:+ b ∧ all_space b = true.
Proof.
  induction s as [|c s (b & Hs & Hb)]; simpl; [by exists EmptyString|].
  destruct (trim_end s) as [|c' t] eqn:Ht; simpl in *.
  - destruct (js_whitespace c) eqn:Hc; simpl.
    + exists (String c b). simpl. rewrite Hc, Hb.
      split; [exact (f_equal (String c) Hs) | done].
    + exists b. split; [exact (f_equal (String c) Hs) | done].
  - exists b. split; [exact (f_equal (String c) Hs) | done].
Qed.

Lemma trim_spec s :
  ∃ a b, s = a +:+ trim s +:+ b ∧ all_space a = true ∧ all_space b = true.
Proof.
  destruct (trim_start_spec s) as (a & Hs & Ha).
  destruct (trim_end_spec (trim_start s)) as (b & Hs' & Hb).
  exists a, b. unfold trim. by rewrite <-Hs', <-Hs.
Qed.

(** The result of [trim_end] does not end with white space. *)
Lemma trim_end_last s t c :
  trim_end s = t +:+ String c EmptyString → js_whitespace c = false.
Proof.
  revert t. induction s as [|c' s IH]; intros t; simpl.
  - by destruct t.
  - destruct (trim_end s) as [|c'' u] eqn:Hu.
    + destruct (js_whitespace c') eqn:Hc'; [by destruct t|].
      destruct t as [|? [|??]]; simpl; [|done..]. by intros [= <-].
    + destruct t as [|c0 t]; simpl; [done|]. intros [= <- Ht]. by eapply IH.
Qed.

Lemma trim_no_space s : all_space s = false → trim s ≠ EmptyString.
Proof. rewrite trim_empty_iff. congruence. Qed.

#[export] Hint Rewrite trim_idemp blank_all_space : js.
