(* ===== verification/Data.v ===== *)
(** * Data: the values that cross the wire

    The records carry the fields the client reads.  [_id] fields are
    strings (object ids of the backend); [createdAt] is a timestamp.  A
    [Group] also carries [group_ref], the identity of the JavaScript object
    ([JsData.Identified]): two fetches of the same group give two objects
    with the same [group_id] and different [group_ref].

    Outgoing packets are a pair of the event name given to [socket.emit]
    and a [payload]; incoming events are an [in_event], whose name is
    [event_name]. *)

From S2P Require Import Prelude JsData.

(** ** Records *)

(** [{_id, username}]: a participant. *)
Record User := mkUser {
  user_id : string;
  username : string;
}.

(** The [userInfo] entry of local storage: [{_id, username, token}]. *)
Record UserInfo := mkUserInfo {
  ui_id : string;
  ui_username : string;
  ui_token : string;
}.

(** [{_id, sender, content, createdAt}]; the code guards [sender] with
    [?.], so it may be missing. *)
Record Message := mkMessage {
  msg_id : string;
  sender : option User;
  content : string;
  createdAt : nat;
}.

(** [{_id, name, description, members}], with the object's identity. *)
Record Group := mkGroup {
  group_ref : nat;
  group_id : string;
  group_name : string;
  group_description : string;
  members : list User;
}.

#[export] Instance group_identified : Identified Group := group_ref.

(** The [selectedGroup] state of the page: [null] at first, a group once
    one is chosen, [undefined] when [find] finds nothing. *)
Abbreviation selection := (nullable Group) (only parsing).

(** [{type, message}] pushed by the backend. *)
Record Notification := mkNotification {
  n_type : string;
  n_message : string;
}.

(** The argument of [toast(...)]. *)
Record Toast := mkToast {
  title : string;
  description : option string;
  status : string;
  isClosable : bool;
  duration : nat;
  position : option string;
}.

#[export] Instance User_eq_dec : EqDecision User.
Proof. solve_decision. Defined.
#[export] Instance UserInfo_eq_dec : EqDecision UserInfo.
Proof. solve_decision. Defined.
#[export] Instance Message_eq_dec : EqDecision Message.
Proof. solve_decision. Defined.
#[export] Instance Group_eq_dec : EqDecision Group.
Proof. solve_decision. Defined.
#[export] Instance Notification_eq_dec : EqDecision Notification.
Proof. solve_decision. Defined.
#[export] Instance Toast_eq_dec : EqDecision Toast.
Proof. solve_decision. Defined.

(** ** Outgoing packets *)

(** The second argument of [socket.emit].  A group id read with [?.] is an
    [option] ([None] is [undefined]). *)
Inductive payload : Type :=
| PRoomId (groupId : string)
| PNewMessage (data : Message) (groupId : option string)
| PTyping (groupId : string) (username : string)
| PStopTyping (groupId : option string).

#[export] Instance payload_eq_dec : EqDecision payload.
Proof. solve_decision. Defined.

Abbreviation packet := (string * payload)%type (only parsing).

Definition is_join (p : packet) : bool := bool_decide (p.1 = "join room").
Definition is_leave (p : packet) : bool := bool_decide (p.1 = "leave room").
Definition is_room (p : packet) : bool := is_join p || is_leave p.

(** ** Incoming events *)

Inductive in_event : Type :=
| EvMessageReceived (newMessage : Message)
| EvUsersInRoom (users : list User)
| EvUserJoined (user : User)
| EvUserLeft (userId : string)
| EvNotification (notification : Notification)
| EvUserTyping (username : string)
| EvUserStopTyping (username : string).

#[export] Instance in_event_eq_dec : EqDecision in_event.
Proof. solve_decision. Defined.

Definition event_name (e : in_event) : string :=
  match e with
  | EvMessageReceived _ => "message received"
  | EvUsersInRoom _ => "users in room"
  | EvUserJoined _ => "user joined"
  | EvUserLeft _ => "user left"
  | EvNotification _ => "notification"
  | EvUserTyping _ => "user typing"
  | EvUserStopTyping _ => "user stop typing"
  end.

(** The seven event names the chat area listens to, in the order the
    effect installs them. *)
Definition room_events : list string :=
  ["message received"; "users in room"; "user joined"; "user left";
   "notification"; "user typing"; "user stop typing"].

Lemma event_name_room_events e : event_name e ∈ room_events.
Proof. destruct e; unfold room_events; simpl; set_solver. Qed.

Lemma NoDup_room_events : NoDup room_events.
Proof. apply (bool_decide_unpack _). by vm_compute. Qed.

#[export] Hint Resolve event_name_room_events NoDup_room_events : js.
