(* ===== verification/Channel.v ===== *)
(** * Channel: the event channel a component is given, and the socket

    [Channel St Hd] is what the chat area expects of the [socket] prop: it
    can [emit] a packet, install ([on]) a handler of type [Hd] under an event
    name and remove ([off]) every handler of a name.  The laws say what can
    be observed afterwards: the listeners of each name in installation
    order, the packets sent in order, and whether the channel is open.
    The component's theorems are proved from these laws alone.

    [Socket H] models the socket.io client that [Chat.jsx] creates with
    [io(ENDPOINT, {auth})] and closes with [disconnect()]; it implements
    the interface ([socket_channel]).  A packet emitted on a socket that was
    disconnected by the page is never sent; events are not delivered to
    a disconnected socket.  Reconnection and buffering below the interface
    are not modelled. *)

From S2P Require Import Prelude JsData Data.

(** ** The interface *)

Class Channel (St Hd : Type) := {
  ch_emit : string → payload → St → St;
  ch_on : string → Hd → St → St;
  ch_off : string → St → St;
  ch_listeners : St → string → list Hd;
  ch_sent : St → list packet;
  ch_open : St → bool;
  ch_listeners_on n h s m :
    ch_listeners (ch_on n h s) m =
      if decide (n = m) then ch_listeners s m ++ [h] else ch_listeners s m;
  ch_listeners_off n s m :
    ch_listeners (ch_off n s) m =
      if decide (n = m) then [] else ch_listeners s m;
  ch_listeners_emit n p s m :
    ch_listeners (ch_emit n p s) m = ch_listeners s m;
  ch_sent_emit n p s :
    ch_sent (ch_emit n p s) =
      if ch_open s then ch_sent s ++ [(n, p)] else ch_sent s;
  ch_sent_on n h s : ch_sent (ch_on n h s) = ch_sent s;
  ch_sent_off n s : ch_sent (ch_off n s) = ch_sent s;
  ch_open_emit n p s : ch_open (ch_emit n p s) = ch_open s;
  ch_open_on n h s : ch_open (ch_on n h s) = ch_open s;
  ch_open_off n s : ch_open (ch_off n s) = ch_open s;
}.

#[export] Hint Rewrite @ch_listeners_on @ch_listeners_off @ch_listeners_emit
  @ch_sent_emit @ch_sent_on @ch_sent_off
  @ch_open_emit @ch_open_on @ch_open_off : js.

(** Rewrites with the laws of the interface, then decides the comparisons
    of event names. *)
Ltac ch_simpl :=
  autorewrite with js in *; repeat (case_decide; simplify_eq/=); try done.

(** ** Derived operations and facts *)

Section channel.
Context {St Hd : Type} `{!Channel St Hd}.
Implicit Types (s : St) (n m : string) (h : Hd).

(** Installing one handler under each of several names, and removing the
    handlers of several names. *)
Definition ch_on_all (hs : list (string * Hd)) (s : St) : St :=
  foldl (λ s nh, ch_on nh.1 nh.2 s) s hs.

Definition ch_off_all (ns : list string) (s : St) : St :=
  foldl (λ s n, ch_off n s) s ns.

(** Two channels are indistinguishable when every observation agrees. *)
Definition ch_equiv (s1 s2 : St) : Prop :=
  ch_open s1 = ch_open s2 ∧ ch_sent s1 = ch_sent s2 ∧
  ∀ n, ch_listeners s1 n = ch_listeners s2 n.

(** No handler is installed under any name. *)
Definition ch_silent (s : St) : Prop := ∀ n, ch_listeners s n = [].

#[export] Instance ch_equiv_equivalence : Equivalence ch_equiv.
Proof.
  unfold ch_equiv. split.
  - by intros s.
  - intros s1 s2 (?&?&?). by split_and!.
  - intros s1 s2 s3 (?&?&Hl1) (?&?&Hl2). split_and!; [congruence..|].
    intros n. by rewrite Hl1.
Qed.

#[export] Instance ch_emit_proper n p : Proper (ch_equiv ==> ch_equiv) (ch_emit n p).
Proof.
  intros s1 s2 (Ho & Hs & Hl). unfold ch_equiv.
  rewrite !ch_open_emit, !ch_sent_emit, Ho, Hs. split_and!; [done..|].
  intros m. by rewrite !ch_listeners_emit.
Qed.

#[export] Instance ch_on_proper n h : Proper (ch_equiv ==> ch_equiv) (ch_on n h).
Proof.
  intros s1 s2 (Ho & Hs & Hl). unfold ch_equiv.
  rewrite !ch_open_on, !ch_sent_on. split_and!; [done..|].
  intros m. by rewrite !ch_listeners_on, Hl.
Qed.

#[export] Instance ch_off_proper n : Proper (ch_equiv ==> ch_equiv) (ch_off n).
Proof.
  intros s1 s2 (Ho & Hs & Hl). unfold ch_equiv.
  rewrite !ch_open_off, !ch_sent_off. split_and!; [done..|].
  intros m. by rewrite !ch_listeners_off, Hl.
Qed.

Lemma ch_sent_on_all hs s : ch_sent (ch_on_all hs s) = ch_sent s.
Proof.
  revert s. induction hs as [|[n h] hs IH]; intros s; simpl; [done|].
  by rewrite IH, ch_sent_on.
Qed.

Lemma ch_open_on_all hs s : ch_open (ch_on_all hs s) = ch_open s.
Proof.
  revert s. induction hs as [|[n h] hs IH]; intros s; simpl; [done|].
  by rewrite IH, ch_open_on.
Qed.

Lemma ch_sent_off_all ns s : ch_sent (ch_off_all ns s) = ch_sent s.
Proof.
  revert s. induction ns as [|n ns IH]; intros s; simpl; [done|].
  by rewrite IH, ch_sent_off.
Qed.

Lemma ch_open_off_all ns s : ch_open (ch_off_all ns s) = ch_open s.
Proof.
  revert s. induction ns as [|n ns IH]; intros s; simpl; [done|].
  by rewrite IH, ch_open_off.
Qed.

(** After [ch_off_all ns], the names of [ns] have no listener and the
    others keep theirs. *)
Lemma ch_listeners_off_all ns s m :
  ch_listeners (ch_off_all ns s) m =
    if decide (m ∈ ns) then [] else ch_listeners s m.
Proof.
  revert s. induction ns as [|n ns IH]; intros s; simpl; [done|].
  rewrite IH, ch_listeners_off.
  repeat case_decide; set_solver.
Qed.

(** After [ch_on_all hs], each name has its old listeners followed by the
    handlers [hs] gives it, in order. *)
Lemma ch_listeners_on_all hs s m :
  ch_listeners (ch_on_all hs s) m =
    ch_listeners s m ++ (filter (λ nh, nh.1 = m) hs).*2.
Proof.
  revert s. induction hs as [|[n h] hs IH]; intros s; simpl.
  - by rewrite app_nil_r.
  - rewrite IH, ch_listeners_on, filter_cons. simpl.
    case_decide; simpl; [by rewrite <-app_assoc | done].
Qed.

Lemma ch_silent_off_all ns s :
  (∀ n, n ∉ ns → ch_listeners s n = []) → ch_silent (ch_off_all ns s).
Proof.
  intros Hs n. rewrite ch_listeners_off_all. case_decide; [done | by apply Hs].
Qed.

End channel.

#[export] Hint Rewrite @ch_sent_on_all @ch_open_on_all @ch_sent_off_all
  @ch_open_off_all @ch_listeners_off_all @ch_listeners_on_all : js.

(** ** The socket.io client *)

Record Socket (H : Type) := mkSocket {
  sk_auth : UserInfo;
  sk_open : bool;
  sk_listeners : gmap string (list H);
  sk_outbox : list packet;
}.

Arguments mkSocket {H}.
Arguments sk_auth {H}.
Arguments sk_open {H}.
Arguments sk_listeners {H}.
Arguments sk_outbox {H}.

Section socket.
Context {H : Type}.
Implicit Types (s : Socket H) (n m : string) (h : H).

(** [io(ENDPOINT, {auth: {user}})]. *)
Definition io (user : UserInfo) : Socket H :=
  mkSocket user true ∅ [].

(** [socket.disconnect()]. *)
Definition disconnect (s : Socket H) : Socket H :=
  mkSocket (sk_auth s) false (sk_listeners s) (sk_outbox s).

Definition socket_listeners (s : Socket H) (n : string) : list H :=
  default [] (sk_listeners s !! n).

(** [socket.emit(n, p)].  A closed socket drops the packet, which is
    what the client does after [disconnect()]; what it buffers while the
    connection is down for another reason is not modelled. *)
Definition socket_emit (n : string) (p : payload) (s : Socket H) : Socket H :=
  if sk_open s
  then mkSocket (sk_auth s) (sk_open s) (sk_listeners s) (sk_outbox s ++ [(n, p)])
  else s.

(** [socket.on(n, h)]: one more listener, after the ones already there. *)
Definition socket_on (n : string) (h : H) (s : Socket H) : Socket H :=
  mkSocket (sk_auth s) (sk_open s)
    (<[n := socket_listeners s n ++ [h]]> (sk_listeners s)) (sk_outbox s).

(** [socket.off(n)]: every listener of the name is removed. *)
Definition socket_off (n : string) (s : Socket H) : Socket H :=
  mkSocket (sk_auth s) (sk_open s) (delete n (sk_listeners s)) (sk_outbox s).

Lemma socket_listeners_on n h s m :
  socket_listeners (socket_on n h s) m =
    if decide (n = m) then socket_listeners s m ++ [h] else socket_listeners s m.
Proof.
  unfold socket_listeners, socket_on; simpl. case_decide; simplify_eq.
  - by rewrite lookup_insert_eq.
  - by rewrite lookup_insert_ne.
Qed.

Lemma socket_listeners_off n s m :
  socket_listeners (socket_off n s) m = if decide (n = m) then [] else socket_listeners s m.
Proof.
  unfold socket_listeners, socket_off; simpl. case_decide; simplify_eq.
  - by rewrite lookup_delete_eq.
  - by rewrite lookup_delete_ne.
Qed.

Lemma socket_listeners_emit n p s m : socket_listeners (socket_emit n p s) m = socket_listeners s m.
Proof. unfold socket_listeners, socket_emit. by destruct (sk_open s). Qed.

Lemma outbox_emit n p s :
  sk_outbox (socket_emit n p s) =
    if sk_open s then sk_outbox s ++ [(n, p)] else sk_outbox s.
Proof. unfold socket_emit. by destruct (sk_open s). Qed.

Lemma open_emit n p s : sk_open (socket_emit n p s) = sk_open s.
Proof. unfold socket_emit. by destruct (sk_open s) eqn:?. Qed.

#[export] Instance socket_channel : Channel (Socket H) H := {|
  ch_emit := socket_emit;
  ch_on := socket_on;
  ch_off := socket_off;
  ch_listeners := socket_listeners;
  ch_sent := sk_outbox;
  ch_open := sk_open;
  ch_listeners_on := socket_listeners_on;
  ch_listeners_off := socket_listeners_off;
  ch_listeners_emit := socket_listeners_emit;
  ch_sent_emit := outbox_emit;
  ch_sent_on := λ _ _ _, eq_refl;
  ch_sent_off := λ _ _, eq_refl;
  ch_open_emit := open_emit;
  ch_open_on := λ _ _ _, eq_refl;
  ch_open_off := λ _ _, eq_refl;
|}.

(** A new socket is open, silent and has sent nothing. *)
Lemma io_open user : sk_open (io user) = true.
Proof. done. Qed.

Lemma io_silent user : ch_silent (io user).
Proof. intros n. unfold ch_listeners; simpl. unfold socket_listeners; simpl. by rewrite lookup_empty. Qed.

Lemma io_outbox user : sk_outbox (io user) = [].
Proof. done. Qed.

(** [disconnect] closes the socket and changes nothing else. *)
Lemma disconnect_open s : sk_open (disconnect s) = false.
Proof. done. Qed.

Lemma disconnect_outbox s : sk_outbox (disconnect s) = sk_outbox s.
Proof. done. Qed.

Lemma disconnect_listeners s n : socket_listeners (disconnect s) n = socket_listeners s n.
Proof. done. Qed.

(** Nothing is sent through a socket once it is disconnected. *)
Lemma emit_disconnected n p s : sk_open s = false → socket_emit n p s = s.
Proof. unfold socket_emit. by intros ->. Qed.

(** On the socket, indistinguishable means equal up to the listener
    table's representation. *)
Lemma socket_equiv_eq s1 s2 :
  sk_auth s1 = sk_auth s2 →
  (∀ n, sk_listeners s1 !! n = sk_listeners s2 !! n) →
  ch_equiv s1 s2 → s1 = s2.
Proof.
  destruct s1, s2; simpl. intros -> Hl (? & ? & _); simpl in *.
  f_equal; [done| |done]. by apply map_eq.
Qed.

End socket.
