(* ===== verification/Timers.v ===== *)
(** * Timers: the browser's timer table

    [setTimeout(cb, delay)] registers a callback [cb] to run [delay]
    milliseconds from now and returns a fresh positive id;
    [clearTimeout(id)] removes the timer of that id, if it is still
    pending.  When time advances, the timers whose deadline has passed run
    in the order of their deadlines, timers of equal deadline in the order
    they were set ([due]), and leave the table ([expire]).

    The table is generic in the type [C] of callbacks: the chat area's only
    callback is the debounce closure of [handleTyping]. *)

From stdpp Require Import sorting.
From S2P Require Import Prelude.

Record Timer (C : Type) := mkTimer {
  t_id : nat;
  t_deadline : nat;
  t_callback : C;
}.

Arguments mkTimer {C}.
Arguments t_id {C}.
Arguments t_deadline {C}.
Arguments t_callback {C}.

Record Timers (C : Type) := mkTimers {
  tm_next : nat;
  tm_pending : list (Timer C);
}.

Arguments mkTimers {C}.
Arguments tm_next {C}.
Arguments tm_pending {C}.

Section timers.
Context {C : Type}.
Implicit Types (tm : Timers C) (t u : Timer C) (l : list (Timer C)).

(** Ids start at 1, so that an id is truthy. *)
Definition timers_init : Timers C := mkTimers 1 [].

Definition setTimeout (cb : C) (delay now : nat) (tm : Timers C) : nat * Timers C :=
  (tm_next tm,
   mkTimers (S (tm_next tm))
     (tm_pending tm ++ [mkTimer (tm_next tm) (now + delay) cb])).

Definition clearTimeout (id : nat) (tm : Timers C) : Timers C :=
  mkTimers (tm_next tm) (filter (λ t, t_id t ≠ id) (tm_pending tm)).

(** Stable insertion by deadline. *)
Fixpoint insert_timer (t : Timer C) (l : list (Timer C)) : list (Timer C) :=
  match l with
  | [] => [t]
  | u :: l' =>
      if decide (t_deadline t ≤ t_deadline u) then t :: l
      else u :: insert_timer t l'
  end.

Definition sort_timers (l : list (Timer C)) : list (Timer C) :=
  foldr insert_timer [] l.

(** The timers to run when the clock shows [now], in firing order. *)
Definition due (now : nat) (tm : Timers C) : list (Timer C) :=
  sort_timers (filter (λ t, t_deadline t ≤ now) (tm_pending tm)).

(** The table once they have run. *)
Definition expire (now : nat) (tm : Timers C) : Timers C :=
  mkTimers (tm_next tm) (filter (λ t, ¬ t_deadline t ≤ now) (tm_pending tm)).

Definition pending_ids (tm : Timers C) : list nat := t_id <$> tm_pending tm.

(** Well-formed table: ids are positive, below the next id and distinct. *)
Definition timers_wf (tm : Timers C) : Prop :=
  0 < tm_next tm ∧ NoDup (pending_ids tm) ∧
  Forall (λ i, 0 < i < tm_next tm) (pending_ids tm).

(** Deadlines do not decrease along the list. *)
Definition deadlines_sorted (l : list (Timer C)) : Prop :=
  Sorted (λ t u, t_deadline t ≤ t_deadline u) l.

Lemma timers_init_wf : timers_wf timers_init.
Proof. split_and!; [simpl; lia | constructor | constructor]. Qed.

Lemma setTimeout_id cb d now tm : (setTimeout cb d now tm).1 = tm_next tm.
Proof. done. Qed.

Lemma setTimeout_fresh cb d now tm :
  timers_wf tm → (setTimeout cb d now tm).1 ∉ pending_ids tm.
Proof.
  intros (_ & _ & Hb) Hin. rewrite Forall_forall in Hb.
  apply Hb in Hin. simpl in Hin. lia.
Qed.

Lemma setTimeout_truthy cb d now tm :
  timers_wf tm → (setTimeout cb d now tm).1 ≠ 0.
Proof. intros (? & _). simpl. lia. Qed.

Lemma setTimeout_wf cb d now tm :
  timers_wf tm → timers_wf (setTimeout cb d now tm).2.
Proof.
  intros (Hn & Hnd & Hb). unfold timers_wf, pending_ids in *; simpl.
  rewrite fmap_app; simpl. split_and!; [lia | |].
  - apply NoDup_snoc; [done|]. intros Hin.
    rewrite Forall_forall in Hb. apply Hb in Hin. lia.
  - apply Forall_app. split; [|constructor; [lia|constructor]].
    eapply Forall_impl; [done|]. simpl. intros; lia.
Qed.

Lemma elem_of_pending_clearTimeout id i tm :
  i ∈ pending_ids (clearTimeout id tm) ↔ i ≠ id ∧ i ∈ pending_ids tm.
Proof.
  unfold pending_ids, clearTimeout; simpl.
  rewrite !list_elem_of_fmap. setoid_rewrite list_elem_of_filter. naive_solver.
Qed.

Lemma pending_ids_filter (P : Timer C → Prop) `{!∀ t, Decision (P t)} l :
  sublist (t_id <$> filter P l) (t_id <$> l).
Proof. apply fmap_sublist, sublist_filter. Qed.

Lemma filter_wf (P : Timer C → Prop) `{!∀ t, Decision (P t)} tm :
  timers_wf tm → timers_wf (mkTimers (tm_next tm) (filter P (tm_pending tm))).
Proof.
  intros (Hn & Hnd & Hb). unfold timers_wf, pending_ids in *; simpl.
  pose proof (pending_ids_filter P (tm_pending tm)) as Hsub.
  split_and!; [done | by eapply sublist_NoDup |].
  eapply Forall_impl with (P := (.∈ t_id <$> tm_pending tm)).
  - apply Forall_forall. intros i Hi. by eapply sublist_subseteq.
  - intros i Hi. by eapply Forall_forall in Hb.
Qed.

Lemma clearTimeout_wf id tm : timers_wf tm → timers_wf (clearTimeout id tm).
Proof. apply filter_wf. Qed.

Lemma expire_wf now tm : timers_wf tm → timers_wf (expire now tm).
Proof. apply filter_wf. Qed.

(** Clearing a timer that is not pending changes nothing. *)
Lemma clearTimeout_absent id tm : id ∉ pending_ids tm → clearTimeout id tm = tm.
Proof.
  intros Hid. destruct tm as [n l]. unfold clearTimeout; simpl. f_equal.
  apply filter_all, Forall_forall. intros t Ht Heq.
  apply Hid. unfold pending_ids; simpl. rewrite <-Heq.
  by apply list_elem_of_fmap_2.
Qed.

Lemma clearTimeout_idemp id tm :
  clearTimeout id (clearTimeout id tm) = clearTimeout id tm.
Proof. unfold clearTimeout; simpl. by rewrite filter_idemp. Qed.

(** A timer that was just set and cleared leaves the table as it was,
    except for the id counter. *)
Lemma clearTimeout_setTimeout cb d now tm :
  timers_wf tm →
  tm_pending (clearTimeout (tm_next tm) (setTimeout cb d now tm).2) = tm_pending tm.
Proof.
  intros Hwf. simpl. rewrite filter_snoc, filter_one; simpl. case_decide; [done|].
  rewrite app_nil_r. apply filter_all, Forall_forall. intros t Ht Heq.
  apply (setTimeout_fresh cb d now tm Hwf). simpl. rewrite <-Heq.
  by apply list_elem_of_fmap_2.
Qed.

(** ** Firing order *)

Lemma insert_timer_perm t l : insert_timer t l ≡ₚ t :: l.
Proof.
  induction l as [|u l IH]; simpl; [done|].
  case_decide; [done|]. by rewrite IH, Permutation_swap.
Qed.

Lemma sort_timers_perm l : sort_timers l ≡ₚ l.
Proof.
  induction l as [|t l IH]; simpl; [done|].
  by rewrite insert_timer_perm, IH.
Qed.

Lemma insert_timer_hd t l u0 :
  t_deadline u0 ≤ t_deadline t →
  HdRel (λ t u, t_deadline t ≤ t_deadline u) u0 l →
  HdRel (λ t u, t_deadline t ≤ t_deadline u) u0 (insert_timer t l).
Proof.
  intros Ht Hl. destruct l as [|u l]; simpl; [by constructor|].
  case_decide; constructor; [done|]. by inversion Hl.
Qed.

Lemma insert_timer_sorted t l :
  deadlines_sorted l → deadlines_sorted (insert_timer t l).
Proof.
  unfold deadlines_sorted.
  induction 1 as [|u l Hl IH Hhd]; simpl; [by repeat constructor|].
  case_decide.
  - constructor; [by constructor | by constructor].
  - constructor; [done|]. apply insert_timer_hd; [lia | done].
Qed.

Lemma sort_timers_sorted l : deadlines_sorted (sort_timers l).
Proof.
  induction l as [|t l IH]; simpl; [constructor | by apply insert_timer_sorted].
Qed.

(** A list whose deadlines are already in order is left as it is: with
    one fixed delay, timers fire in the order they were set. *)
Lemma sort_timers_sorted_id l : deadlines_sorted l → sort_timers l = l.
Proof.
  unfold deadlines_sorted.
  induction 1 as [|t l Hl IH Hhd]; simpl; [done|].
  rewrite IH. destruct Hhd as [|u l' Hu]; simpl; [done|].
  by case_decide.
Qed.

Lemma elem_of_due now tm t :
  t ∈ due now tm ↔ t ∈ tm_pending tm ∧ t_deadline t ≤ now.
Proof.
  unfold due. rewrite sort_timers_perm, list_elem_of_filter. tauto.
Qed.

Lemma elem_of_expire now tm t :
  t ∈ tm_pending (expire now tm) ↔ t ∈ tm_pending tm ∧ now < t_deadline t.
Proof.
  unfold expire; simpl. rewrite list_elem_of_filter.
  split; intros []; split; try done; lia.
Qed.

(** Nothing is due before the earliest deadline. *)
Lemma due_none now tm :
  Forall (λ t, now < t_deadline t) (tm_pending tm) → due now tm = [].
Proof.
  intros Hall. unfold due. rewrite filter_none; [done|].
  eapply Forall_impl; [done|]. simpl. intros; lia.
Qed.

Lemma expire_none now tm :
  Forall (λ t, now < t_deadline t) (tm_pending tm) → expire now tm = tm.
Proof.
  intros Hall. destruct tm as [n l]. unfold expire; simpl in *. f_equal.
  apply filter_all. eapply Forall_impl; [done|]. simpl. intros; lia.
Qed.

(** Once the due timers have expired, nothing is due until time moves. *)
Lemma due_expire now tm : due now (expire now tm) = [].
Proof.
  apply due_none, Forall_forall. intros t Ht.
  by apply elem_of_expire in Ht as [_ ?].
Qed.

End timers.

#[export] Hint Resolve timers_init_wf setTimeout_wf clearTimeout_wf expire_wf : js.
