(* ===== verification/Http.v ===== *)
(** * Http: requests in flight

    An [axios] call returns a promise; the function that awaits it is
    suspended and continues when the environment resolves the request.
    [Http K] is the table of the calls a component has in flight: each
    entry is the [Request] that was sent and the continuation [K] that
    waits for the answer.  [http_send] adds an entry under a fresh id and
    [http_take] removes one when the answer arrives.

    [response] is what the backend answers, by the contracts of spec.md
    section 6, or the error axios rejects with. *)

From S2P Require Import Prelude JsData Data.

Definition ENDPOINT : string := "https://vv-chat-app-backend.onrender.com".

Inductive http_method := GET | POST.

#[export] Instance http_method_eq_dec : EqDecision http_method.
Proof. solve_decision. Defined.

(** The JSON body of a request. *)
Inductive req_body : Type :=
| BNone
| BEmpty
| BMessage (content : string) (groupId : option string)
| BGroup (name description : string).

#[export] Instance req_body_eq_dec : EqDecision req_body.
Proof. solve_decision. Defined.

Record Request := mkRequest {
  rq_method : http_method;
  rq_url : string;
  rq_body : req_body;
  rq_authorization : string;
}.

#[export] Instance Request_eq_dec : EqDecision Request.
Proof. solve_decision. Defined.

(** [`Bearer ${token}`]. *)
Definition bearer (token : string) : string := "Bearer " +:+ token.

(** A value interpolated in a template literal: [undefined] prints as
    such. *)
Definition interpolate (v : option string) : string := default "undefined" v.

(** What axios rejects with: [error.response] is missing when the request
    never got an answer, [error.response.data] when the answer had no
    body, and [error.response.data.message] may be missing or empty. *)
Inductive http_error : Type :=
| NoResponse
| NoData
| ErrorResponse (message : option string).

#[export] Instance http_error_eq_dec : EqDecision http_error.
Proof. solve_decision. Defined.

Inductive response : Type :=
| RMessages (messages : list Message)
| RMessage (data : Message)
| RGroups (data : list Group)
| RUser (isAdmin : option bool)
| RDone
| RError (error : http_error).

#[export] Instance response_eq_dec : EqDecision response.
Proof. solve_decision. Defined.

Record Http (K : Type) := mkHttp {
  h_next : nat;
  h_pending : gmap nat (Request * K);
}.

Arguments mkHttp {K}.
Arguments h_next {K}.
Arguments h_pending {K}.

Section http.
Context {K : Type}.
Implicit Types (h : Http K) (rq : Request) (k : K).

Definition http_init : Http K := mkHttp 0 ∅.

Definition http_send (rq : Request) (k : K) (h : Http K) : Http K :=
  mkHttp (S (h_next h)) (<[h_next h := (rq, k)]> (h_pending h)).

Definition http_take (id : nat) (h : Http K) : option (Request * K) * Http K :=
  (h_pending h !! id, mkHttp (h_next h) (delete id (h_pending h))).

(** Every pending id is below the next one. *)
Definition http_wf (h : Http K) : Prop :=
  ∀ id, is_Some (h_pending h !! id) → id < h_next h.

Lemma http_init_wf : http_wf http_init.
Proof. intros id [? Hid]. simpl in Hid. by rewrite lookup_empty in Hid. Qed.

Lemma http_send_wf rq k h : http_wf h → http_wf (http_send rq k h).
Proof.
  intros Hwf id. unfold http_send; simpl.
  destruct (decide (h_next h = id)) as [<-|Hne]; [lia|].
  rewrite lookup_insert_ne by done. intros ?%Hwf. lia.
Qed.

Lemma http_take_wf id h : http_wf h → http_wf (http_take id h).2.
Proof.
  intros Hwf i. unfold http_take; simpl.
  destruct (decide (id = i)) as [<-|Hne].
  - rewrite lookup_delete_eq. by intros [? [=]].
  - rewrite lookup_delete_ne by done. apply Hwf.
Qed.

(** The request just sent is pending under the id the table announced,
    and the requests sent before are still there. *)
Lemma http_send_lookup rq k h :
  h_pending (http_send rq k h) !! h_next h = Some (rq, k).
Proof. unfold http_send; simpl. by rewrite lookup_insert_eq. Qed.

Lemma http_send_lookup_ne rq k h id :
  id ≠ h_next h → h_pending (http_send rq k h) !! id = h_pending h !! id.
Proof. intros. unfold http_send; simpl. by rewrite lookup_insert_ne. Qed.

Lemma http_send_fresh rq k h : http_wf h → h_pending h !! h_next h = None.
Proof.
  intros Hwf. destruct (h_pending h !! h_next h) eqn:Hl; [|done].
  assert (h_next h < h_next h) by (apply Hwf; eauto). lia.
Qed.

(** A request is answered at most once. *)
Lemma http_take_twice id h :
  (http_take id (http_take id h).2).1 = None.
Proof. unfold http_take; simpl. by rewrite lookup_delete_eq. Qed.

Lemma http_take_send rq k h :
  http_wf h → http_take (h_next h) (http_send rq k h) = (Some (rq, k), mkHttp (S (h_next h)) (h_pending h)).
Proof.
  intros Hwf. unfold http_take, http_send; simpl.
  rewrite lookup_insert_eq, delete_insert_eq.
  by rewrite delete_id by by apply http_send_fresh.
Qed.

(** The table once its newest request was answered. *)
Lemma http_answered_wf h :
  http_wf h → http_wf (mkHttp (S (h_next h)) (h_pending h)).
Proof. intros Hwf id Hid. simpl in *. apply Hwf in Hid. lia. Qed.

End http.

#[export] Hint Resolve http_init_wf http_send_wf http_take_wf : js.
