(* ===== verification/ChatArea.v ===== *)
(** * ChatArea: the session synchronisation engine

    Models [src/src/components/ChatArea.jsx].

    - [State] holds the component's [useState] cells and its ref, and for
      the [messages] and [typingUsers] cells which object they hold (every
      call of their setters stores an array or a [Set] built for it: the
      scroll effect depends on the objects, not on their contents); [World]
      adds what the component acts on: the socket it was given, the timer
      table, its requests in flight, the toasts it raised, the console, the
      clock, and the cleanup function React keeps for its effect.
    - [effect] is the body of the [useEffect] on [selectedGroup]:
      [fetchMessages], the join packet, the seven [socket.on]; it records
      the cleanup closure, which captured the group.  [cleanup_body] is that
      closure; [react_cleanup] runs it if there is one, once.
      [rerun_effect] is what React does when the dependency changes and
      [unmount] what it does when the component goes away.
    - [run_handler] is the seven socket handlers; [deliver] dispatches an
      incoming event to the handlers installed under its name.
    - [fetchMessages] and [sendMessage] are split at their [await]:
      the part that sends the request, and [fetchMessages_resolved] and
      [sendMessage_resolved], which run on the answer.  [sendMessage]'s
      continuation carries the [messages] and [selectedGroup] its closure
      captured.
    - [handleTyping] is the input's change handler and [run_callback] the
      debounce closure it schedules; [advance] lets time pass and runs the
      timers that are due.

    All operations are stated against the [Channel] interface.  A state
    update on an unmounted component has no observable effect; the model
    applies it to a state nobody reads. *)

From S2P Require Import Prelude JsData Data Channel Timers Http.

(** ** State *)

(** [messages_obj] and [typingUsers_obj] number the objects the two cells
    have held: [Object.is] of two renders' [messages] is equality of
    [messages_obj]. *)
Record State := mkState {
  messages : list Message;
  newMessage : string;
  connectedUsers : list User;
  isTyping : bool;
  typingUsers : JsSet string;
  typingTimeOutRef : option nat;
  messages_obj : nat;
  typingUsers_obj : nat;
}.

Definition initial_state : State :=
  mkState [] "" [] false jsset_empty None 0 0.

(** The seven closures given to [socket.on]. *)
Inductive handler : Type :=
| OnMessageReceived
| OnUsersInRoom
| OnUserJoined
| OnUserLeft
| OnNotification
| OnUserTyping
| OnUserStopTyping.

#[export] Instance handler_eq_dec : EqDecision handler.
Proof. solve_decision. Defined.

(** The closure given to [setTimeout]: it captured [selectedGroup]. *)
Inductive callback : Type :=
| TypingTimeout (selectedGroup : selection).

(** What waits for an HTTP answer. *)
Inductive continuation : Type :=
| KFetchMessages
| KSendMessage (messages : list Message) (selectedGroup : selection).

Inductive js_error : Type :=
| TypeError (what : string)
| SyntaxError (what : string).

Record World (St : Type) := mkWorld {
  st : State;
  mounted : bool;
  cleanup : option Group;
  sock : St;
  timers : Timers callback;
  http : Http continuation;
  toasts : list Toast;
  console : list http_error;
  now : nat;
}.

Arguments mkWorld {St}.
Arguments st {St}.
Arguments mounted {St}.
Arguments cleanup {St}.
Arguments sock {St}.
Arguments timers {St}.
Arguments http {St}.
Arguments toasts {St}.
Arguments console {St}.
Arguments now {St}.

(** [JSON.parse(localStorage.getItem("userInfo") || {})]: without the
    entry, [JSON.parse] is given an object, whose string form is not JSON.
    An entry that is present is taken to be the JSON of a user, as the
    login page stores it. *)
Definition read_userInfo (item : option UserInfo) : result js_error UserInfo :=
  match item with
  | Some u => Ok u
  | None => Throw (SyntaxError "[object Object] is not valid JSON")
  end.

Section chat_area.
Context {St : Type} `{!Channel St handler}.
Implicit Types (w : World St) (s : State) (g : Group).

(** ** Updates *)

Definition set_st (f : State → State) (w : World St) : World St :=
  mkWorld (f (st w)) (mounted w) (cleanup w) (sock w) (timers w) (http w)
    (toasts w) (console w) (now w).

Definition set_sock (f : St → St) (w : World St) : World St :=
  mkWorld (st w) (mounted w) (cleanup w) (f (sock w)) (timers w) (http w)
    (toasts w) (console w) (now w).

Definition set_timers (f : Timers callback → Timers callback) (w : World St) : World St :=
  mkWorld (st w) (mounted w) (cleanup w) (sock w) (f (timers w)) (http w)
    (toasts w) (console w) (now w).

Definition set_http (f : Http continuation → Http continuation) (w : World St) : World St :=
  mkWorld (st w) (mounted w) (cleanup w) (sock w) (timers w) (f (http w))
    (toasts w) (console w) (now w).

Definition set_cleanup (c : option Group) (w : World St) : World St :=
  mkWorld (st w) (mounted w) c (sock w) (timers w) (http w)
    (toasts w) (console w) (now w).

Definition set_mounted (b : bool) (w : World St) : World St :=
  mkWorld (st w) b (cleanup w) (sock w) (timers w) (http w)
    (toasts w) (console w) (now w).

Definition set_now (t : nat) (w : World St) : World St :=
  mkWorld (st w) (mounted w) (cleanup w) (sock w) (timers w) (http w)
    (toasts w) (console w) t.

(** [toast({...})]. *)
Definition toast (t : Toast) (w : World St) : World St :=
  mkWorld (st w) (mounted w) (cleanup w) (sock w) (timers w) (http w)
    (toasts w ++ [t]) (console w) (now w).

(** [console.log(error)]. *)
Definition console_log (e : http_error) (w : World St) : World St :=
  mkWorld (st w) (mounted w) (cleanup w) (sock w) (timers w) (http w)
    (toasts w) (console w ++ [e]) (now w).

(** [socket.emit], [socket.on], [socket.off] on the world's socket. *)
Definition emit (n : string) (p : payload) : World St → World St :=
  set_sock (ch_emit n p).
Definition on (n : string) (h : handler) : World St → World St :=
  set_sock (ch_on n h).
Definition off (n : string) : World St → World St :=
  set_sock (ch_off n).

(** The state setters; the functional form [setX(prev => f(prev))]. *)
Definition setMessages (f : list Message → list Message) : World St → World St :=
  set_st (λ s, mkState (f (messages s)) (newMessage s) (connectedUsers s)
                 (isTyping s) (typingUsers s) (typingTimeOutRef s)
                 (S (messages_obj s)) (typingUsers_obj s)).

Definition setNewMessage (v : string) : World St → World St :=
  set_st (λ s, mkState (messages s) v (connectedUsers s)
                 (isTyping s) (typingUsers s) (typingTimeOutRef s)
                 (messages_obj s) (typingUsers_obj s)).

Definition setConnectedUsers (f : list User → list User) : World St → World St :=
  set_st (λ s, mkState (messages s) (newMessage s) (f (connectedUsers s))
                 (isTyping s) (typingUsers s) (typingTimeOutRef s)
                 (messages_obj s) (typingUsers_obj s)).

Definition setIsTyping (b : bool) : World St → World St :=
  set_st (λ s, mkState (messages s) (newMessage s) (connectedUsers s)
                 b (typingUsers s) (typingTimeOutRef s)
                 (messages_obj s) (typingUsers_obj s)).

Definition setTypingUsers (f : JsSet string → JsSet string) : World St → World St :=
  set_st (λ s, mkState (messages s) (newMessage s) (connectedUsers s)
                 (isTyping s) (f (typingUsers s)) (typingTimeOutRef s)
                 (messages_obj s) (S (typingUsers_obj s))).

Definition set_typingTimeOutRef (r : option nat) : World St → World St :=
  set_st (λ s, mkState (messages s) (newMessage s) (connectedUsers s)
                 (isTyping s) (typingUsers s) r
                 (messages_obj s) (typingUsers_obj s)).

(** The component as React creates it, given the socket. *)
Definition mount_world (socket : St) (t : nat) : World St :=
  mkWorld initial_state true None socket timers_init http_init [] [] t.

(** ** fetchMessages *)

Definition messages_url (selectedGroup : selection) : string :=
  ENDPOINT +:+ "/api/messages/" +:+ interpolate (opt_chain group_id selectedGroup).

(** Up to the [await]: the GET is sent. *)
Definition fetchMessages (currentUser : UserInfo) (selectedGroup : selection)
    (w : World St) : World St :=
  let token := ui_token currentUser in
  w |> set_http (http_send
         (mkRequest GET (messages_url selectedGroup) BNone (bearer token))
         KFetchMessages).

(** After the [await]: [setMessages(data.messages)], or the error is
    logged.  A fulfilled answer of another shape is outside the contract
    of spec.md and is ignored here; the code would store [undefined] and
    throw at [messages.map] in the next render. *)
Definition fetchMessages_resolved (r : response) (w : World St) : World St :=
  match r with
  | RMessages data_messages => w |> setMessages (λ _, data_messages)
  | RError error => w |> console_log error
  | _ => w
  end.

(** ** The socket handlers *)

Definition notification_toast (notification : Notification) : Toast :=
  mkToast
    (if decide (n_type notification = "USER_JOINED") then "New User"
     else "Notification")
    (Some (n_message notification)) "info" true 3000 (Some "top-right").

Definition run_handler (h : handler) (e : in_event) (w : World St) : World St :=
  match h, e with
  | OnMessageReceived, EvMessageReceived newMessage =>
      w |> setMessages (λ prev, prev ++ [newMessage])
  | OnUsersInRoom, EvUsersInRoom users =>
      w |> setConnectedUsers (λ _, users)
  | OnUserJoined, EvUserJoined user =>
      w |> setConnectedUsers (λ prev, prev ++ [user])
  | OnUserLeft, EvUserLeft userId =>
      w |> setConnectedUsers (λ prev, filter (λ user, user_id user ≠ userId) prev)
  | OnNotification, EvNotification notification =>
      w |> toast (notification_toast notification)
  | OnUserTyping, EvUserTyping username =>
      w |> setTypingUsers (λ prev, jsset_add username prev)
  | OnUserStopTyping, EvUserStopTyping username =>
      w |> setTypingUsers (λ prev, jsset_delete username prev)
  | _, _ => w
  end.

(** The event name each handler is installed under. *)
Definition handler_event (h : handler) : string :=
  match h with
  | OnMessageReceived => "message received"
  | OnUsersInRoom => "users in room"
  | OnUserJoined => "user joined"
  | OnUserLeft => "user left"
  | OnNotification => "notification"
  | OnUserTyping => "user typing"
  | OnUserStopTyping => "user stop typing"
  end.

Definition room_handlers : list (string * handler) :=
  (λ h, (handler_event h, h)) <$>
    [OnMessageReceived; OnUsersInRoom; OnUserJoined; OnUserLeft;
     OnNotification; OnUserTyping; OnUserStopTyping].

(** The socket calls the listeners of the event's name in the order they
    were installed; a closed socket delivers nothing. *)
Definition deliver (e : in_event) (w : World St) : World St :=
  if ch_open (sock w)
  then foldl (λ w h, run_handler h e w) w (ch_listeners (sock w) (event_name e))
  else w.

(** ** The effect on [selectedGroup] *)

(** The function the effect returns. *)
Definition cleanup_body (selectedGroup : Group) (w : World St) : World St :=
  w |> emit "leave room" (PRoomId (group_id selectedGroup))
    |> off "message received"
    |> off "users in room"
    |> off "user joined"
    |> off "user left"
    |> off "notification"
    |> off "user typing"
    |> off "user stop typing".

Definition effect (currentUser : UserInfo) (selectedGroup : selection)
    (w : World St) : World St :=
  match selectedGroup with
  | JObj g =>
      w |> fetchMessages currentUser selectedGroup
        |> emit "join room" (PRoomId (group_id g))
        |> on "message received" OnMessageReceived
        |> on "users in room" OnUsersInRoom
        |> on "user joined" OnUserJoined
        |> on "user left" OnUserLeft
        |> on "notification" OnNotification
        |> on "user typing" OnUserTyping
        |> on "user stop typing" OnUserStopTyping
        |> set_cleanup (Some g)
  | _ => w |> set_cleanup None
  end.

(** React runs the cleanup of the previous run of the effect, if it
    returned one, and forgets it. *)
Definition react_cleanup (w : World St) : World St :=
  match cleanup w with
  | Some g => w |> cleanup_body g |> set_cleanup None
  | None => w
  end.

(** A dependency changed: cleanup of the previous run, then the body. *)
Definition rerun_effect (currentUser : UserInfo) (selectedGroup : selection)
    (w : World St) : World St :=
  w |> react_cleanup |> effect currentUser selectedGroup.

(** The first run, after the component mounted. *)
Definition mount (currentUser : UserInfo) (selectedGroup : selection)
    (socket : St) (t : nat) : World St :=
  mount_world socket t |> effect currentUser selectedGroup.

Definition unmount (w : World St) : World St :=
  w |> react_cleanup |> set_mounted false.

(** ** sendMessage *)

Definition send_url : string := ENDPOINT +:+ "/api/messages".

Definition error_toast (t : string) : Toast :=
  mkToast t None "error" true 3000 None.

(** Up to the [await]: nothing happens for a blank draft; otherwise the
    POST is sent, and the closure keeps the [messages] and the
    [selectedGroup] of the render it was created in. *)
Definition sendMessage (currentUser : UserInfo) (selectedGroup : selection)
    (w : World St) : World St :=
  if blank (newMessage (st w)) then w
  else
    let token := ui_token currentUser in
    w |> set_http (http_send
           (mkRequest POST send_url
              (BMessage (newMessage (st w)) (opt_chain group_id selectedGroup))
              (bearer token))
           (KSendMessage (messages (st w)) selectedGroup)).

(** After the [await]. *)
Definition sendMessage_resolved (messages : list Message)
    (selectedGroup : selection) (r : response) (w : World St) : World St :=
  match r with
  | RMessage data =>
      w |> emit "new message" (PNewMessage data (opt_chain group_id selectedGroup))
        |> setMessages (λ _, messages ++ [data])
        |> setNewMessage ""
  | RError _ => w |> toast (error_toast "Error sending message")
  | _ => w
  end.

(** The answer to request [id] arrives. *)
Definition resolve (id : nat) (r : response) (w : World St) : World St :=
  match http_take id (http w) with
  | (Some (_, KFetchMessages), h) =>
      w |> set_http (λ _, h) |> fetchMessages_resolved r
  | (Some (_, KSendMessage msgs sel), h) =>
      w |> set_http (λ _, h) |> sendMessage_resolved msgs sel r
  | (None, _) => w
  end.

(** ** handleTyping and the debounce timer *)

Definition DEBOUNCE : nat := 2000.

(** The closure given to [setTimeout]. *)
Definition run_callback (cb : callback) (w : World St) : World St :=
  match cb with
  | TypingTimeout selectedGroup =>
      if truthy selectedGroup
      then w |> emit "stop typing" (PStopTyping (opt_chain group_id selectedGroup))
             |> setIsTyping false
      else w
  end.

(** [if (typingTimeOutRef.current) clearTimeout(typingTimeOutRef.current)]:
    an id is truthy unless it is 0. *)
Definition clear_typing_timeout (w : World St) : World St :=
  match typingTimeOutRef (st w) with
  | Some id => if decide (id ≠ 0) then w |> set_timers (clearTimeout id) else w
  | None => w
  end.

Definition arm_typing_timeout (selectedGroup : selection) (w : World St) : World St :=
  let '(id, tm) := setTimeout (TypingTimeout selectedGroup) DEBOUNCE (now w) (timers w) in
  w |> set_timers (λ _, tm) |> set_typingTimeOutRef (Some id).

(** The change handler of the input.  Reading [selectedGroup._id] of a
    [selectedGroup] that is not an object throws, after the draft was
    set. *)
Definition handleTyping (currentUser : UserInfo) (selectedGroup : selection)
    (value : string) (w : World St) : result (js_error * World St) (World St) :=
  let w := w |> setNewMessage value in
  let typing :=
    if isTyping (st w) then Ok w
    else match selectedGroup with
         | JObj g => Ok (w |> emit "typing" (PTyping (group_id g) (ui_username currentUser)))
         | JNull =>
             Throw (TypeError "Cannot read properties of null (reading '_id')", w)
         | JUndefined =>
             Throw (TypeError "Cannot read properties of undefined (reading '_id')", w)
         end in
  match typing with
  | Ok w => Ok (w |> clear_typing_timeout |> arm_typing_timeout selectedGroup)
  | Throw e => Throw e
  end.

(** The world after the handler, whether it threw or not. *)
Definition after (r : result (js_error * World St) (World St)) : World St :=
  match r with
  | Ok w => w
  | Throw (_, w) => w
  end.

(** Time passes: the clock moves by [d], the timers that are due leave
    the table and their callbacks run in firing order.  A timer runs when
    the clock reaches its deadline; the browser promises only that it
    does not run before. *)
Definition advance (d : nat) (w : World St) : World St :=
  let t := now w + d in
  let cbs := t_callback <$> due t (timers w) in
  foldl (λ w cb, run_callback cb w)
    (w |> set_now t |> set_timers (expire t)) cbs.

End chat_area.

(** The operations are unfolded on request ([ca_simpl]), never by
    [simpl]. *)
Arguments effect : simpl never.
Arguments cleanup_body : simpl never.
Arguments react_cleanup : simpl never.
Arguments rerun_effect : simpl never.
Arguments mount : simpl never.
Arguments unmount : simpl never.
Arguments deliver : simpl never.
Arguments sendMessage : simpl never.
Arguments sendMessage_resolved : simpl never.
Arguments fetchMessages : simpl never.
Arguments fetchMessages_resolved : simpl never.
Arguments resolve : simpl never.
Arguments handleTyping : simpl never.
Arguments run_callback : simpl never.
Arguments clear_typing_timeout : simpl never.
Arguments arm_typing_timeout : simpl never.
Arguments advance : simpl never.

(** * Facts *)

(** Unfolds the operations of the component down to the updates of the
    world, projects, and rewrites with the laws of the channel.  The
    updates themselves are never unfolded: a pipeline of updates grows
    exponentially when they are. *)
Ltac ca_simpl :=
  unfold effect, cleanup_body, fetchMessages, fetchMessages_resolved,
    sendMessage_resolved, run_callback, clear_typing_timeout,
    arm_typing_timeout, mount, mount_world, unmount, emit, on, off,
    setMessages, setNewMessage, setConnectedUsers, setIsTyping,
    setTypingUsers, set_typingTimeOutRef in *;
  simpl in *; autorewrite with js in *; simpl in *.

Section chat_area_facts.
Context {St : Type} `{!Channel St handler}.
Implicit Types (w : World St) (s : State) (g : Group) (h : handler)
  (e : in_event) (n : string).

Lemma world_eq w1 w2 :
  st w1 = st w2 → mounted w1 = mounted w2 → cleanup w1 = cleanup w2 →
  sock w1 = sock w2 → timers w1 = timers w2 → http w1 = http w2 →
  toasts w1 = toasts w2 → console w1 = console w2 → now w1 = now w2 →
  w1 = w2.
Proof. destruct w1, w2; simpl; congruence. Qed.

(** ** The environment of the state

    [same_env w1 w2]: the two worlds differ at most in the component's
    state cells, the toasts and the console. *)
Definition same_env (w1 w2 : World St) : Prop :=
  mounted w1 = mounted w2 ∧ cleanup w1 = cleanup w2 ∧ sock w1 = sock w2 ∧
  timers w1 = timers w2 ∧ http w1 = http w2 ∧ now w1 = now w2.

#[export] Instance same_env_equivalence : Equivalence same_env.
Proof.
  unfold same_env. split.
  - by intros w.
  - intros w1 w2 (?&?&?&?&?&?). by split_and!.
  - intros w1 w2 w3 (?&?&?&?&?&?) (?&?&?&?&?&?). split_and!; congruence.
Qed.

Lemma same_env_foldl {A} (f : World St → A → World St) (l : list A) w :
  (∀ w a, same_env (f w a) w) → same_env (foldl f w l) w.
Proof.
  intros Hf. revert w. induction l as [|a l IH]; intros w; simpl; [done|].
  by rewrite IH.
Qed.

(** ** The handlers *)

Lemma handler_event_inj : Inj (=) (=) handler_event.
Proof. intros [] []; simpl; congruence. Qed.

Lemma room_handlers_fst : room_handlers.*1 = room_events.
Proof. done. Qed.

(** The handlers [room_handlers] installs under a name: one for each of
    the seven event names, none for any other. *)
Definition handlers_for (n : string) : list handler :=
  (filter (λ nh, nh.1 = n) room_handlers).*2.

Lemma handlers_for_event h : handlers_for (handler_event h) = [h].
Proof. by destruct h. Qed.

Lemma handlers_for_other n : n ∉ room_events → handlers_for n = [].
Proof.
  intros Hn. unfold handlers_for. rewrite filter_none; [done|].
  apply Forall_forall. intros [m h] Hin Heq; simpl in *; subst.
  apply Hn. rewrite <-room_handlers_fst. by apply (list_elem_of_fmap_2 fst) in Hin.
Qed.

Lemma handlers_for_length n : length (handlers_for n) ≤ 1.
Proof.
  destruct (decide (n ∈ room_events)) as [Hn|Hn].
  - unfold room_events in Hn. set_unfold.
    destruct Hn as [->|[->|[->|[->|[->|[->|[->|[]]]]]]]]; simpl; lia.
  - rewrite handlers_for_other by done. simpl; lia.
Qed.

Lemma handlers_for_wf n h : h ∈ handlers_for n → handler_event h = n.
Proof.
  unfold handlers_for. intros ([m h'] & -> & [Heq Hin]%list_elem_of_filter)%list_elem_of_fmap.
  simpl in *. subst. unfold room_handlers in Hin.
  by apply list_elem_of_fmap in Hin as (h & [= -> ->] & _).
Qed.

(** The handler that answers an event. *)
Definition handler_of (e : in_event) : handler :=
  match e with
  | EvMessageReceived _ => OnMessageReceived
  | EvUsersInRoom _ => OnUsersInRoom
  | EvUserJoined _ => OnUserJoined
  | EvUserLeft _ => OnUserLeft
  | EvNotification _ => OnNotification
  | EvUserTyping _ => OnUserTyping
  | EvUserStopTyping _ => OnUserStopTyping
  end.

Lemma handler_of_event e : handler_event (handler_of e) = event_name e.
Proof. by destruct e. Qed.

Lemma handlers_for_event_name e : handlers_for (event_name e) = [handler_of e].
Proof. by destruct e. Qed.

(** A handler touches the state cells and the toasts only. *)
Lemma run_handler_env h e w : same_env (run_handler h e w) w.
Proof. destruct h, e; done. Qed.

Lemma run_handler_console h e w : console (run_handler h e w) = console w.
Proof. by destruct h, e. Qed.

(** A handler given an event of another name does nothing. *)
Lemma run_handler_mismatch h e w :
  handler_event h ≠ event_name e → run_handler h e w = w.
Proof. by destruct h, e. Qed.

(** ** Delivery *)

Lemma deliver_env e w : same_env (deliver e w) w.
Proof.
  unfold deliver. case_match; [|done].
  apply same_env_foldl. intros. apply run_handler_env.
Qed.

Lemma deliver_sock e w : sock (deliver e w) = sock w.
Proof. by destruct (deliver_env e w) as (?&?&?&?). Qed.

Lemma deliver_closed e w : ch_open (sock w) = false → deliver e w = w.
Proof. unfold deliver. by intros ->. Qed.

Lemma deliver_no_listener e w :
  ch_listeners (sock w) (event_name e) = [] → deliver e w = w.
Proof. unfold deliver. intros ->. by case_match. Qed.

(** With exactly the room's handler installed, delivery runs it once. *)
Lemma deliver_one e w :
  ch_open (sock w) = true →
  ch_listeners (sock w) (event_name e) = [handler_of e] →
  deliver e w = run_handler (handler_of e) e w.
Proof. unfold deliver. by intros -> ->. Qed.

End chat_area_facts.
