(* ===== verification/Samples.v ===== *)
(** * Samples: concrete users, rooms, messages and worlds

    The values the witnesses and the scenarios of spec.md section 8 are
    evaluated on.  The socket is the model of the socket.io client. *)

From S2P Require Import Prelude JsData Data Channel Timers Http ChatArea.

Definition alice : UserInfo := mkUserInfo "u-alice" "alice" "token-alice".

Definition alice_user : User := mkUser "u-alice" "alice".
Definition bob : User := mkUser "u-bob" "bob".
Definition carol : User := mkUser "u-carol" "carol".

(** Two rooms, and a second object for room A as a later fetch of the
    group list returns it. *)
Definition roomA : Group := mkGroup 1 "A" "Room A" "the first room" [alice_user; bob].
Definition roomB : Group := mkGroup 2 "B" "Room B" "the second room" [alice_user].
Definition roomA_again : Group := mkGroup 7 "A" "Room A" "the first room" [alice_user; bob].
Definition roomC : Group := mkGroup 3 "C" "Room C" "not joined" [bob].

(** Messages whose timestamps run against their arrival order. *)
Definition m1 : Message := mkMessage "1" (Some bob) "one" 40.
Definition m2 : Message := mkMessage "2" (Some carol) "two" 30.
Definition m3 : Message := mkMessage "3" (Some bob) "three" 20.
Definition m4 : Message := mkMessage "4" (Some carol) "four" 10.
Definition m5 : Message := mkMessage "5" (Some alice_user) "hi" 50.

(** The chat area just mounted with no room selected, then in room A. *)
Definition w_idle : World (Socket handler) := mount alice JNull (io alice) 0.

Definition w_roomA : World (Socket handler) := rerun_effect alice (JObj roomA) w_idle.

(** In room A with the snapshot [[m1; m2]] loaded. *)
Definition w_loaded : World (Socket handler) := resolve 0 (RMessages [m1; m2]) w_roomA.

(** In room A with an empty snapshot and the draft "hi". *)
Definition w_draft : World (Socket handler) :=
  setNewMessage "hi" (resolve 0 (RMessages []) w_roomA).

Lemma w_roomA_open : sk_open (sock w_roomA) = true.
Proof. by_compute. Qed.

Lemma w_roomA_outbox : sk_outbox (sock w_roomA) = [("join room", PRoomId "A")].
Proof. by_compute. Qed.

Lemma w_loaded_messages : messages (st w_loaded) = [m1; m2].
Proof. by_compute. Qed.
