(* ===== verification/Session.v ===== *)
(** * Session: the room session held by the effect

    The effect of [ChatArea.jsx] on [selectedGroup] is the room membership
    controller of spec.md section 4.2.  This file states what one run of
    the effect and of its cleanup does to the channel, and the contract
    they keep together:

    - [installed w]: every event name has exactly the listeners
      [room_handlers] gives it (one for each of the seven names);
      [silent w]: no name has a listener.  [session_ok w] says the first
      holds while React holds a cleanup function and the second otherwise.
    - [room_trace] replays the join and leave packets of a channel against
      the abstract protocol "at most one room at a time": a join is legal
      only outside a room, a leave only for the room that was joined.

    Everything is proved from the laws of [Channel]. *)

From S2P Require Import Prelude JsData Data Channel Timers Http ChatArea Samples.

(** ** The abstract protocol *)

(** The room the backend believes this client is in. *)
Abbreviation room_state := (option string) (only parsing).

Definition room_step (s : room_state) (p : packet) : option room_state :=
  if is_join p then
    match s, p.2 with
    | None, PRoomId g => Some (Some g)
    | _, _ => None
    end
  else if is_leave p then
    match s, p.2 with
    | Some g', PRoomId g => if decide (g = g') then Some None else None
    | _, _ => None
    end
  else Some s.

(** The state after the packets [ps], or [None] if one of them was
    illegal. *)
Definition room_trace (ps : list packet) (s : room_state) : option room_state :=
  foldl (λ acc p, acc ≫= λ s, room_step s p) (Some s) ps.

(** How many packets of a given name a channel sent. *)
Definition count_event (n : string) (ps : list packet) : nat :=
  length (filter (λ p, p.1 = n) ps).

Section session.
Context {St : Type} `{!Channel St handler}.
Implicit Types (w : World St) (g : Group) (n : string) (u : UserInfo).

Definition installed (w : World St) : Prop :=
  ∀ n, ch_listeners (sock w) n = handlers_for n.

Definition silent (w : World St) : Prop :=
  ∀ n, ch_listeners (sock w) n = [].

Definition session_ok (w : World St) : Prop :=
  match cleanup w with
  | Some _ => installed w
  | None => silent w
  end.

(** ** The protocol *)

Lemma room_trace_app ps1 ps2 s :
  room_trace (ps1 ++ ps2) s = room_trace ps1 s ≫= room_trace ps2.
Proof.
  unfold room_trace. rewrite foldl_app.
  destruct (foldl _ (Some s) ps1) as [s'|]; simpl; [done|].
  induction ps2 as [|p ps2 IH]; simpl; [done | apply IH].
Qed.

Lemma room_trace_snoc ps p s :
  room_trace (ps ++ [p]) s = room_trace ps s ≫= λ s', room_step s' p.
Proof. unfold room_trace. by rewrite foldl_snoc. Qed.

Lemma room_step_join (r : string) :
  room_step None ("join room", PRoomId r) = Some (Some r).
Proof. done. Qed.

Lemma room_step_leave (r : string) :
  room_step (Some r) ("leave room", PRoomId r) = Some None.
Proof. unfold room_step; simpl. by rewrite decide_True. Qed.

Lemma room_step_other s p : is_room p = false → room_step s p = Some s.
Proof.
  unfold is_room, room_step. intros [-> ->]%orb_false_iff. done.
Qed.

(** A second join without a leave is refused, and so is a leave of a room
    that was not joined. *)
Lemma room_step_join_twice (r r' : string) :
  room_step (Some r) ("join room", PRoomId r') = None.
Proof. done. Qed.

Lemma room_step_leave_none (r : string) :
  room_step None ("leave room", PRoomId r) = None.
Proof. done. Qed.

Lemma count_event_app n ps1 ps2 :
  count_event n (ps1 ++ ps2) = count_event n ps1 + count_event n ps2.
Proof. unfold count_event. by rewrite filter_app, length_app. Qed.

(** ** One run of the effect *)

Lemma effect_falsy u v w :
  truthy v = false → effect u v w = set_cleanup None w.
Proof. by destruct v. Qed.

Lemma effect_cleanup u v w :
  cleanup (effect u v w) = opt_chain id v.
Proof. by destruct v. Qed.

Lemma effect_open u v w : ch_open (sock (effect u v w)) = ch_open (sock w).
Proof. destruct v; ca_simpl; done. Qed.

Lemma effect_sent u g w :
  ch_sent (sock (effect u (JObj g) w)) =
    if ch_open (sock w)
    then ch_sent (sock w) ++ [("join room", PRoomId (group_id g))]
    else ch_sent (sock w).
Proof. by ca_simpl. Qed.

(** The seven [socket.on] of the effect are [ch_on_all room_handlers], and
    the seven [socket.off] of the cleanup [ch_off_all room_events]. *)
Lemma effect_sock u g w :
  sock (effect u (JObj g) w) =
    ch_on_all room_handlers (ch_emit "join room" (PRoomId (group_id g)) (sock w)).
Proof. done. Qed.

Lemma cleanup_body_sock g w :
  sock (cleanup_body g w) =
    ch_off_all room_events (ch_emit "leave room" (PRoomId (group_id g)) (sock w)).
Proof. done. Qed.

Lemma effect_listeners u g w n :
  ch_listeners (sock (effect u (JObj g) w)) n =
    ch_listeners (sock w) n ++ handlers_for n.
Proof.
  rewrite effect_sock, ch_listeners_on_all. by rewrite ch_listeners_emit.
Qed.

(** The effect touches neither the state cells nor the timers. *)
Lemma effect_st u v w : st (effect u v w) = st w.
Proof. by destruct v. Qed.

Lemma effect_timers u v w : timers (effect u v w) = timers w.
Proof. by destruct v. Qed.

Lemma effect_now u v w : now (effect u v w) = now w.
Proof. by destruct v. Qed.

Lemma effect_mounted u v w : mounted (effect u v w) = mounted w.
Proof. by destruct v. Qed.

Lemma effect_toasts u v w : toasts (effect u v w) = toasts w.
Proof. by destruct v. Qed.

(** It sends the snapshot request for the group it was given. *)
Lemma effect_http u v w :
  http (effect u v w) =
    if truthy v
    then http_send (mkRequest GET (messages_url v) BNone (bearer (ui_token u)))
           KFetchMessages (http w)
    else http w.
Proof. by destruct v. Qed.

Lemma effect_installed u g w : silent w → installed (effect u (JObj g) w).
Proof. intros Hs n. by rewrite effect_listeners, Hs. Qed.

(** ** The cleanup *)

Lemma cleanup_body_sent g w :
  ch_sent (sock (cleanup_body g w)) =
    if ch_open (sock w)
    then ch_sent (sock w) ++ [("leave room", PRoomId (group_id g))]
    else ch_sent (sock w).
Proof. by ca_simpl. Qed.

Lemma cleanup_body_open g w :
  ch_open (sock (cleanup_body g w)) = ch_open (sock w).
Proof. by ca_simpl. Qed.

Lemma cleanup_body_listeners g w n :
  ch_listeners (sock (cleanup_body g w)) n =
    if decide (n ∈ room_events) then [] else ch_listeners (sock w) n.
Proof.
  rewrite cleanup_body_sock, ch_listeners_off_all. by rewrite ch_listeners_emit.
Qed.

Lemma cleanup_body_silent g w : installed w → silent (cleanup_body g w).
Proof.
  intros Hi n. rewrite cleanup_body_listeners. case_decide; [done|].
  by rewrite Hi, handlers_for_other.
Qed.

Lemma cleanup_body_env g w :
  st (cleanup_body g w) = st w ∧ timers (cleanup_body g w) = timers w ∧
  http (cleanup_body g w) = http w ∧ now (cleanup_body g w) = now w ∧
  mounted (cleanup_body g w) = mounted w ∧ toasts (cleanup_body g w) = toasts w ∧
  cleanup (cleanup_body g w) = cleanup w.
Proof. done. Qed.

Lemma react_cleanup_cleanup w : cleanup (react_cleanup w) = None.
Proof. unfold react_cleanup. by destruct (cleanup w) eqn:?. Qed.

Lemma react_cleanup_none w : cleanup w = None → react_cleanup w = w.
Proof. unfold react_cleanup. by intros ->. Qed.

(** React runs a cleanup function once: a second request finds none. *)
Lemma react_cleanup_idemp w : react_cleanup (react_cleanup w) = react_cleanup w.
Proof. apply react_cleanup_none, react_cleanup_cleanup. Qed.

Lemma react_cleanup_open w : ch_open (sock (react_cleanup w)) = ch_open (sock w).
Proof. unfold react_cleanup. destruct (cleanup w); [|done]. by ca_simpl. Qed.

Lemma react_cleanup_sent w :
  ch_sent (sock (react_cleanup w)) =
    match cleanup w with
    | Some g =>
        if ch_open (sock w)
        then ch_sent (sock w) ++ [("leave room", PRoomId (group_id g))]
        else ch_sent (sock w)
    | None => ch_sent (sock w)
    end.
Proof. unfold react_cleanup. destruct (cleanup w); [|done]. by ca_simpl. Qed.

Lemma react_cleanup_silent w : session_ok w → silent (react_cleanup w).
Proof.
  unfold session_ok, react_cleanup. destruct (cleanup w); [|done].
  intros Hi n. by apply (cleanup_body_silent _ _ Hi).
Qed.

Lemma react_cleanup_env w :
  st (react_cleanup w) = st w ∧ timers (react_cleanup w) = timers w ∧
  http (react_cleanup w) = http w ∧ now (react_cleanup w) = now w ∧
  mounted (react_cleanup w) = mounted w ∧ toasts (react_cleanup w) = toasts w ∧
  console (react_cleanup w) = console w.
Proof. unfold react_cleanup. by destruct (cleanup w). Qed.

(** ** A change of the selected group *)

Lemma rerun_effect_cleanup u v w :
  cleanup (rerun_effect u v w) = opt_chain id v.
Proof. apply effect_cleanup. Qed.

Lemma rerun_effect_open u v w :
  ch_open (sock (rerun_effect u v w)) = ch_open (sock w).
Proof. unfold rerun_effect. by rewrite effect_open, react_cleanup_open. Qed.

Lemma rerun_effect_session_ok u v w :
  session_ok w → session_ok (rerun_effect u v w).
Proof.
  intros Hok%react_cleanup_silent. unfold rerun_effect.
  destruct v as [| |g]; unfold session_ok; simpl; [done..|].
  by apply effect_installed.
Qed.

(** The packets of a change, whatever the old and the new selection are:
    the leave of the old room, if there was one, then the join of the new
    one, if there is one. *)
Definition leave_packets (c : option Group) : list packet :=
  match c with
  | Some g => [("leave room", PRoomId (group_id g))]
  | None => []
  end.

Definition join_packets (v : selection) : list packet :=
  match v with
  | JObj g => [("join room", PRoomId (group_id g))]
  | _ => []
  end.

Lemma rerun_effect_sent u v w :
  ch_open (sock w) = true →
  ch_sent (sock (rerun_effect u v w)) =
    ch_sent (sock w) ++ leave_packets (cleanup w) ++ join_packets v.
Proof.
  intros Ho. unfold rerun_effect.
  assert (ch_sent (sock (react_cleanup w)) = ch_sent (sock w) ++ leave_packets (cleanup w)) as Hc.
  { rewrite react_cleanup_sent, Ho. destruct (cleanup w); simpl; by rewrite ?app_nil_r. }
  destruct v as [| |g]; [by rewrite app_nil_r..|].
  by rewrite effect_sent, react_cleanup_open, Ho, Hc, <-app_assoc.
Qed.

(** A change of selection touches the channel, the requests and the
    cleanup function, and nothing else. *)
Lemma rerun_effect_frame u v w :
  st (rerun_effect u v w) = st w ∧ timers (rerun_effect u v w) = timers w ∧
  now (rerun_effect u v w) = now w ∧ mounted (rerun_effect u v w) = mounted w ∧
  toasts (rerun_effect u v w) = toasts w ∧ console (rerun_effect u v w) = console w.
Proof. unfold rerun_effect, react_cleanup. by destruct (cleanup w), v. Qed.

Lemma rerun_effect_st u v w : st (rerun_effect u v w) = st w.
Proof.
  unfold rerun_effect. rewrite effect_st. by destruct (react_cleanup_env w) as (->&_).
Qed.

Lemma rerun_effect_timers u v w : timers (rerun_effect u v w) = timers w.
Proof.
  unfold rerun_effect. rewrite effect_timers.
  by destruct (react_cleanup_env w) as (_&->&_).
Qed.

(** ** Unmounting *)

Lemma unmount_cleanup w : cleanup (unmount w) = None.
Proof. unfold unmount. simpl. apply react_cleanup_cleanup. Qed.

Lemma unmount_silent w : session_ok w → silent (unmount w).
Proof. intros Hok n. unfold unmount; simpl. by apply react_cleanup_silent. Qed.

Lemma unmount_sent w :
  ch_open (sock w) = true →
  ch_sent (sock (unmount w)) = ch_sent (sock w) ++ leave_packets (cleanup w).
Proof.
  intros Ho. unfold unmount; simpl. rewrite react_cleanup_sent, Ho.
  destruct (cleanup w); simpl; by rewrite ?app_nil_r.
Qed.

(** On a closed channel the cleanup removes the handlers and sends
    nothing. *)
Lemma unmount_sent_closed w :
  ch_open (sock w) = false → ch_sent (sock (unmount w)) = ch_sent (sock w).
Proof.
  intros Ho. unfold unmount; simpl. rewrite react_cleanup_sent, Ho.
  by destruct (cleanup w).
Qed.

(** ** The protocol is kept *)

Lemma room_trace_leave ps c :
  room_trace ps None = Some (group_id <$> c) →
  room_trace (ps ++ leave_packets c) None = Some None.
Proof.
  intros Hps. destruct c as [g|]; simpl in *.
  - rewrite room_trace_snoc, Hps. simpl. apply room_step_leave.
  - by rewrite app_nil_r.
Qed.

Lemma room_trace_join ps v :
  room_trace ps None = Some None →
  room_trace (ps ++ join_packets v) None = Some (group_id <$> opt_chain id v).
Proof.
  intros Hps. destruct v as [| |g]; simpl; rewrite ?app_nil_r; try done.
  by rewrite room_trace_snoc, Hps.
Qed.

Lemma rerun_effect_room u v w :
  ch_open (sock w) = true →
  room_trace (ch_sent (sock w)) None = Some (group_id <$> cleanup w) →
  room_trace (ch_sent (sock (rerun_effect u v w))) None =
    Some (group_id <$> cleanup (rerun_effect u v w)).
Proof.
  intros Ho Hps. rewrite rerun_effect_sent, rerun_effect_cleanup by done.
  rewrite app_assoc. by apply room_trace_join, room_trace_leave.
Qed.

Lemma unmount_room w :
  ch_open (sock w) = true →
  room_trace (ch_sent (sock w)) None = Some (group_id <$> cleanup w) →
  room_trace (ch_sent (sock (unmount w))) None = Some None.
Proof. intros Ho Hps. rewrite unmount_sent by done. by apply room_trace_leave. Qed.

(** ** Delivery during and outside a session *)

(** During a session an event runs the handler of its name, once. *)
Lemma deliver_installed e w :
  installed w → ch_open (sock w) = true →
  deliver e w = run_handler (handler_of e) e w.
Proof.
  intros Hi Ho. apply deliver_one; [done|].
  by rewrite Hi, handlers_for_event_name.
Qed.

(** Outside a session nothing listens. *)
Lemma deliver_silent e w : silent w → deliver e w = w.
Proof. intros Hs. by apply deliver_no_listener. Qed.

Lemma deliver_session_ok e w : session_ok w → session_ok (deliver e w).
Proof.
  unfold session_ok, installed, silent.
  destruct (deliver_env e w) as (_ & -> & -> & _). done.
Qed.

(** Events delivered one after the other. *)
Definition deliver_all (es : list in_event) (w : World St) : World St :=
  foldl (λ w e, deliver e w) w es.

Lemma deliver_all_env es w : same_env (deliver_all es w) w.
Proof. apply same_env_foldl. intros. apply deliver_env. Qed.

Lemma deliver_all_app es1 es2 w :
  deliver_all (es1 ++ es2) w = deliver_all es2 (deliver_all es1 w).
Proof. apply foldl_app. Qed.

Lemma deliver_all_installed es w :
  installed w → ch_open (sock w) = true →
  deliver_all es w = foldl (λ w e, run_handler (handler_of e) e w) w es.
Proof.
  revert w. induction es as [|e es IH]; intros w Hi Ho; simpl; [done|].
  rewrite (deliver_installed e w) by done. apply IH.
  - intros n. destruct (run_handler_env (handler_of e) e w) as (_&_&->&_). apply Hi.
  - by destruct (run_handler_env (handler_of e) e w) as (_&_&->&_).
Qed.

(** ** Mounting *)

Lemma mount_session_ok u v socket t :
  ch_silent socket → session_ok (mount u v socket t).
Proof.
  intros Hs. unfold mount, session_ok. rewrite effect_cleanup.
  destruct v as [| |g]; simpl; [done..|].
  apply effect_installed. intros n. apply Hs.
Qed.

Lemma mount_open u v socket t :
  ch_open (sock (mount u v socket t)) = ch_open socket.
Proof. unfold mount. by rewrite effect_open. Qed.

(** A world with the same listeners is in the same session state. *)
Lemma installed_listeners w w' :
  (∀ n, ch_listeners (sock w') n = ch_listeners (sock w) n) →
  installed w → installed w'.
Proof. intros Hl Hi n. by rewrite Hl. Qed.

Lemma session_ok_listeners w w' :
  cleanup w' = cleanup w →
  (∀ n, ch_listeners (sock w') n = ch_listeners (sock w) n) →
  session_ok w → session_ok w'.
Proof.
  unfold session_ok, installed, silent. intros -> Hl.
  destruct (cleanup w); intros Hw n; by rewrite Hl.
Qed.

End session.

#[export] Hint Resolve rerun_effect_session_ok effect_installed
  cleanup_body_silent react_cleanup_silent unmount_silent
  mount_session_ok deliver_session_ok : js.

(** ** The sample worlds *)

Lemma w_idle_session_ok : session_ok w_idle.
Proof. apply mount_session_ok, io_silent. Qed.

Lemma w_roomA_installed : installed w_roomA.
Proof. apply (rerun_effect_session_ok alice (JObj roomA) w_idle), w_idle_session_ok. Qed.
