(* ===== verification/MessageLog.v ===== *)
(** * MessageLog: history, live tail and sends

    The message log of [ChatArea.jsx]: the [messages] cell, seeded by
    [fetchMessages], extended by the [message received] handler and by
    [sendMessage].

    - Events extend the log at its end, in arrival order, and nothing else
      a socket handler does touches it.
    - [sendMessage] sends nothing for a blank draft; a failed send leaves
      draft, log and channel as they were; a successful one emits one
      [new message] packet and clears the draft.
    - The continuation of [sendMessage] writes the log it captured when the
      form was submitted, extended by the new message: what arrived in
      between is overwritten ([send_overwrites_arrivals]).
    - The answer of [fetchMessages] is applied whatever the selection is
      by then ([stale_snapshot_applied]), and a failed fetch leaves the log
      as it was ([fetch_failure_keeps_log]). *)

From S2P Require Import Prelude JsData Data Channel Timers Http ChatArea.
From S2P Require Import Samples Session.

Section message_log.
Context {St : Type} `{!Channel St handler}.
Implicit Types (w : World St) (g : Group) (n : string) (u : UserInfo)
  (m : Message) (ms : list Message) (v : selection).

(** The messages a list of events carries, in order. *)
Definition arrivals (es : list in_event) : list Message :=
  omap (λ e, match e with EvMessageReceived m => Some m | _ => None end) es.

(** ** Events *)

Lemma run_handler_messages h e w :
  messages (st (run_handler h e w)) =
    match h, e with
    | OnMessageReceived, EvMessageReceived m => messages (st w) ++ [m]
    | _, _ => messages (st w)
    end.
Proof. by destruct h, e. Qed.

Lemma handlers_messages es w :
  messages (st (foldl (λ w e, run_handler (handler_of e) e w) w es)) =
    messages (st w) ++ arrivals es.
Proof.
  revert w. induction es as [|e es IH]; intros w; simpl.
  - by rewrite app_nil_r.
  - rewrite IH, run_handler_messages. unfold arrivals.
    destruct e; simpl; by rewrite <-?app_assoc.
Qed.

(** During a session the log after a run of events is the log before,
    followed by the messages that arrived, in arrival order. *)
Lemma deliver_all_messages es w :
  installed w → ch_open (sock w) = true →
  messages (st (deliver_all es w)) = messages (st w) ++ arrivals es.
Proof.
  intros Hi Ho. rewrite deliver_all_installed by done. apply handlers_messages.
Qed.

Lemma deliver_message m w :
  installed w → ch_open (sock w) = true →
  messages (st (deliver (EvMessageReceived m) w)) = messages (st w) ++ [m].
Proof. intros Hi Ho. by rewrite deliver_installed. Qed.

(** The log only grows while events are delivered. *)
Lemma deliver_all_prefix es w :
  installed w → ch_open (sock w) = true →
  messages (st w) `prefix_of` messages (st (deliver_all es w)).
Proof. intros. rewrite deliver_all_messages by done. by apply prefix_app_r. Qed.

(** Outside a session events do not reach the log. *)
Lemma deliver_all_silent es w : silent w → deliver_all es w = w.
Proof.
  intros Hs. induction es as [|e es IH] using rev_ind; [done|].
  rewrite deliver_all_app, IH. simpl. by apply deliver_silent.
Qed.

(** ** The snapshot *)

Lemma fetchMessages_resolved_messages r w :
  messages (st (fetchMessages_resolved r w)) =
    match r with
    | RMessages ms => ms
    | _ => messages (st w)
    end.
Proof. by destruct r. Qed.

Lemma fetchMessages_resolved_console r w :
  console (fetchMessages_resolved r w) =
    match r with
    | RError e => console w ++ [e]
    | _ => console w
    end.
Proof. by destruct r. Qed.

Lemma fetchMessages_resolved_env r w : same_env (fetchMessages_resolved r w) w.
Proof. by destruct r. Qed.

(** ** sendMessage *)

Lemma sendMessage_blank u v w :
  blank (newMessage (st w)) = true → sendMessage u v w = w.
Proof. unfold sendMessage. by intros ->. Qed.

Lemma sendMessage_http u v w :
  blank (newMessage (st w)) = false →
  http (sendMessage u v w) =
    http_send
      (mkRequest POST send_url
         (BMessage (newMessage (st w)) (opt_chain group_id v))
         (bearer (ui_token u)))
      (KSendMessage (messages (st w)) v) (http w).
Proof. unfold sendMessage. by intros ->. Qed.

(** Submitting changes nothing but the requests in flight: the draft stays
    in the input and nothing is emitted until the answer arrives. *)
Lemma sendMessage_frame u v w :
  st (sendMessage u v w) = st w ∧ sock (sendMessage u v w) = sock w ∧
  toasts (sendMessage u v w) = toasts w ∧ timers (sendMessage u v w) = timers w ∧
  cleanup (sendMessage u v w) = cleanup w ∧ now (sendMessage u v w) = now w ∧
  mounted (sendMessage u v w) = mounted w.
Proof. unfold sendMessage. by case_match. Qed.

(** The answer is a failure. *)
Lemma sendMessage_failed ms v error w :
  let w' := sendMessage_resolved ms v (RError error) w in
  st w' = st w ∧ sock w' = sock w ∧
  toasts w' = toasts w ++ [error_toast "Error sending message"].
Proof. done. Qed.

(** The answer is the created message. *)
Lemma sendMessage_succeeded ms v data w :
  let w' := sendMessage_resolved ms v (RMessage data) w in
  messages (st w') = ms ++ [data] ∧ newMessage (st w') = "" ∧
  ch_sent (sock w') =
    (if ch_open (sock w)
     then ch_sent (sock w) ++ [("new message", PNewMessage data (opt_chain group_id v))]
     else ch_sent (sock w)) ∧
  toasts w' = toasts w.
Proof. simpl. split_and!; try done. by ca_simpl. Qed.

Lemma sendMessage_resolved_frame ms v r w :
  let w' := sendMessage_resolved ms v r w in
  cleanup w' = cleanup w ∧ timers w' = timers w ∧ http w' = http w ∧
  now w' = now w ∧ mounted w' = mounted w ∧ console w' = console w ∧
  connectedUsers (st w') = connectedUsers (st w) ∧
  typingUsers (st w') = typingUsers (st w) ∧
  isTyping (st w') = isTyping (st w) ∧
  typingTimeOutRef (st w') = typingTimeOutRef (st w) ∧
  ch_open (sock w') = ch_open (sock w) ∧
  ∀ n, ch_listeners (sock w') n = ch_listeners (sock w) n.
Proof. destruct r; simpl; split_and!; try done; intros; by ca_simpl. Qed.

(** ** Answers *)

Lemma resolve_unknown id r w : h_pending (http w) !! id = None → resolve id r w = w.
Proof. unfold resolve, http_take. by intros ->. Qed.

Lemma resolve_fetch id rq r w :
  h_pending (http w) !! id = Some (rq, KFetchMessages) →
  resolve id r w =
    fetchMessages_resolved r (set_http (λ _, (http_take id (http w)).2) w).
Proof. unfold resolve, http_take. by intros ->. Qed.

Lemma resolve_send id rq ms v r w :
  h_pending (http w) !! id = Some (rq, KSendMessage ms v) →
  resolve id r w =
    sendMessage_resolved ms v r (set_http (λ _, (http_take id (http w)).2) w).
Proof. unfold resolve, http_take. by intros ->. Qed.

(** An answer leaves the session as it is. *)
Lemma resolve_session id r w :
  cleanup (resolve id r w) = cleanup w ∧
  ch_open (sock (resolve id r w)) = ch_open (sock w) ∧
  (∀ n, ch_listeners (sock (resolve id r w)) n = ch_listeners (sock w) n) ∧
  timers (resolve id r w) = timers w ∧ now (resolve id r w) = now w ∧
  mounted (resolve id r w) = mounted w.
Proof.
  unfold resolve. destruct (http_take id (http w)) as [[[rq [|ms v]]|] h].
  - destruct (fetchMessages_resolved_env r (set_http (λ _, h) w)) as (->&->&->&->&_&->).
    done.
  - pose proof (sendMessage_resolved_frame ms v r (set_http (λ _, h) w)) as Hf.
    simpl in Hf. destruct Hf as (->&->&_&->&->&_&_&_&_&_&->&Hl).
    split_and!; try done.
  - done.
Qed.

(** A request is answered at most once. *)
Lemma resolve_removes id r w : h_pending (http (resolve id r w)) !! id = None.
Proof.
  unfold resolve. destruct (http_take id (http w)) as [[[rq [|ms v]]|] h] eqn:Ht.
  - destruct (fetchMessages_resolved_env r (set_http (λ _, h) w)) as (_&_&_&_&->&_).
    simpl. injection Ht as _ <-. apply lookup_delete_eq.
  - pose proof (sendMessage_resolved_frame ms v r (set_http (λ _, h) w)) as Hf.
    simpl in Hf. destruct Hf as (_&_&->&_). simpl.
    injection Ht as _ <-. apply lookup_delete_eq.
  - by injection Ht as -> _.
Qed.

(** ** Requests across other steps *)

Lemma rerun_effect_http u v w :
  http (rerun_effect u v w) =
    if truthy v
    then http_send (mkRequest GET (messages_url v) BNone (bearer (ui_token u)))
           KFetchMessages (http w)
    else http w.
Proof.
  unfold rerun_effect. rewrite effect_http.
  by destruct (react_cleanup_env w) as (_&_&->&_).
Qed.

(** The snapshot request of a selection is pending under the id the
    table announced. *)
Lemma rerun_effect_pending u g w :
  h_pending (http (rerun_effect u (JObj g) w)) !! h_next (http w) =
    Some (mkRequest GET (messages_url (JObj g)) BNone (bearer (ui_token u)),
          KFetchMessages).
Proof. rewrite rerun_effect_http. apply http_send_lookup. Qed.

Lemma rerun_effect_keeps_pending u v w id x :
  http_wf (http w) →
  h_pending (http w) !! id = Some x →
  h_pending (http (rerun_effect u v w)) !! id = Some x.
Proof.
  intros Hwf Hid. rewrite rerun_effect_http. destruct (truthy v); [|done].
  rewrite http_send_lookup_ne; [done|].
  assert (id < h_next (http w)) by (apply Hwf; eauto). lia.
Qed.

Lemma rerun_effect_http_wf u v w :
  http_wf (http w) → http_wf (http (rerun_effect u v w)).
Proof. intros. rewrite rerun_effect_http. destruct (truthy v); eauto with js. Qed.

Lemma sendMessage_pending u v w :
  blank (newMessage (st w)) = false →
  h_pending (http (sendMessage u v w)) !! h_next (http w) =
    Some (mkRequest POST send_url
            (BMessage (newMessage (st w)) (opt_chain group_id v))
            (bearer (ui_token u)),
          KSendMessage (messages (st w)) v).
Proof. intros Hb. rewrite sendMessage_http by done. apply http_send_lookup. Qed.

Lemma sendMessage_http_wf u v w :
  http_wf (http w) → http_wf (http (sendMessage u v w)).
Proof. unfold sendMessage. case_match; simpl; eauto with js. Qed.

Lemma resolve_http_wf id r w : http_wf (http w) → http_wf (http (resolve id r w)).
Proof.
  intros Hwf. unfold resolve.
  destruct (http_take id (http w)) as [[[rq [|ms v]]|] h] eqn:Ht; [| |done].
  - destruct (fetchMessages_resolved_env r (set_http (λ _, h) w)) as (_&_&_&_&->&_).
    simpl. injection Ht as _ <-. by apply http_take_wf.
  - pose proof (sendMessage_resolved_frame ms v r (set_http (λ _, h) w)) as Hf.
    simpl in Hf. destruct Hf as (_&_&->&_). simpl.
    injection Ht as _ <-. by apply http_take_wf.
Qed.

End message_log.

#[export] Hint Resolve rerun_effect_http_wf sendMessage_http_wf resolve_http_wf : js.

(** ** The sample worlds *)

Lemma w_loaded_installed : installed w_loaded.
Proof.
  eapply installed_listeners; [|apply w_roomA_installed].
  intros n. by destruct (resolve_session 0 (RMessages [m1; m2]) w_roomA) as (_&_&->&_).
Qed.

(** * Properties *)

Section message_log_properties.
Context {St : Type} `{!Channel St handler}.
Implicit Types (w : World St) (u : UserInfo) (v : selection) (g : Group).

(** C4 (log order is arrival order): during a room session on an open
    channel, the log after any run of events is the log before followed by
    the messages of the [message received] events among them, in the order
    they arrived; no event reorders or removes an entry, whatever the
    [createdAt] of the messages. *)
Theorem log_is_arrival_order es w :
  installed w → ch_open (sock w) = true →
  messages (st (deliver_all es w)) = messages (st w) ++ arrivals es.
Proof. apply deliver_all_messages. Qed.

(** C5 (a failed send changes nothing): when the POST of [sendMessage] is
    rejected, the state cells (draft and log among them) and the socket
    (packets sent and listeners) are what they were before the form was
    submitted, and one error toast is raised. *)
Theorem failed_send_changes_nothing u v w error :
  blank (newMessage (st w)) = false →
  let w' := resolve (h_next (http w)) (RError error) (sendMessage u v w) in
  st w' = st w ∧ sock w' = sock w ∧
  toasts w' = toasts w ++ [error_toast "Error sending message"].
Proof.
  intros Hb. cbv zeta.
  erewrite resolve_send by by apply sendMessage_pending.
  unfold sendMessage. by rewrite Hb.
Qed.

(** C6 (a successful send emits once): when the POST of [sendMessage]
    succeeds with [data], exactly one [new message] packet carrying [data]
    and the id of the selected group is sent, [data] is at the end of the
    log and the draft is empty. *)
Theorem successful_send_emits_once u v w data :
  blank (newMessage (st w)) = false → ch_open (sock w) = true →
  let w' := resolve (h_next (http w)) (RMessage data) (sendMessage u v w) in
  messages (st w') = messages (st w) ++ [data] ∧
  newMessage (st w') = "" ∧
  ch_sent (sock w') =
    ch_sent (sock w) ++ [("new message", PNewMessage data (opt_chain group_id v))].
Proof.
  intros Hb Ho. cbv zeta.
  erewrite resolve_send by by apply sendMessage_pending.
  unfold sendMessage. rewrite Hb. ca_simpl. by rewrite Ho.
Qed.

(** C14 (a send overwrites what arrived meanwhile): the continuation of
    [sendMessage] writes the log its closure captured at submission plus
    the new message.  Messages that arrived between the submission and the
    answer were in the log ([log_is_arrival_order]) and are not in it
    afterwards. *)
Theorem send_overwrites_arrivals u v w es data :
  blank (newMessage (st w)) = false →
  let submitted := sendMessage u v w in
  let answered := resolve (h_next (http w)) (RMessage data) (deliver_all es submitted) in
  messages (st answered) = messages (st w) ++ [data].
Proof.
  intros Hb. cbv zeta.
  destruct (deliver_all_env es (sendMessage u v w)) as (_&_&_&_&Hh&_).
  erewrite resolve_send by (rewrite Hh; by apply sendMessage_pending).
  done.
Qed.

(** C15 (a stale snapshot is applied): the answer to the snapshot request
    of a room replaces the log even when another room was selected in the
    meantime: nothing compares the request's room with the selection. *)
Theorem stale_snapshot_applied u g g' w ms :
  http_wf (http w) →
  let first := rerun_effect u (JObj g) w in
  let second := rerun_effect u (JObj g') first in
  let answered := resolve (h_next (http w)) (RMessages ms) second in
  cleanup answered = Some g' ∧ messages (st answered) = ms.
Proof.
  intros Hwf. cbv zeta.
  erewrite resolve_fetch; last first.
  { apply rerun_effect_keeps_pending; [by apply rerun_effect_http_wf|].
    apply rerun_effect_pending. }
  done.
Qed.

(** C35 (a failed snapshot keeps the old log): when the snapshot request of
    a newly selected room fails, the error is logged to the console and
    the log still holds the messages it held before the selection. *)
Theorem fetch_failure_keeps_log u g w error :
  let selected := rerun_effect u (JObj g) w in
  let answered := resolve (h_next (http w)) (RError error) selected in
  messages (st answered) = messages (st w) ∧
  console answered = console w ++ [error] ∧ toasts answered = toasts w.
Proof.
  cbv zeta. erewrite resolve_fetch by apply rerun_effect_pending.
  rewrite fetchMessages_resolved_messages, fetchMessages_resolved_console.
  destruct (react_cleanup_env w) as (Hst & _ & _ & _ & _ & Ht & Hc).
  unfold fetchMessages_resolved. simpl. by rewrite Hst, Ht, Hc.
Qed.

(** A blank draft sends nothing: submitting a draft that is empty or
    holds white space only changes nothing: no request, no packet, and the
    draft stays as typed. *)
Theorem blank_draft_sends_nothing u v w :
  all_space (newMessage (st w)) = true → sendMessage u v w = w.
Proof. intros Hs. apply sendMessage_blank. by rewrite blank_all_space. Qed.

End message_log_properties.

Lemma blank_draft_sends_nothing_witness :
  sendMessage alice (JObj roomA) (setNewMessage "  " w_roomA) =
    setNewMessage "  " w_roomA.
Proof.
  witness (blank_draft_sends_nothing alice (JObj roomA) (setNewMessage "  " w_roomA)
    ltac:(by_compute)).
Defined.

Lemma log_is_arrival_order_witness :
  messages (st (deliver_all [EvMessageReceived m3; EvUserJoined bob; EvMessageReceived m4] w_loaded))
    = [m1; m2; m3; m4].
Proof.
  witness (log_is_arrival_order
    [EvMessageReceived m3; EvUserJoined bob; EvMessageReceived m4] w_loaded
    w_loaded_installed ltac:(by_compute)).
Defined.

Lemma failed_send_changes_nothing_witness :
  let w' := resolve 1 (RError NoResponse) (sendMessage alice (JObj roomA) w_draft) in
  st w' = st w_draft ∧ sock w' = sock w_draft ∧
  toasts w' = [error_toast "Error sending message"].
Proof.
  witness (failed_send_changes_nothing alice (JObj roomA) w_draft NoResponse
    ltac:(by_compute)).
Defined.

Lemma successful_send_emits_once_witness :
  let w' := resolve 1 (RMessage m5) (sendMessage alice (JObj roomA) w_draft) in
  messages (st w') = [m5] ∧ newMessage (st w') = "" ∧
  sk_outbox (sock w') =
    [("join room", PRoomId "A"); ("new message", PNewMessage m5 (Some "A"))].
Proof.
  witness (successful_send_emits_once alice (JObj roomA) w_draft m5
    ltac:(by_compute) ltac:(by_compute)).
Defined.

Lemma send_overwrites_arrivals_witness :
  let submitted := sendMessage alice (JObj roomA) w_draft in
  let arrived := deliver_all [EvMessageReceived m3] submitted in
  messages (st arrived) = [m3] ∧
  messages (st (resolve 1 (RMessage m5) arrived)) = [m5].
Proof.
  split; [by vm_compute|].
  witness (send_overwrites_arrivals alice (JObj roomA) w_draft
    [EvMessageReceived m3] m5 ltac:(by_compute)).
Defined.

Lemma stale_snapshot_applied_witness :
  let second := rerun_effect alice (JObj roomB) (rerun_effect alice (JObj roomA) w_idle) in
  let answered := resolve 0 (RMessages [m1; m2]) second in
  cleanup answered = Some roomB ∧ messages (st answered) = [m1; m2].
Proof.
  witness (stale_snapshot_applied alice roomA roomB w_idle [m1; m2] http_init_wf).
Defined.
