(* ===== verification/Presence.v ===== *)
(** * Presence: who is in the room

    The [connectedUsers] cell of [ChatArea.jsx], written by the handlers of
    [users in room], [user joined] and [user left].

    - [presence_step] is what one event does to the list; a run of events
      during a session folds it ([deliver_all_connectedUsers]).
    - [presence_spec] is the presence set of spec.md section 4.4 on user
      ids; [present] abstracts the list to that set and the list refines
      the set ([presence_fold]).
    - The list is not a set: [user joined] appends without looking
      ([joined_twice_listed_twice]), and a room switch keeps the list of
      the room before until the next snapshot arrives
      ([presence_survives_switch]). *)

From S2P Require Import Prelude JsData Data Channel Timers Http ChatArea.
From S2P Require Import Samples Session.

(** ** The list and the set *)

(** What one event does to [connectedUsers]. *)
Definition presence_step (l : list User) (e : in_event) : list User :=
  match e with
  | EvUsersInRoom users => users
  | EvUserJoined user => l ++ [user]
  | EvUserLeft userId => filter (λ user, user_id user ≠ userId) l
  | _ => l
  end.

(** The presence set of spec.md: replaced by the snapshot, a join adds,
    a leave removes and is a no-op for an absent id. *)
Definition presence_spec (X : gset string) (e : in_event) : gset string :=
  match e with
  | EvUsersInRoom users => list_to_set (user_id <$> users)
  | EvUserJoined user => X ∪ {[user_id user]}
  | EvUserLeft userId => X ∖ {[userId]}
  | _ => X
  end.

(** The ids a list of users shows. *)
Definition present (l : list User) : gset string := list_to_set (user_id <$> l).

(** The events that are about presence. *)
Definition is_presence (e : in_event) : bool :=
  match e with
  | EvUsersInRoom _ | EvUserJoined _ | EvUserLeft _ => true
  | _ => false
  end.

Lemma elem_of_present l i : i ∈ present l ↔ ∃ u, u ∈ l ∧ user_id u = i.
Proof.
  unfold present. rewrite elem_of_list_to_set, list_elem_of_fmap. naive_solver.
Qed.

Lemma present_app l k : present (l ++ k) = present l ∪ present k.
Proof. unfold present. by rewrite fmap_app, list_to_set_app_L. Qed.

Lemma present_filter l i :
  present (filter (λ user, user_id user ≠ i) l) = present l ∖ {[i]}.
Proof.
  apply set_eq. intros j. rewrite elem_of_difference, !elem_of_present.
  setoid_rewrite list_elem_of_filter. set_solver.
Qed.

(** One event: the list refines the set. *)
Lemma presence_step_spec l e :
  present (presence_step l e) = presence_spec (present l) e.
Proof.
  destruct e; simpl; try done.
  - rewrite present_app. unfold present. simpl. set_solver.
  - apply present_filter.
Qed.

Lemma presence_steps_spec l es :
  present (foldl presence_step l es) = foldl presence_spec (present l) es.
Proof.
  revert l. induction es as [|e es IH]; intros l; simpl; [done|].
  by rewrite IH, presence_step_spec.
Qed.

(** An event that is not about presence leaves the list alone. *)
Lemma presence_step_other l e : is_presence e = false → presence_step l e = l.
Proof. by destruct e. Qed.

(** A leave removes every entry of the id, and a second leave does
    nothing. *)
Lemma presence_step_left l i :
  i ∉ user_id <$> presence_step l (EvUserLeft i).
Proof.
  simpl. intros (u & Hi & [Hne _]%list_elem_of_filter)%list_elem_of_fmap. done.
Qed.

Lemma presence_step_left_twice l i :
  presence_step (presence_step l (EvUserLeft i)) (EvUserLeft i) =
    presence_step l (EvUserLeft i).
Proof. simpl. apply filter_idemp. Qed.

Lemma presence_step_left_absent l i :
  i ∉ user_id <$> l → presence_step l (EvUserLeft i) = l.
Proof.
  intros Hi. simpl. apply filter_all, Forall_forall. intros u Hu <-.
  apply Hi, list_elem_of_fmap. eauto.
Qed.

(** Entries keep their relative order: a leave yields a sublist. *)
Lemma presence_step_left_sublist l i :
  presence_step l (EvUserLeft i) `sublist_of` l.
Proof. apply sublist_filter. Qed.

(** ** The handlers *)

Section presence.
Context {St : Type} `{!Channel St handler}.
Implicit Types (w : World St) (l : list User) (e : in_event) (u : UserInfo)
  (v : selection).

Lemma run_handler_connectedUsers e w :
  connectedUsers (st (run_handler (handler_of e) e w)) =
    presence_step (connectedUsers (st w)) e.
Proof. by destruct e. Qed.

Lemma handlers_connectedUsers es w :
  connectedUsers (st (foldl (λ w e, run_handler (handler_of e) e w) w es)) =
    foldl presence_step (connectedUsers (st w)) es.
Proof.
  revert w. induction es as [|e es IH]; intros w; simpl; [done|].
  by rewrite IH, run_handler_connectedUsers.
Qed.

(** During a session the list after a run of events is the fold of
    [presence_step] over them. *)
Lemma deliver_all_connectedUsers es w :
  installed w → ch_open (sock w) = true →
  connectedUsers (st (deliver_all es w)) =
    foldl presence_step (connectedUsers (st w)) es.
Proof.
  intros Hi Ho. rewrite deliver_all_installed by done. apply handlers_connectedUsers.
Qed.

Lemma deliver_connectedUsers e w :
  installed w → ch_open (sock w) = true →
  connectedUsers (st (deliver e w)) = presence_step (connectedUsers (st w)) e.
Proof.
  intros Hi Ho. rewrite deliver_installed by done. apply run_handler_connectedUsers.
Qed.

(** Nothing but the three presence events writes the list. *)
Lemma resolve_connectedUsers id r w :
  connectedUsers (st (resolve id r w)) = connectedUsers (st w).
Proof.
  unfold resolve. destruct (http_take id (http w)) as [[[rq [|ms sel]]|] h]; [| |done].
  - by destruct r.
  - by destruct r.
Qed.

End presence.

(** * Properties *)

Section presence_properties.
Context {St : Type} `{!Channel St handler}.
Implicit Types (w : World St) (e : in_event) (u : UserInfo) (v : selection).

(** C9 (the presence list refines the presence set): during a room session
    on an open channel, the ids shown after any run of events are the
    presence set of spec.md folded over the same events in arrival order:
    a snapshot replaces, a join adds, a leave removes, a duplicate leave is
    a no-op, and the other events change nothing. *)
Theorem presence_fold es w :
  installed w → ch_open (sock w) = true →
  present (connectedUsers (st (deliver_all es w))) =
    foldl presence_spec (present (connectedUsers (st w))) es.
Proof.
  intros Hi Ho. rewrite deliver_all_connectedUsers by done. apply presence_steps_spec.
Qed.

(** C26 (a user who left is not listed): when the last event processed is
    [user left] for an id, no entry of the list has that id, however many
    entries had it before. *)
Theorem left_user_absent es i w :
  installed w → ch_open (sock w) = true →
  i ∉ user_id <$> connectedUsers (st (deliver_all (es ++ [EvUserLeft i]) w)).
Proof.
  intros Hi Ho. rewrite deliver_all_connectedUsers, foldl_snoc by done.
  apply presence_step_left.
Qed.

(** C33 (a user who joins twice is listed twice): [user joined] appends
    the user without looking whether the list has it, so the list is not
    duplicate-free: spec.md asks for add-if-absent. *)
Theorem joined_twice_listed_twice x w :
  installed w → ch_open (sock w) = true →
  connectedUsers (st (deliver_all [EvUserJoined x; EvUserJoined x] w)) =
    connectedUsers (st w) ++ [x; x].
Proof.
  intros Hi Ho. rewrite deliver_all_connectedUsers by done. simpl.
  by rewrite <-app_assoc.
Qed.

(** C34 (a room switch keeps the previous room's view): re-running the
    effect for another selection leaves log, presence list and typing set
    as they were; they show the room before until a snapshot or an event of
    the new room replaces them. *)
Theorem presence_survives_switch u v w :
  let w' := rerun_effect u v w in
  messages (st w') = messages (st w) ∧
  connectedUsers (st w') = connectedUsers (st w) ∧
  typingUsers (st w') = typingUsers (st w).
Proof. cbv zeta. by rewrite rerun_effect_st. Qed.

End presence_properties.

Lemma presence_fold_witness :
  present (connectedUsers (st (deliver_all
    [EvUsersInRoom [alice_user; bob]; EvUserJoined carol; EvUserLeft "u-bob";
     EvUserLeft "u-bob"] w_roomA)))
  = {[ "u-alice"; "u-carol" ]}.
Proof.
  rewrite (presence_fold _ w_roomA w_roomA_installed ltac:(by_compute)).
  apply (bool_decide_unpack _). by vm_compute.
Defined.

Lemma left_user_absent_witness :
  "u-bob" ∉ user_id <$> connectedUsers (st (deliver_all
    ([EvUsersInRoom [bob; alice_user; bob]] ++ [EvUserLeft "u-bob"]) w_roomA)).
Proof.
  exact (left_user_absent [EvUsersInRoom [bob; alice_user; bob]] "u-bob" w_roomA
    w_roomA_installed ltac:(by_compute)).
Defined.

Lemma joined_twice_listed_twice_witness :
  connectedUsers (st (deliver_all [EvUserJoined bob; EvUserJoined bob] w_roomA)) =
    [bob; bob].
Proof.
  witness (joined_twice_listed_twice bob w_roomA w_roomA_installed ltac:(by_compute)).
Defined.
