(* ===== verification/Typing.v ===== *)
(** * Typing: the typing set and the debounce timer

    Two parts of [ChatArea.jsx].

    - The [typingUsers] cell, a JavaScript [Set] written by the handlers of
      [user typing] and [user stop typing]: [typing_step] is what one event
      does to it, [typing_spec] the set of spec.md section 4.5, and the
      cell refines the set ([typing_set_refines]).  Nothing but a
      [user stop typing] event removes a name: there is no expiry on this
      side ([remote_typing_never_expires]).
    - [handleTyping], the change handler of the input, and the timer it
      arms: [typing_ok] is the invariant that at most one timer is pending
      and the ref points at it; under it the [stop typing] packet leaves
      exactly [DEBOUNCE] after the last keystroke
      ([stop_typing_after_debounce], [keystroke_rearms_debounce]).  The
      [isTyping] flag is never set, so every keystroke emits [typing]
      ([every_keystroke_emits_typing]), and a room switch does not cancel
      the timer ([timer_survives_switch]). *)

From S2P Require Import Prelude JsData Data Channel Timers Http ChatArea.
From S2P Require Import Samples Session.

(** ** The typing set *)

(** What one event does to [typingUsers]. *)
Definition typing_step (s : JsSet string) (e : in_event) : JsSet string :=
  match e with
  | EvUserTyping username => jsset_add username s
  | EvUserStopTyping username => jsset_delete username s
  | _ => s
  end.

(** The set of names in the state [typing] of spec.md, without expiry. *)
Definition typing_spec (X : gset string) (e : in_event) : gset string :=
  match e with
  | EvUserTyping username => {[username]} ∪ X
  | EvUserStopTyping username => X ∖ {[username]}
  | _ => X
  end.

Lemma typing_step_spec s e :
  jsset_abs (typing_step s e) = typing_spec (jsset_abs s) e.
Proof. destruct e; simpl; auto using jsset_abs_add, jsset_abs_delete. Qed.

Lemma typing_steps_spec s es :
  jsset_abs (foldl typing_step s es) = foldl typing_spec (jsset_abs s) es.
Proof.
  revert s. induction es as [|e es IH]; intros s; simpl; [done|].
  by rewrite IH, typing_step_spec.
Qed.

(** The cell stays a set: no name twice. *)
Lemma typing_step_NoDup s e : NoDup s → NoDup (typing_step s e).
Proof. destruct e; simpl; auto using NoDup_jsset_add, NoDup_jsset_delete. Qed.

Lemma typing_steps_NoDup s es : NoDup s → NoDup (foldl typing_step s es).
Proof.
  revert s. induction es as [|e es IH]; intros s Hs; simpl; [done|].
  by apply IH, typing_step_NoDup.
Qed.

(** A name already shown keeps its place when it types again. *)
(** Only the stop of a name takes it out of the set. *)
Lemma typing_steps_stay s n es :
  n ∈ s → EvUserStopTyping n ∉ es → n ∈ foldl typing_step s es.
Proof.
  revert s. induction es as [|e es IH]; intros s Hn Hes; [done|].
  apply not_elem_of_cons in Hes as [He Hes]. simpl. apply IH; [|done].
  destruct e; simpl; try done.
  - apply elem_of_jsset_add. by right.
  - apply elem_of_jsset_delete. split; [congruence|done].
Qed.

Lemma typing_step_again s n : n ∈ s → typing_step s (EvUserTyping n) = s.
Proof. apply jsset_add_present. Qed.

Section typing_set.
Context {St : Type} `{!Channel St handler}.
Implicit Types (w : World St) (e : in_event).

Lemma run_handler_typingUsers e w :
  typingUsers (st (run_handler (handler_of e) e w)) =
    typing_step (typingUsers (st w)) e.
Proof. by destruct e. Qed.

Lemma handlers_typingUsers es w :
  typingUsers (st (foldl (λ w e, run_handler (handler_of e) e w) w es)) =
    foldl typing_step (typingUsers (st w)) es.
Proof.
  revert w. induction es as [|e es IH]; intros w; simpl; [done|].
  by rewrite IH, run_handler_typingUsers.
Qed.

Lemma deliver_all_typingUsers es w :
  installed w → ch_open (sock w) = true →
  typingUsers (st (deliver_all es w)) = foldl typing_step (typingUsers (st w)) es.
Proof.
  intros Hi Ho. rewrite deliver_all_installed by done. apply handlers_typingUsers.
Qed.

(** Whatever the listeners are, delivery keeps the cell a set. *)
Lemma run_handler_typing_NoDup h e w :
  NoDup (typingUsers (st w)) → NoDup (typingUsers (st (run_handler h e w))).
Proof.
  destruct h, e; simpl; auto using NoDup_jsset_add, NoDup_jsset_delete.
Qed.

Lemma deliver_typing_NoDup e w :
  NoDup (typingUsers (st w)) → NoDup (typingUsers (st (deliver e w))).
Proof.
  unfold deliver. destruct (ch_open (sock w)); [|done].
  generalize (ch_listeners (sock w) (event_name e)). intros hs. revert w.
  induction hs as [|h hs IH]; intros w Hw; simpl; [done|].
  by apply IH, run_handler_typing_NoDup.
Qed.

End typing_set.

(** ** The debounce timer *)

Section debounce.
Context {St : Type} `{!Channel St handler}.
Implicit Types (w : World St) (u : UserInfo) (v : selection) (g : Group)
  (cb : callback) (d : nat).

(** At most one timer is pending, and the ref holds its id. *)
Definition typing_ok (w : World St) : Prop :=
  timers_wf (timers w) ∧
  ∀ i, i ∈ pending_ids (timers w) → typingTimeOutRef (st w) = Some i.

(** The packets the debounce closure sends. *)
Definition stop_packets (v : selection) : list packet :=
  if truthy v then [("stop typing", PStopTyping (opt_chain group_id v))] else [].

Lemma typing_ok_pending w :
  typing_ok w → length (tm_pending (timers w)) ≤ 1.
Proof.
  intros [(_ & Hnd & _) Href]. unfold pending_ids in *.
  destruct (tm_pending (timers w)) as [|t [|t' l]]; simpl in *; [lia..|].
  pose proof (Href (t_id t)) as H1. pose proof (Href (t_id t')) as H2.
  rewrite H1 in H2 by set_solver. apply NoDup_cons in Hnd as [Hnd _].
  exfalso. apply Hnd. injection H2 as ->; set_solver.
Qed.

(** *** clearTimeout, setTimeout *)

Lemma clear_typing_timeout_frame w :
  st (clear_typing_timeout w) = st w ∧ sock (clear_typing_timeout w) = sock w ∧
  now (clear_typing_timeout w) = now w ∧
  tm_next (timers (clear_typing_timeout w)) = tm_next (timers w).
Proof. unfold clear_typing_timeout. by js_cases. Qed.

Lemma clear_typing_timeout_pending w :
  typing_ok w → tm_pending (timers (clear_typing_timeout w)) = [].
Proof.
  intros [(_ & _ & Hpos) Href]. unfold clear_typing_timeout, pending_ids in *.
  destruct (tm_pending (timers w)) as [|t l] eqn:Hp.
  { js_cases; simpl; by rewrite ?Hp. }
  rewrite (Href (t_id t)) by set_solver.
  apply Forall_cons in Hpos as [? _]. rewrite decide_True by lia. simpl.
  rewrite Hp. apply filter_none, Forall_forall. intros t' Ht' Hne.
  pose proof (Href (t_id t') ltac:(apply list_elem_of_fmap; eauto)) as H1.
  pose proof (Href (t_id t) ltac:(set_solver)) as H2. congruence.
Qed.

Lemma clear_typing_timeout_wf w :
  timers_wf (timers w) → timers_wf (timers (clear_typing_timeout w)).
Proof. unfold clear_typing_timeout. js_cases; simpl; eauto with js. Qed.

Lemma arm_typing_timeout_timers v w :
  timers (arm_typing_timeout v w) =
    (setTimeout (TypingTimeout v) DEBOUNCE (now w) (timers w)).2.
Proof. done. Qed.

Lemma arm_typing_timeout_frame v w :
  sock (arm_typing_timeout v w) = sock w ∧ now (arm_typing_timeout v w) = now w ∧
  typingTimeOutRef (st (arm_typing_timeout v w)) = Some (tm_next (timers w)) ∧
  isTyping (st (arm_typing_timeout v w)) = isTyping (st w) ∧
  newMessage (st (arm_typing_timeout v w)) = newMessage (st w).
Proof. done. Qed.

(** *** handleTyping *)

(** The handler on a selected room, with the flag down: the draft is
    set, [typing] is emitted, the pending timer is cleared and a new one
    armed. *)
Lemma handleTyping_selected u g value w :
  isTyping (st w) = false →
  handleTyping u (JObj g) value w =
    Ok (w |> setNewMessage value
          |> emit "typing" (PTyping (group_id g) (ui_username u))
          |> clear_typing_timeout
          |> arm_typing_timeout (JObj g)).
Proof. unfold handleTyping. simpl. by intros ->. Qed.

(** Without a selected room, reading [selectedGroup._id] throws after the
    draft was set; no timer is armed. *)
Lemma handleTyping_not_selected u v value w :
  isTyping (st w) = false → truthy v = false →
  handleTyping u v value w =
    Throw (TypeError ("Cannot read properties of " +:+
                        (if decide (v = JNull) then "null" else "undefined") +:+
                        " (reading '_id')"),
           setNewMessage value w).
Proof. unfold handleTyping. simpl. intros ->. by destruct v. Qed.

(** What a keystroke in a selected room leaves behind. *)
Lemma handleTyping_effect u g value w :
  isTyping (st w) = false → typing_ok w →
  let w' := after (handleTyping u (JObj g) value w) in
  newMessage (st w') = value ∧ isTyping (st w') = false ∧
  sock w' = ch_emit "typing" (PTyping (group_id g) (ui_username u)) (sock w) ∧
  now w' = now w ∧
  typingTimeOutRef (st w') = Some (tm_next (timers w)) ∧
  tm_next (timers w') = S (tm_next (timers w)) ∧
  tm_pending (timers w') =
    [mkTimer (tm_next (timers w)) (now w + DEBOUNCE) (TypingTimeout (JObj g))].
Proof.
  intros Hf Hok. rewrite handleTyping_selected by done. cbv zeta. simpl after.
  set (w1 := emit _ _ (setNewMessage value w)).
  assert (typing_ok w1) as Hok1 by done.
  destruct (clear_typing_timeout_frame w1) as (Hst & Hsock & Hnow & Hnext).
  pose proof (clear_typing_timeout_pending w1 Hok1) as Hp.
  rewrite arm_typing_timeout_timers. unfold setTimeout, arm_typing_timeout. simpl.
  rewrite Hst, Hsock, Hnow, Hnext, Hp. done.
Qed.

Lemma arm_clear_typing_ok v w :
  typing_ok w → typing_ok (arm_typing_timeout v (clear_typing_timeout w)).
Proof.
  intros Hok. pose proof (clear_typing_timeout_pending w Hok) as Hp.
  destruct Hok as [Hwf _]. apply clear_typing_timeout_wf in Hwf.
  split; [rewrite arm_typing_timeout_timers; by apply setTimeout_wf|].
  unfold pending_ids, arm_typing_timeout, setTimeout. simpl. rewrite Hp. simpl.
  by intros i ->%list_elem_of_singleton.
Qed.

(** The invariant holds after a keystroke, whether the handler threw or
    not. *)
Lemma handleTyping_typing_ok u v value w :
  typing_ok w → typing_ok (after (handleTyping u v value w)).
Proof.
  intros Hok. unfold handleTyping. simpl.
  destruct (isTyping (st w)), v; simpl; try done;
    by apply arm_clear_typing_ok.
Qed.

(** *** Time *)

(** The debounce closure touches the channel and the flag, nothing
    else. *)
Definition same_but_typing (w1 w2 : World St) : Prop :=
  timers w1 = timers w2 ∧ now w1 = now w2 ∧ http w1 = http w2 ∧
  cleanup w1 = cleanup w2 ∧ mounted w1 = mounted w2 ∧ toasts w1 = toasts w2 ∧
  console w1 = console w2 ∧
  messages (st w1) = messages (st w2) ∧ newMessage (st w1) = newMessage (st w2) ∧
  connectedUsers (st w1) = connectedUsers (st w2) ∧
  typingUsers (st w1) = typingUsers (st w2) ∧
  typingTimeOutRef (st w1) = typingTimeOutRef (st w2) ∧
  ch_open (sock w1) = ch_open (sock w2) ∧
  ∀ n, ch_listeners (sock w1) n = ch_listeners (sock w2) n.

#[export] Instance same_but_typing_preorder : PreOrder same_but_typing.
Proof.
  unfold same_but_typing. split; [intros w; by split_and!|].
  intros w1 w2 w3 (?&?&?&?&?&?&?&?&?&?&?&?&?&H12) (?&?&?&?&?&?&?&?&?&?&?&?&?&H23).
  split_and!; first [congruence | intros n; by rewrite H12].
Qed.

Lemma run_callback_frame cb w : same_but_typing (run_callback cb w) w.
Proof.
  destruct cb as [v]. unfold run_callback. case_match; [|done].
  unfold same_but_typing. split_and!; try done; intros; by ca_simpl.
Qed.

Lemma run_callback_sent v w :
  ch_sent (sock (run_callback (TypingTimeout v) w)) =
    if ch_open (sock w) then ch_sent (sock w) ++ stop_packets v else ch_sent (sock w).
Proof.
  unfold run_callback, stop_packets. destruct (truthy v); [by ca_simpl|].
  rewrite app_nil_r. by destruct (ch_open (sock w)).
Qed.

Lemma run_callback_isTyping v w :
  isTyping (st (run_callback (TypingTimeout v) w)) =
    if truthy v then false else isTyping (st w).
Proof. unfold run_callback. by case_match. Qed.

Lemma run_callbacks_frame (cbs : list callback) w :
  same_but_typing (foldl (λ w cb, run_callback cb w) w cbs) w.
Proof.
  revert w. induction cbs as [|cb cbs IH]; intros w; simpl; [done|].
  etrans; [apply IH|apply run_callback_frame].
Qed.

(** Time passing leaves everything but clock, timers, flag and packets
    sent. *)
Lemma advance_frame d w :
  same_but_typing (advance d w) (w |> set_now (now w + d) |> set_timers (expire (now w + d))).
Proof. unfold advance. cbv zeta. apply run_callbacks_frame. Qed.

Lemma advance_timers d w : timers (advance d w) = expire (now w + d) (timers w).
Proof. by destruct (advance_frame d w) as (->&_). Qed.

Lemma advance_now d w : now (advance d w) = now w + d.
Proof. by destruct (advance_frame d w) as (_&->&_). Qed.

(** Nothing runs before the earliest deadline. *)
Lemma advance_quiet d w :
  Forall (λ t, now w + d < t_deadline t) (tm_pending (timers w)) →
  advance d w = set_now (now w + d) w.
Proof.
  intros Hall. unfold advance. cbv zeta. rewrite due_none by done. simpl.
  apply world_eq; simpl; try done. by apply expire_none.
Qed.

(** The only pending timer is due: its closure runs. *)
Lemma advance_one d w t :
  tm_pending (timers w) = [t] → t_deadline t ≤ now w + d →
  advance d w =
    run_callback (t_callback t)
      (w |> set_now (now w + d) |> set_timers (expire (now w + d))).
Proof.
  intros Hp Hd. unfold advance, due. cbv zeta. rewrite Hp.
  rewrite filter_cons, decide_True by done. done.
Qed.

Lemma advance_typing_ok d w : typing_ok w → typing_ok (advance d w).
Proof.
  intros [Hwf Href]. destruct (advance_frame d w) as (Ht&_&_&_&_&_&_&_&_&_&_&Hr&_).
  split; rewrite Ht; simpl; [by apply expire_wf|].
  intros i Hi. rewrite Hr. simpl. apply Href.
  unfold pending_ids in *. apply list_elem_of_fmap in Hi as (t & -> & Hin).
  apply elem_of_expire in Hin as [Hin _]. apply list_elem_of_fmap; eauto.
Qed.

(** With one timer pending, the packets of its closure leave when its
    deadline is reached and not before. *)
Lemma debounce_sent d w id deadline v :
  tm_pending (timers w) = [mkTimer id deadline (TypingTimeout v)] →
  ch_open (sock w) = true →
  ch_sent (sock (advance d w)) =
    ch_sent (sock w) ++ (if decide (deadline ≤ now w + d) then stop_packets v else []).
Proof.
  intros Hp Ho. case_decide.
  - rewrite (advance_one d w _ Hp) by done. simpl t_callback.
    rewrite run_callback_sent. simpl. by rewrite Ho.
  - rewrite advance_quiet; [simpl; by rewrite app_nil_r|].
    rewrite Hp. apply Forall_singleton. simpl. lia.
Qed.

Lemma debounce_pending d w id deadline v :
  tm_pending (timers w) = [mkTimer id deadline (TypingTimeout v)] →
  tm_pending (timers (advance d w)) =
    if decide (deadline ≤ now w + d) then []
    else [mkTimer id deadline (TypingTimeout v)].
Proof.
  intros Hp. rewrite advance_timers. unfold expire. simpl. rewrite Hp.
  rewrite filter_cons. simpl. by repeat case_decide.
Qed.

(** The packet a keystroke sends. *)
Definition typing_packet u g : packet :=
  ("typing", PTyping (group_id g) (ui_username u)).

Lemma handleTyping_sent u g value w :
  isTyping (st w) = false → typing_ok w → ch_open (sock w) = true →
  ch_sent (sock (after (handleTyping u (JObj g) value w))) =
    ch_sent (sock w) ++ [typing_packet u g] ∧
  ch_open (sock (after (handleTyping u (JObj g) value w))) = true.
Proof.
  intros Hf Hok Ho. destruct (handleTyping_effect u g value w Hf Hok) as (_&_&->&_).
  ch_simpl. by rewrite Ho.
Qed.

End debounce.

#[export] Hint Resolve handleTyping_typing_ok advance_typing_ok : js.

(** ** The sample worlds *)

Lemma w_roomA_typing_ok : typing_ok w_roomA.
Proof. split; [exact timers_init_wf|]. by intros i ?%elem_of_nil. Qed.

(** * Properties *)

Section typing_properties.
Context {St : Type} `{!Channel St handler}.
Implicit Types (w : World St) (u : UserInfo) (v : selection) (g : Group).

(** C10 (the typing cell refines the typing set): during a room session on
    an open channel, the names shown after any run of events are the set of
    spec.md folded over the same events: [user typing] adds the name,
    [user stop typing] removes it; and the cell holds no name twice. *)
Theorem typing_set_refines es w :
  installed w → ch_open (sock w) = true → NoDup (typingUsers (st w)) →
  jsset_abs (typingUsers (st (deliver_all es w))) =
    foldl typing_spec (jsset_abs (typingUsers (st w))) es ∧
  NoDup (typingUsers (st (deliver_all es w))).
Proof.
  intros Hi Ho Hnd. rewrite deliver_all_typingUsers by done.
  split; [apply typing_steps_spec | by apply typing_steps_NoDup].
Qed.

(** C31 (a remote typist never expires): once [user typing] arrived for a
    name, the name is shown whatever events follow, as long as none is
    the [user stop typing] of that name, and however much time passes
    after them.  spec.md asks for expiry after 2000 ms without an
    event. *)
Theorem remote_typing_never_expires n es d w :
  installed w → ch_open (sock w) = true → EvUserStopTyping n ∉ es →
  n ∈ typingUsers (st (advance d (deliver_all es (deliver (EvUserTyping n) w)))).
Proof.
  intros Hi Ho Hes.
  destruct (advance_frame d (deliver_all es (deliver (EvUserTyping n) w)))
    as (_&_&_&_&_&_&_&_&_&_&->&_). simpl.
  change (deliver_all es (deliver (EvUserTyping n) w))
    with (deliver_all (EvUserTyping n :: es) w).
  rewrite deliver_all_typingUsers by done. simpl.
  apply typing_steps_stay; [|done]. apply elem_of_jsset_add. by left.
Qed.

(** C7 (stop typing leaves exactly 2000 ms after the keystroke): after a
    keystroke in a selected room, letting [d] ms pass sends nothing while
    [d < 2000] and exactly one [stop typing] packet for that room once
    [d ≥ 2000]. *)
Theorem stop_typing_after_debounce u g value w d :
  isTyping (st w) = false → typing_ok w → ch_open (sock w) = true →
  let typed := after (handleTyping u (JObj g) value w) in
  ch_sent (sock (advance d typed)) =
    ch_sent (sock typed) ++
      (if decide (2000 ≤ d)
       then [("stop typing", PStopTyping (Some (group_id g)))] else []).
Proof.
  intros Hf Hok Ho. cbv zeta. change 2000 with DEBOUNCE.
  destruct (handleTyping_effect u g value w Hf Hok) as (_&_&_&Hn&_&_&Hp).
  destruct (handleTyping_sent u g value w Hf Hok Ho) as [_ Ho'].
  rewrite (debounce_sent d _ _ _ _ Hp Ho'), Hn.
  f_equal. repeat case_decide; done || lia.
Qed.

(** C8 (a keystroke re-arms the timer): a second keystroke less than
    2000 ms after the first cancels the first timer; one [stop typing]
    packet is sent in all, 2000 ms after the second keystroke and not
    before. *)
Theorem keystroke_rearms_debounce u g (v1 v2 : string) w d1 d2 :
  isTyping (st w) = false → typing_ok w → ch_open (sock w) = true →
  d1 < 2000 →
  let first := after (handleTyping u (JObj g) v1 w) in
  let second := after (handleTyping u (JObj g) v2 (advance d1 first)) in
  ch_sent (sock (advance d2 second)) =
    ch_sent (sock w) ++ [typing_packet u g; typing_packet u g] ++
      (if decide (2000 ≤ d2)
       then [("stop typing", PStopTyping (Some (group_id g)))] else []).
Proof.
  intros Hf Hok Ho Hd. cbv zeta. change 2000 with DEBOUNCE in *.
  destruct (handleTyping_effect u g v1 w Hf Hok) as (_&Hf1&_&Hn1&_&_&Hp1).
  destruct (handleTyping_sent u g v1 w Hf Hok Ho) as [Hs1 Ho1].
  assert (typing_ok (advance d1 (after (handleTyping u (JObj g) v1 w)))) as Hok1
    by eauto with js.
  rewrite (advance_quiet d1 (after (handleTyping u (JObj g) v1 w))) in Hok1 |- *
    by (rewrite Hp1; apply Forall_singleton; simpl; lia).
  set (w1 := set_now _ _) in *.
  destruct (handleTyping_effect u g v2 w1 Hf1 Hok1) as (_&_&_&Hn2&_&_&Hp2).
  destruct (handleTyping_sent u g v2 w1 Hf1 Hok1 Ho1) as [Hs2 Ho2].
  rewrite (debounce_sent d2 _ _ _ _ Hp2 Ho2), Hs2, Hn2. simpl. rewrite Hs1.
  rewrite <-!app_assoc. do 2 f_equal. simpl. repeat case_decide; done || lia.
Qed.

(** C29 (every keystroke emits typing): the [isTyping] flag is never
    raised, so each keystroke in a selected room sends a [typing] packet,
    not only the first of a burst, and leaves the flag down. *)
Theorem every_keystroke_emits_typing u g (v1 v2 : string) w :
  isTyping (st w) = false → typing_ok w → ch_open (sock w) = true →
  let first := after (handleTyping u (JObj g) v1 w) in
  let second := after (handleTyping u (JObj g) v2 first) in
  ch_sent (sock second) = ch_sent (sock w) ++ [typing_packet u g; typing_packet u g] ∧
  isTyping (st second) = false ∧ newMessage (st second) = v2.
Proof.
  intros Hf Hok Ho. cbv zeta.
  destruct (handleTyping_effect u g v1 w Hf Hok) as (_&Hf1&_).
  destruct (handleTyping_sent u g v1 w Hf Hok Ho) as [Hs1 Ho1].
  assert (typing_ok (after (handleTyping u (JObj g) v1 w))) as Hok1 by eauto with js.
  destruct (handleTyping_effect u g v2 _ Hf1 Hok1) as (Hv&Hf2&_).
  destruct (handleTyping_sent u g v2 _ Hf1 Hok1 Ho1) as [Hs2 _].
  by rewrite Hs2, Hs1, <-app_assoc.
Qed.

(** C32 (a room switch does not cancel the timer): the timer armed by a
    keystroke in one room is still pending after another room is selected,
    and when it fires its closure sends [stop typing] for the room it
    captured.  spec.md asks for the timers to be cancelled by the
    switch. *)
Theorem timer_survives_switch u g v' value w :
  isTyping (st w) = false → typing_ok w → ch_open (sock w) = true →
  let typed := after (handleTyping u (JObj g) value w) in
  let switched := rerun_effect u v' typed in
  timers switched = timers typed ∧
  ch_sent (sock (advance 2000 switched)) =
    ch_sent (sock switched) ++ [("stop typing", PStopTyping (Some (group_id g)))].
Proof.
  intros Hf Hok Ho. cbv zeta. change 2000 with DEBOUNCE.
  destruct (handleTyping_effect u g value w Hf Hok) as (_&_&_&Hn&_&_&Hp).
  destruct (handleTyping_sent u g value w Hf Hok Ho) as [_ Ho'].
  destruct (rerun_effect_frame u v' (after (handleTyping u (JObj g) value w)))
    as (_&Ht&Hn'&_).
  split; [done|]. rewrite <-Ht in Hp.
  rewrite (debounce_sent _ _ _ _ _ Hp) by by rewrite rerun_effect_open.
  rewrite Hn', Hn. by rewrite decide_True by lia.
Qed.

End typing_properties.

Lemma typing_set_refines_witness :
  typingUsers (st (deliver_all
    [EvUserTyping "bob"; EvUserTyping "carol"; EvUserTyping "bob";
     EvUserStopTyping "carol"] w_roomA)) = ["bob"] ∧
  jsset_abs (typingUsers (st (deliver_all
    [EvUserTyping "bob"; EvUserTyping "carol"; EvUserTyping "bob";
     EvUserStopTyping "carol"] w_roomA))) = {["bob"]}.
Proof.
  split; [by vm_compute|].
  destruct (typing_set_refines
    [EvUserTyping "bob"; EvUserTyping "carol"; EvUserTyping "bob";
     EvUserStopTyping "carol"] w_roomA w_roomA_installed ltac:(by_compute)
    (NoDup_nil_2))
    as [-> _].
  apply (bool_decide_unpack _). by vm_compute.
Defined.

(** The scenario of spec.md section 8: bob types, then nothing; the name
    is still shown 3100 ms later. *)
Lemma remote_typing_never_expires_witness :
  "bob" ∈ typingUsers (st (advance 3100
    (deliver_all [EvMessageReceived m3; EvUserStopTyping "carol"; EvUserLeft "u-bob"]
       (deliver (EvUserTyping "bob") w_roomA)))).
Proof.
  exact (remote_typing_never_expires "bob"
    [EvMessageReceived m3; EvUserStopTyping "carol"; EvUserLeft "u-bob"] 3100 w_roomA
    w_roomA_installed ltac:(by_compute) ltac:(apply (bool_decide_unpack _); by_compute)).
Defined.

Lemma stop_typing_after_debounce_witness :
  let typed := after (handleTyping alice (JObj roomA) "h" w_roomA) in
  sk_outbox (sock (advance 1999 typed)) =
    [("join room", PRoomId "A"); ("typing", PTyping "A" "alice")] ∧
  sk_outbox (sock (advance 2000 typed)) =
    [("join room", PRoomId "A"); ("typing", PTyping "A" "alice");
     ("stop typing", PStopTyping (Some "A"))].
Proof.
  split.
  - witness (stop_typing_after_debounce alice roomA "h" w_roomA 1999
      ltac:(by_compute) w_roomA_typing_ok ltac:(by_compute)).
  - witness (stop_typing_after_debounce alice roomA "h" w_roomA 2000
      ltac:(by_compute) w_roomA_typing_ok ltac:(by_compute)).
Defined.

Lemma keystroke_rearms_debounce_witness :
  let first := after (handleTyping alice (JObj roomA) "h" w_roomA) in
  let second := after (handleTyping alice (JObj roomA) "hi" (advance 1000 first)) in
  sk_outbox (sock (advance 1999 second)) =
    [("join room", PRoomId "A"); ("typing", PTyping "A" "alice");
     ("typing", PTyping "A" "alice")] ∧
  sk_outbox (sock (advance 2000 second)) =
    [("join room", PRoomId "A"); ("typing", PTyping "A" "alice");
     ("typing", PTyping "A" "alice"); ("stop typing", PStopTyping (Some "A"))].
Proof.
  split.
  - witness (keystroke_rearms_debounce alice roomA "h" "hi" w_roomA 1000 1999
      ltac:(by_compute) w_roomA_typing_ok ltac:(by_compute)
      ltac:(by_compute)).
  - witness (keystroke_rearms_debounce alice roomA "h" "hi" w_roomA 1000 2000
      ltac:(by_compute) w_roomA_typing_ok ltac:(by_compute)
      ltac:(by_compute)).
Defined.

Lemma every_keystroke_emits_typing_witness :
  let first := after (handleTyping alice (JObj roomA) "h" w_roomA) in
  let second := after (handleTyping alice (JObj roomA) "hi" first) in
  sk_outbox (sock second) =
    [("join room", PRoomId "A"); ("typing", PTyping "A" "alice");
     ("typing", PTyping "A" "alice")] ∧
  isTyping (st second) = false ∧ newMessage (st second) = "hi".
Proof.
  witness (every_keystroke_emits_typing alice roomA "h" "hi" w_roomA
    ltac:(by_compute) w_roomA_typing_ok ltac:(by_compute)).
Defined.

Lemma timer_survives_switch_witness :
  let typed := after (handleTyping alice (JObj roomA) "h" w_roomA) in
  let switched := rerun_effect alice (JObj roomB) typed in
  timers switched = timers typed ∧
  sk_outbox (sock (advance 2000 switched)) =
    [("join room", PRoomId "A"); ("typing", PTyping "A" "alice");
     ("leave room", PRoomId "A"); ("join room", PRoomId "B");
     ("stop typing", PStopTyping (Some "A"))].
Proof.
  witness (timer_survives_switch alice roomA (JObj roomB) "h" w_roomA
    ltac:(by_compute) w_roomA_typing_ok ltac:(by_compute)).
Defined.
