(* ===== verification/Invariant.v ===== *)
(** * Invariant: what every operation of the chat area preserves

    [world_ok] collects the invariants of the components: the listeners
    match the session ([session_ok]), at most one debounce timer is pending
    and the ref points at it ([typing_ok]), the [isTyping] flag is down,
    the typing cell is a set, and the request table is well formed.
    [room_ok] says that the packets sent so far leave the channel in the
    room of the current session: joins and leaves alternate.

    Each operation of [ChatArea.jsx] preserves both; the page model
    ([Chat]) lifts this to every reachable page. *)

From S2P Require Import Prelude JsData Data Channel Timers Http ChatArea.
From S2P Require Import Samples Session MessageLog Presence Typing.

Section invariant.
Context {St : Type} `{!Channel St handler}.
Implicit Types (w : World St) (u : UserInfo) (v : selection) (g : Group)
  (e : in_event) (d : nat) (r : response).

Definition world_ok (w : World St) : Prop :=
  session_ok w ∧ typing_ok w ∧ isTyping (st w) = false ∧
  NoDup (typingUsers (st w)) ∧ http_wf (http w).

Definition room_ok (w : World St) : Prop :=
  room_trace (ch_sent (sock w)) None = Some (group_id <$> cleanup w).

(** ** Frames *)

Lemma typing_ok_frame w w' :
  timers w' = timers w → typingTimeOutRef (st w') = typingTimeOutRef (st w) →
  typing_ok w → typing_ok w'.
Proof. unfold typing_ok. by intros -> ->. Qed.

(** Packets that are neither joins nor leaves do not move the room. *)
Lemma room_trace_other ps qs s :
  Forall (λ p, is_room p = false) qs → room_trace (ps ++ qs) s = room_trace ps s.
Proof.
  induction qs as [|q qs IH] using rev_ind; [by rewrite app_nil_r|].
  intros [Hqs Hq%Forall_inv]%Forall_app.
  rewrite app_assoc, room_trace_snoc, IH by done.
  destruct (room_trace ps s) as [s'|]; [|done]. exact (room_step_other s' q Hq).
Qed.

Lemma room_ok_emit n p w :
  is_room (n, p) = false → room_ok w → room_ok (emit n p w).
Proof.
  unfold room_ok, emit. simpl. rewrite ch_sent_emit. intros Hp Hw.
  destruct (ch_open (sock w)); [|done].
  rewrite room_trace_other; [done | by apply Forall_singleton].
Qed.

Lemma room_ok_frame w w' :
  ch_sent (sock w') = ch_sent (sock w) → cleanup w' = cleanup w →
  room_ok w → room_ok w'.
Proof. unfold room_ok. by intros -> ->. Qed.

(** ** Events *)

Lemma run_handler_cells h e w :
  isTyping (st (run_handler h e w)) = isTyping (st w) ∧
  typingTimeOutRef (st (run_handler h e w)) = typingTimeOutRef (st w) ∧
  newMessage (st (run_handler h e w)) = newMessage (st w).
Proof. by destruct h, e. Qed.

Lemma deliver_cells e w :
  isTyping (st (deliver e w)) = isTyping (st w) ∧
  typingTimeOutRef (st (deliver e w)) = typingTimeOutRef (st w) ∧
  newMessage (st (deliver e w)) = newMessage (st w).
Proof.
  unfold deliver. destruct (ch_open (sock w)); [|done].
  generalize (ch_listeners (sock w) (event_name e)). intros hs. revert w.
  induction hs as [|h hs IH]; intros w; simpl; [done|].
  destruct (IH (run_handler h e w)) as (-> & -> & ->). apply run_handler_cells.
Qed.

Lemma deliver_world_ok e w : world_ok w → world_ok (deliver e w).
Proof.
  intros (Hs & Ht & Hf & Hn & Hh).
  destruct (deliver_env e w) as (_ & _ & _ & Htm & Hhttp & _).
  destruct (deliver_cells e w) as (Hf' & Hr & _).
  split_and!; [by apply deliver_session_ok | by eapply typing_ok_frame
    | congruence | by apply deliver_typing_NoDup | by rewrite Hhttp].
Qed.

Lemma deliver_room_ok e w : room_ok w → room_ok (deliver e w).
Proof.
  destruct (deliver_env e w) as (_ & Hc & Hs & _). apply room_ok_frame; congruence.
Qed.

(** ** Answers *)

Lemma resolve_cells id r w :
  isTyping (st (resolve id r w)) = isTyping (st w) ∧
  typingTimeOutRef (st (resolve id r w)) = typingTimeOutRef (st w) ∧
  typingUsers (st (resolve id r w)) = typingUsers (st w).
Proof.
  unfold resolve. destruct (http_take id (http w)) as [[[rq [|ms sel]]|] h];
    [| |done]; by destruct r.
Qed.

Lemma resolve_world_ok id r w : world_ok w → world_ok (resolve id r w).
Proof.
  intros (Hs & Ht & Hf & Hn & Hh).
  destruct (resolve_session id r w) as (Hc & _ & Hl & Htm & _).
  destruct (resolve_cells id r w) as (Hf' & Hr & Hu).
  split_and!; [by eapply session_ok_listeners | by eapply typing_ok_frame
    | congruence | by rewrite Hu | by apply resolve_http_wf].
Qed.

Lemma sendMessage_resolved_room_ok ms v r w :
  room_ok w → room_ok (sendMessage_resolved ms v r w).
Proof.
  intros Hw. unfold sendMessage_resolved. destruct r; try done.
  eapply room_ok_frame; [| |by apply
    (room_ok_emit "new message" (PNewMessage data (opt_chain group_id v))), Hw];
    done.
Qed.

Lemma resolve_room_ok id r w : room_ok w → room_ok (resolve id r w).
Proof.
  intros Hw. unfold resolve.
  destruct (http_take id (http w)) as [[[rq [|ms sel]]|] h]; [| |done].
  - by destruct r.
  - by apply sendMessage_resolved_room_ok.
Qed.

(** ** The form *)

Lemma sendMessage_world_ok u v w : world_ok w → world_ok (sendMessage u v w).
Proof.
  intros (Hs & Ht & Hf & Hn & Hh).
  destruct (sendMessage_frame u v w) as (Hst & Hsock & _ & Htm & Hc & _).
  split_and!; [eapply session_ok_listeners; [done| |done]; by rewrite Hsock
    | eapply typing_ok_frame; [done| |done]; by rewrite Hst
    | by rewrite Hst | by rewrite Hst | by apply sendMessage_http_wf].
Qed.

Lemma sendMessage_room_ok u v w : room_ok w → room_ok (sendMessage u v w).
Proof.
  destruct (sendMessage_frame u v w) as (_ & Hsock & _ & _ & Hc & _).
  apply room_ok_frame; congruence.
Qed.

(** ** The input *)

(** Clearing and arming touch the timer table and the ref only. *)
Lemma typing_timer_frame v w :
  ∃ f ref, arm_typing_timeout v (clear_typing_timeout w) =
    w |> set_timers f |> set_typingTimeOutRef ref.
Proof.
  unfold clear_typing_timeout.
  destruct (typingTimeOutRef (st w)) as [id|]; [destruct (decide (id ≠ 0))|];
    [exists (λ tm, (setTimeout (TypingTimeout v) DEBOUNCE (now w) (clearTimeout id tm)).2)
    |exists (λ tm, (setTimeout (TypingTimeout v) DEBOUNCE (now w) tm).2)..];
    by exists (Some (tm_next (timers w))).
Qed.

(** The packets a keystroke sends: none while the flag is up or on a
    closed channel. *)
Definition typing_packets u v w : list packet :=
  match v with
  | JObj g =>
      if isTyping (st w) then []
      else if ch_open (sock w) then [typing_packet u g] else []
  | _ => []
  end.

(** The world a keystroke leaves, thrown or not. *)
Lemma handleTyping_after u v value w :
  after (handleTyping u v value w) =
    if isTyping (st w)
    then arm_typing_timeout v (clear_typing_timeout (setNewMessage value w))
    else match v with
         | JObj g =>
             arm_typing_timeout v (clear_typing_timeout
               (emit "typing" (PTyping (group_id g) (ui_username u))
                  (setNewMessage value w)))
         | _ => setNewMessage value w
         end.
Proof.
  unfold handleTyping. cbv zeta.
  change (isTyping (st (setNewMessage value w))) with (isTyping (st w)).
  by destruct (isTyping (st w)), v.
Qed.

Lemma handleTyping_frame u v value w :
  let w' := after (handleTyping u v value w) in
  cleanup w' = cleanup w ∧ http w' = http w ∧ mounted w' = mounted w ∧
  now w' = now w ∧ toasts w' = toasts w ∧
  isTyping (st w') = isTyping (st w) ∧
  typingUsers (st w') = typingUsers (st w) ∧
  messages (st w') = messages (st w) ∧
  connectedUsers (st w') = connectedUsers (st w) ∧
  newMessage (st w') = value ∧
  ch_open (sock w') = ch_open (sock w) ∧
  (∀ n, ch_listeners (sock w') n = ch_listeners (sock w) n) ∧
  ch_sent (sock w') = ch_sent (sock w) ++ typing_packets u v w.
Proof.
  cbv zeta. rewrite handleTyping_after. unfold typing_packets.
  destruct (isTyping (st w)) eqn:Hf, v as [| |g];
    try (match goal with
         | |- context [arm_typing_timeout ?v (clear_typing_timeout ?w0)] =>
             destruct (typing_timer_frame v w0) as (f & ref & ->)
         end);
    simpl; rewrite ?app_nil_r; split_and!; try done; intros; ca_simpl; try done.
  by destruct (ch_open (sock w)); rewrite ?app_nil_r.
Qed.

Lemma handleTyping_world_ok u v value w :
  world_ok w → world_ok (after (handleTyping u v value w)).
Proof.
  intros (Hs & Ht & Hf & Hn & Hh).
  destruct (handleTyping_frame u v value w) as (Hc&Hh'&_&_&_&Hf'&Hu&_&_&_&_&Hl&_).
  split_and!; [by eapply session_ok_listeners | by apply handleTyping_typing_ok
    | congruence | by rewrite Hu | by rewrite Hh'].
Qed.

Lemma handleTyping_room_ok u v value w :
  room_ok w → room_ok (after (handleTyping u v value w)).
Proof.
  destruct (handleTyping_frame u v value w) as (Hc&_&_&_&_&_&_&_&_&_&_&_&Hs).
  unfold room_ok. rewrite Hs, Hc. intros Hw. rewrite room_trace_other; [done|].
  unfold typing_packets. js_cases; by repeat constructor.
Qed.

(** ** Time *)

Lemma run_callback_room_ok cb w : room_ok w → room_ok (run_callback cb w).
Proof.
  destruct cb as [v]. unfold run_callback. case_match; [|done]. intros Hw.
  eapply room_ok_frame; [| |by apply
    (room_ok_emit "stop typing" (PStopTyping (opt_chain group_id v))), Hw]; done.
Qed.

Lemma run_callback_flag cb w :
  isTyping (st w) = false → isTyping (st (run_callback cb w)) = false.
Proof. destruct cb as [v]. rewrite run_callback_isTyping. by case_match. Qed.

(** Whatever holds of the world the clock moved in, and each closure
    preserves, holds after the timers ran. *)
Lemma advance_ind (P : World St → Prop) d w :
  (∀ cb w, P w → P (run_callback cb w)) →
  P (w |> set_now (now w + d) |> set_timers (expire (now w + d))) →
  P (advance d w).
Proof.
  intros Hcb. unfold advance. cbv zeta.
  generalize (t_callback <$> due (now w + d) (timers w)). intros cbs.
  generalize (w |> set_now (now w + d) |> set_timers (expire (now w + d))).
  induction cbs as [|cb cbs IH]; intros w0 Hw0; simpl; [done|]. by apply IH, Hcb.
Qed.

Lemma advance_world_ok d w : world_ok w → world_ok (advance d w).
Proof.
  intros (Hs & Ht & Hf & Hn & Hh).
  destruct (advance_frame d w) as (_&_&Hh'&Hc&_&_&_&_&_&_&Hu&_&_&Hl).
  split_and!; [by eapply session_ok_listeners | by apply advance_typing_ok
    | by apply advance_ind; [apply run_callback_flag|] | by rewrite Hu | by rewrite Hh'].
Qed.

Lemma advance_room_ok d w : room_ok w → room_ok (advance d w).
Proof. intros Hw. by apply advance_ind; [apply run_callback_room_ok|]. Qed.

(** ** The effect *)

Lemma rerun_effect_world_ok u v w : world_ok w → world_ok (rerun_effect u v w).
Proof.
  intros (Hs & Ht & Hf & Hn & Hh).
  destruct (rerun_effect_frame u v w) as (Hst & Htm & _).
  split_and!; [by apply rerun_effect_session_ok
    | eapply typing_ok_frame; [done| |done]; by rewrite Hst
    | by rewrite Hst | by rewrite Hst | by apply rerun_effect_http_wf].
Qed.

Lemma rerun_effect_room_ok u v w :
  ch_open (sock w) = true → room_ok w → room_ok (rerun_effect u v w).
Proof. apply rerun_effect_room. Qed.

Lemma mount_rerun u v (socket : St) t :
  mount u v socket t = rerun_effect u v (mount_world socket t).
Proof. done. Qed.

Lemma mount_world_ok u v (socket : St) t :
  ch_silent socket → world_ok (mount u v socket t).
Proof.
  intros Hs. rewrite mount_rerun. apply rerun_effect_world_ok.
  split_and!; [done | split; [apply timers_init_wf | by intros i ?%elem_of_nil]
    | done | apply NoDup_nil_2 | apply http_init_wf].
Qed.

Lemma mount_room_ok u v (socket : St) t :
  ch_open socket = true → ch_sent socket = [] → room_ok (mount u v socket t).
Proof.
  intros Ho Hs. rewrite mount_rerun. apply rerun_effect_room_ok; [done|].
  unfold room_ok. simpl. by rewrite Hs.
Qed.

Lemma unmount_world_ok w : world_ok w → world_ok (unmount w).
Proof.
  intros (Hs & Ht & Hf & Hn & Hh).
  destruct (react_cleanup_env w) as (Hst & Htm & Hhttp & _).
  split_and!; unfold unmount; simpl; rewrite ?Hst, ?Hhttp; try done.
  - pose proof (unmount_silent w Hs) as Hsil. unfold session_ok. simpl.
    by rewrite react_cleanup_cleanup.
  - eapply typing_ok_frame; [| |done]; simpl; by rewrite ?Hst.
Qed.

Lemma unmount_room_ok w :
  ch_open (sock w) = true → room_ok w → room_ok (unmount w).
Proof.
  intros Ho Hw. unfold room_ok. rewrite unmount_room, unmount_cleanup; done.
Qed.

(** ** Operations inside a session

    [keeps d f]: the operation [f] preserves the invariants, leaves the
    session, the connection and the mount flag alone, and moves the clock
    by [d]. *)
Definition keeps (d : nat) (f : World St → World St) : Prop :=
  ∀ w, (world_ok w → world_ok (f w)) ∧ (room_ok w → room_ok (f w)) ∧
       cleanup (f w) = cleanup w ∧ ch_open (sock (f w)) = ch_open (sock w) ∧
       mounted (f w) = mounted w ∧ now (f w) = now w + d.

#[local] Hint Resolve deliver_world_ok resolve_world_ok sendMessage_world_ok
  handleTyping_world_ok advance_world_ok deliver_room_ok resolve_room_ok
  sendMessage_room_ok handleTyping_room_ok advance_room_ok : js.

Lemma keeps_deliver e : keeps 0 (deliver e).
Proof.
  intros w. destruct (deliver_env e w) as (Hm & Hc & Hs & _ & _ & Hn).
  split_and!; eauto with js; rewrite ?Hs; try done. lia.
Qed.

Lemma keeps_resolve id r : keeps 0 (resolve id r).
Proof.
  intros w. destruct (resolve_session id r w) as (Hc & Ho & _ & _ & Hn & Hm).
  split_and!; eauto with js; lia.
Qed.

Lemma keeps_sendMessage u v : keeps 0 (sendMessage u v).
Proof.
  intros w. destruct (sendMessage_frame u v w) as (_ & Hs & _ & _ & Hc & Hn & Hm).
  split_and!; eauto with js; rewrite ?Hs; try done. lia.
Qed.

Lemma keeps_handleTyping u v value : keeps 0 (λ w, after (handleTyping u v value w)).
Proof.
  intros w. cbv beta. destruct (handleTyping_frame u v value w)
    as (Hc & _ & Hm & Hn & _ & _ & _ & _ & _ & _ & Ho & _).
  split_and!; eauto with js; lia.
Qed.

Lemma keeps_advance d : keeps d (advance d).
Proof.
  intros w. destruct (advance_frame d w) as (_&Hn&_&Hc&Hm&_&_&_&_&_&_&_&Ho&_).
  split_and!; eauto with js.
Qed.

End invariant.

#[export] Hint Resolve keeps_deliver keeps_resolve keeps_sendMessage
  keeps_handleTyping keeps_advance : js.

#[export] Hint Resolve deliver_world_ok resolve_world_ok sendMessage_world_ok
  handleTyping_world_ok advance_world_ok rerun_effect_world_ok mount_world_ok
  unmount_world_ok deliver_room_ok resolve_room_ok sendMessage_room_ok
  handleTyping_room_ok advance_room_ok rerun_effect_room_ok mount_room_ok
  unmount_room_ok : js.
