(* ===== verification/Chat.v ===== *)
(** * Chat: the page

    Models [src/src/pages/Chat.jsx], the component that owns the socket and
    the selection, with the [ChatArea] it renders.

    - [Page] holds the [userInfo] entry of [localStorage], the
      [selectedGroup] cell, the chat area (there once the [socket] cell is
      set: [Chat.jsx] renders [ChatArea] only then) and the clock.
    - [Chat_effect] is the mount effect: it reads [userInfo], opens the
      socket, and the re-render mounts the chat area on it.
      [setSelectedGroup] is the setter handed to the sidebar: React bails
      out when the value is the one the cell holds ([Object.is]);
      otherwise the cell changes ([set_selection]) and the chat area
      renders again, which re-runs its effect ([rerender_area]).  [unmount_page] is the
      page going away: the socket is disconnected and the chat area's
      cleanup runs, in the order of [unmount_order].
    - [action] is what can happen to a page and [step] what it does; a run
      is a list of actions, [run] folds [step] over it.  The form is
      rendered only while a room is selected, so [Input] and [Submit] do
      nothing without one.
    - [page_ok] is the page's invariant; every page reachable from
      [initial_page] satisfies it ([run_page_ok]). *)

From S2P Require Import Prelude JsData Data Channel Timers Http ChatArea.
From S2P Require Import Samples Session MessageLog Presence Typing Invariant.

(** The chat area on the socket.io client. *)
Abbreviation Area := (World (Socket handler)).

(** React runs the cleanups of an unmounted subtree parent first or
    child first, depending on its version. *)
Inductive unmount_order := ParentFirst | ChildFirst.

Record Page := mkPage {
  localStorage : option UserInfo;
  selectedGroup : selection;
  chatArea : option Area;
  chat_mounted : bool;
  thrown : option js_error;
  clock : nat;
}.

Definition set_area (a : option Area) (p : Page) : Page :=
  mkPage (localStorage p) (selectedGroup p) a (chat_mounted p) (thrown p) (clock p).

Definition set_thrown (e : js_error) (p : Page) : Page :=
  mkPage (localStorage p) (selectedGroup p) (chatArea p) (chat_mounted p)
    (Some e) (clock p).

Definition set_clock (t : nat) (p : Page) : Page :=
  mkPage (localStorage p) (selectedGroup p) (chatArea p) (chat_mounted p)
    (thrown p) t.

(** The page as React first renders it: both cells [null]. *)
Definition initial_page (item : option UserInfo) : Page :=
  mkPage item JNull None true None 0.

(** The mount effect of [Chat], and the render that follows
    [setSocket]: the chat area mounts with the selection of that render. *)
Definition Chat_effect (p : Page) : Page :=
  match read_userInfo (localStorage p) with
  | Ok userInfo =>
      let newSocket := io userInfo in
      p |> set_area (Some (mount userInfo (selectedGroup p) newSocket (clock p)))
  | Throw e => p |> set_thrown e
  end.

(** The [selectedGroup] cell takes a value. *)
Definition set_selection (v : selection) (p : Page) : Page :=
  mkPage (localStorage p) v (chatArea p) (chat_mounted p) (thrown p) (clock p).

(** The render of [ChatArea] with another [selectedGroup] prop: its body
    parses [userInfo] again and its effect on [selectedGroup] re-runs. *)
Definition rerender_area (p : Page) : Page :=
  match chatArea p with
  | Some w =>
      match read_userInfo (localStorage p) with
      | Ok currentUser =>
          p |> set_area (Some (rerun_effect currentUser (selectedGroup p) w))
      | Throw e => p |> set_thrown e
      end
  | None => p
  end.

(** [setSelectedGroup(v)].  React itself drops the call when [v] is the
    object the cell holds ([Object.is]); otherwise the cell takes [v] and
    the page renders again. *)
Definition setSelectedGroup (v : selection) (p : Page) : Page :=
  if object_is (selectedGroup p) v then p
  else p |> set_selection v |> rerender_area.

(** The cleanup of the mount effect, [newSocket.disconnect()], and the
    unmount of the chat area. *)
Definition unmount_page (o : unmount_order) (p : Page) : Page :=
  let a :=
    match o with
    | ParentFirst => (λ w, w |> set_sock disconnect |> unmount) <$> chatArea p
    | ChildFirst => (λ w, w |> unmount |> set_sock disconnect) <$> chatArea p
    end in
  mkPage (localStorage p) (selectedGroup p) a false (thrown p) (clock p).

(** What the page shows: the user and the chat area, while it is mounted
    and nothing was thrown. *)
Definition rendered (p : Page) : option (UserInfo * Area) :=
  if chat_mounted p then
    match thrown p, localStorage p, chatArea p with
    | None, Some u, Some w => Some (u, w)
    | _, _, _ => None
    end
  else None.

(** The form, rendered while a room is selected. *)
Definition form (p : Page) : option (UserInfo * Area) :=
  if truthy (selectedGroup p) then rendered p else None.

Inductive action : Type :=
| RunMountEffect
| SetSelectedGroup (v : selection)
| Deliver (e : in_event)
| Input (value : string)
| Submit
| Resolve (id : nat) (r : response)
| Advance (d : nat)
| UnmountPage (o : unmount_order).

Definition step (a : action) (p : Page) : Page :=
  match a with
  | RunMountEffect =>
      match chat_mounted p, thrown p, chatArea p with
      | true, None, None => Chat_effect p
      | _, _, _ => p
      end
  | SetSelectedGroup v =>
      match chat_mounted p, thrown p with
      | true, None => setSelectedGroup v p
      | _, _ => p
      end
  | Deliver e => p |> set_area (deliver e <$> chatArea p)
  | Input value =>
      match form p with
      | Some (u, w) =>
          p |> set_area (Some (after (handleTyping u (selectedGroup p) value w)))
      | None => p
      end
  | Submit =>
      match form p with
      | Some (u, w) => p |> set_area (Some (sendMessage u (selectedGroup p) w))
      | None => p
      end
  | Resolve id r => p |> set_area (resolve id r <$> chatArea p)
  | Advance d =>
      p |> set_area (advance d <$> chatArea p) |> set_clock (clock p + d)
  | UnmountPage o => if chat_mounted p then unmount_page o p else p
  end.

Definition run (acts : list action) (p : Page) : Page :=
  foldl (λ p a, step a p) p acts.

(** The packets the page has sent. *)
Definition outbox (p : Page) : list packet :=
  from_option (λ w, sk_outbox (sock w)) [] (chatArea p).

(** ** The invariant *)

Definition page_ok (p : Page) : Prop :=
  match chatArea p with
  | None => True
  | Some w =>
      world_ok w ∧ now w = clock p ∧ is_Some (localStorage p) ∧ thrown p = None ∧
      ch_open (sock w) = chat_mounted p ∧ mounted w = chat_mounted p ∧
      if chat_mounted p
      then cleanup w = opt_chain id (selectedGroup p) ∧ room_ok w
      else cleanup w = None
  end.

(** * Facts *)

Implicit Types (p : Page) (w : Area) (u : UserInfo) (v : selection) (a : action).

Lemma rendered_Some p u w :
  rendered p = Some (u, w) →
  chat_mounted p = true ∧ thrown p = None ∧ localStorage p = Some u ∧
  chatArea p = Some w.
Proof. unfold rendered. intros. by js_cases. Qed.

Lemma form_Some p u w :
  form p = Some (u, w) →
  truthy (selectedGroup p) = true ∧ chat_mounted p = true ∧ thrown p = None ∧
  localStorage p = Some u ∧ chatArea p = Some w.
Proof.
  unfold form. destruct (truthy (selectedGroup p)); [|done].
  intros ?%rendered_Some. by split.
Qed.

Lemma run_app acts1 acts2 p : run (acts1 ++ acts2) p = run acts2 (run acts1 p).
Proof. apply foldl_app. Qed.

Lemma run_snoc acts a p : run (acts ++ [a]) p = step a (run acts p).
Proof. unfold run. by rewrite foldl_snoc. Qed.

(** ** The invariant is preserved *)

Lemma initial_page_ok item : page_ok (initial_page item).
Proof. done. Qed.

(** An operation inside the session, applied to the chat area. *)
Lemma page_ok_keeps d (f : Area → Area) p p' :
  keeps d f → chatArea p' = f <$> chatArea p → clock p' = clock p + d →
  localStorage p' = localStorage p → thrown p' = thrown p →
  chat_mounted p' = chat_mounted p → selectedGroup p' = selectedGroup p →
  page_ok p → page_ok p'.
Proof.
  intros Hk Ha Hc Hl Ht Hm Hs. unfold page_ok. rewrite Ha, Hc, Hl, Ht, Hm, Hs.
  destruct (chatArea p) as [w|]; [|done].
  change (f <$> Some w) with (Some (f w)). cbv beta iota.
  destruct (Hk w) as (Hw & Hr & -> & -> & -> & ->).
  intros (? & -> & ? & ? & ? & ? & Hrest). split_and!; auto.
  destruct (chat_mounted p); [|done]. destruct Hrest. auto.
Qed.

Lemma disconnect_world_ok w : world_ok w → world_ok (set_sock disconnect w).
Proof.
  intros (Hs & Ht & Hf & Hn & Hh). by split_and!.
Qed.

Lemma Chat_effect_page_ok p :
  chat_mounted p = true → thrown p = None → chatArea p = None →
  page_ok (Chat_effect p).
Proof.
  intros Hm Ht Ha. unfold Chat_effect, page_ok.
  destruct (localStorage p) as [u|] eqn:Hu; simpl; rewrite ?Ha, ?Hm; [|done].
  destruct (rerun_effect_frame u (selectedGroup p) (mount_world (io u) (clock p)))
    as (_ & _ & Hn & Hmt & _).
  rewrite Hu. split_and!; rewrite ?mount_rerun, ?rerun_effect_cleanup; eauto.
  - apply rerun_effect_world_ok, (mount_world_ok u JNull), io_silent.
  - exact (rerun_effect_open u _ (mount_world (io u) (clock p))).
  - by apply rerun_effect_room_ok.
Qed.

Lemma setSelectedGroup_page_ok v p :
  chat_mounted p = true → page_ok p → page_ok (setSelectedGroup v p).
Proof.
  intros Hm Hp. unfold setSelectedGroup, rerender_area, set_selection. case_match; [done|]. cbn [chatArea localStorage selectedGroup].
  unfold page_ok in *. destruct (chatArea p) as [w|]; [|done].
  destruct Hp as (Hw & Hn & [u Hu] & Ht & Ho & Hmt & Hrest).
  rewrite Hm in *. destruct Hrest as [Hc Hr]. rewrite Hu. simpl. rewrite ?Hm.
  destruct (rerun_effect_frame u v w) as (_ & _ & Hn' & Hmt' & _).
  split_and!; rewrite ?rerun_effect_cleanup; eauto with js; try congruence.
  rewrite <-Ho. exact (rerun_effect_open u v w).
Qed.

Lemma unmount_page_page_ok o p :
  chat_mounted p = true → page_ok p → page_ok (unmount_page o p).
Proof.
  intros Hm Hp. unfold page_ok, unmount_page in *.
  destruct (chatArea p) as [w|]; [|by destruct o].
  destruct Hp as (Hw & Hn & Hu & Ht & Ho & Hmt & _).
  destruct o; simpl.
  - destruct (react_cleanup_env (set_sock disconnect w)) as (_&_&_&Hn'&_).
    split_and!;
      auto using unmount_world_ok, disconnect_world_ok, react_cleanup_cleanup.
    + by rewrite Hn'.
    + exact (react_cleanup_open (set_sock disconnect w)).
  - destruct (react_cleanup_env w) as (_&_&_&Hn'&_).
    split_and!;
      auto using unmount_world_ok, disconnect_world_ok, react_cleanup_cleanup.
    by rewrite Hn'.
Qed.

(** A step that applies an operation of the session to the chat area. *)
Ltac keeps_step d f p :=
  apply (page_ok_keeps d f p);
    [eauto with js | try done | simpl; lia | done | done | done | done | done].

Lemma step_page_ok a p : page_ok p → page_ok (step a p).
Proof.
  intros Hp. destruct a; simpl.
  - destruct (chat_mounted p) eqn:?, (thrown p) eqn:?, (chatArea p) eqn:?;
      auto using Chat_effect_page_ok.
  - destruct (chat_mounted p) eqn:?, (thrown p) eqn:?;
      auto using setSelectedGroup_page_ok.
  - keeps_step 0 (deliver e) p.
  - destruct (form p) as [[u w]|] eqn:Hf; [|done].
    apply form_Some in Hf as (_ & _ & _ & _ & Ha).
    keeps_step 0 (λ w, after (handleTyping u (selectedGroup p) value w)) p.
    simpl. by rewrite Ha.
  - destruct (form p) as [[u w]|] eqn:Hf; [|done].
    apply form_Some in Hf as (_ & _ & _ & _ & Ha).
    keeps_step 0 (sendMessage (St:=Socket handler) u (selectedGroup p)) p.
    simpl. by rewrite Ha.
  - keeps_step 0 (resolve id r) p.
  - keeps_step d (advance d) p.
  - destruct (chat_mounted p) eqn:?; auto using unmount_page_page_ok.
Qed.

(** Every page a run reaches satisfies the invariant. *)
Lemma run_page_ok acts p : page_ok p → page_ok (run acts p).
Proof.
  revert p. induction acts as [|a acts IH]; intros p Hp; simpl; [done|].
  by apply IH, step_page_ok.
Qed.


(** ** Reachable pages *)

Lemma reachable_page_ok item acts : page_ok (run acts (initial_page item)).
Proof. apply run_page_ok, initial_page_ok. Qed.

(** What the invariant says of a mounted page with its chat area. *)
Lemma page_ok_mounted p w :
  page_ok p → chatArea p = Some w → chat_mounted p = true →
  world_ok w ∧ thrown p = None ∧ is_Some (localStorage p) ∧
  ch_open (sock w) = true ∧ cleanup w = opt_chain id (selectedGroup p) ∧ room_ok w.
Proof.
  unfold page_ok. intros Hp Ha Hm. rewrite Ha, Hm in Hp.
  by destruct Hp as (?&?&?&?&?&?&?&?).
Qed.

Lemma page_ok_unmounted p w :
  page_ok p → chatArea p = Some w → chat_mounted p = false →
  world_ok w ∧ ch_open (sock w) = false ∧ cleanup w = None.
Proof.
  unfold page_ok. intros Hp Ha Hm. rewrite Ha, Hm in Hp.
  by destruct Hp as (?&?&?&?&?&?&?).
Qed.

(** A selection of another object on a mounted page with a chat area. *)
Lemma setSelectedGroup_area v p w u :
  chatArea p = Some w → localStorage p = Some u →
  object_is (selectedGroup p) v = false →
  chatArea (setSelectedGroup v p) = Some (rerun_effect u v w).
Proof. unfold setSelectedGroup, rerender_area, set_selection. intros Ha Hu ->. cbn [chatArea localStorage selectedGroup]. by rewrite Ha, Hu. Qed.

Lemma session_listeners w n :
  session_ok w →
  ch_listeners (sock w) n =
    match cleanup w with Some _ => handlers_for n | None => [] end.
Proof. unfold session_ok. destruct (cleanup w); intros Hs; apply Hs. Qed.

(** Once something was thrown before the chat area appeared, nothing
    happens to the page but the clock moving. *)
Lemma thrown_stays acts p e :
  chatArea p = None → thrown p = Some e →
  chatArea (run acts p) = None ∧ thrown (run acts p) = Some e.
Proof.
  revert p. induction acts as [|a acts IH]; intros p Ha Ht; [done|].
  simpl. apply IH; destruct a; simpl; unfold form, rendered, unmount_page;
    rewrite ?Ha, ?Ht; repeat case_match; simpl; by rewrite ?Ha, ?Ht.
Qed.

(** * Properties *)

(** C1 (one room at a time): in every page a run reaches, while the page
    is mounted, the joins and leaves among the packets sent alternate,
    every leave names the room of the join before it, and the room the
    channel is left in is the selected one (none when nothing is
    selected). *)
Theorem one_session_at_a_time item acts w :
  let p := run acts (initial_page item) in
  chatArea p = Some w → chat_mounted p = true →
  room_trace (sk_outbox (sock w)) None = Some (opt_chain group_id (selectedGroup p)).
Proof.
  intros p Ha Hm.
  destruct (page_ok_mounted p w (reachable_page_ok item acts) Ha Hm)
    as (_&_&_&_&Hc&Hr).
  unfold room_ok in Hr. rewrite Hc in Hr. etrans; [exact Hr|].
  by destruct (selectedGroup p).
Qed.

(** C2 (one listener per event): in every page a run reaches, the
    listeners of an event name on the socket are the room's one handler of
    that name while the page is mounted and a room is selected, and none
    otherwise: no handler is installed twice and none outlives its room. *)
Theorem one_listener_per_event item acts w n :
  let p := run acts (initial_page item) in
  chatArea p = Some w →
  socket_listeners (sock w) n =
    if chat_mounted p && truthy (selectedGroup p) then handlers_for n else [].
Proof.
  intros p Ha. pose proof (reachable_page_ok item acts) as Hp.
  destruct (chat_mounted p) eqn:Hm.
  - destruct (page_ok_mounted p w Hp Ha Hm) as ((Hs&_)&_&_&_&Hc&_).
    etrans; [exact (session_listeners w n Hs)|]. rewrite Hc.
    by destruct (selectedGroup p).
  - destruct (page_ok_unmounted p w Hp Ha Hm) as ((Hs&_)&_&Hc).
    etrans; [exact (session_listeners w n Hs)|]. by rewrite Hc.
Qed.

(** C3 (a switch leaves, then joins): selecting another room object on a
    mounted page sends exactly two packets, the leave of the room selected
    before and then the join of the new one. *)
Theorem switch_leaves_then_joins item acts w g g' :
  let p := run acts (initial_page item) in
  chatArea p = Some w → chat_mounted p = true →
  selectedGroup p = JObj g → group_ref g ≠ group_ref g' →
  outbox (step (SetSelectedGroup (JObj g')) p) =
    outbox p ++ [("leave room", PRoomId (group_id g));
                 ("join room", PRoomId (group_id g'))].
Proof.
  intros p Ha Hm Hg Hne.
  destruct (page_ok_mounted p w (reachable_page_ok item acts) Ha Hm)
    as (_&Ht&[u Hu]&Ho&Hc&_).
  unfold outbox. simpl. rewrite Hm, Ht, Ha.
  rewrite (setSelectedGroup_area _ p w u Ha Hu); last first.
  { rewrite Hg. simpl. by apply bool_decide_eq_false. }
  simpl. etrans; [exact (rerun_effect_sent u (JObj g') w Ho)|]. by rewrite Hc, Hg.
Qed.

(** C27 (what the page's unmount sends): when the page goes away with a
    room selected, the leave of that room is sent if the chat area's
    cleanup runs before the socket is disconnected (child first) and is
    not sent if the socket is disconnected first (parent first); either
    way the socket ends closed with no listener and no session. *)
Theorem unmount_page_leave item acts w g o :
  let p := run acts (initial_page item) in
  chatArea p = Some w → chat_mounted p = true → selectedGroup p = JObj g →
  outbox (step (UnmountPage o) p) =
    outbox p ++ match o with
                | ChildFirst => [("leave room", PRoomId (group_id g))]
                | ParentFirst => []
                end.
Proof.
  intros p Ha Hm Hg.
  destruct (page_ok_mounted p w (reachable_page_ok item acts) Ha Hm)
    as (_&_&_&Ho&Hc&_).
  unfold outbox. simpl. rewrite Hm. unfold unmount_page. rewrite Ha.
  rewrite Hg in Hc. destruct o; simpl.
  - rewrite app_nil_r. exact (unmount_sent_closed (set_sock disconnect w) eq_refl).
  - etrans; [exact (unmount_sent w Ho)|]. by rewrite Hc.
Qed.

(** Events after the unmount are ignored: once the page is unmounted
    the socket is closed, and an event the server still sends changes
    nothing. *)
Theorem events_after_unmount_ignored item acts e :
  let p := run acts (initial_page item) in
  chat_mounted p = false → step (Deliver e) p = p.
Proof.
  intros p Hm. simpl. unfold set_area.
  destruct (chatArea p) as [w|] eqn:Ha; simpl.
  - destruct (page_ok_unmounted p w (reachable_page_ok item acts) Ha Hm)
      as (_&Ho&_).
    rewrite (deliver_closed e w Ho), <-Ha. by destruct p.
  - rewrite <-Ha. by destruct p.
Qed.

(** No userInfo, no page: without the [userInfo] entry the mount
    effect throws a [SyntaxError]: [JSON.parse] is given an object, not the
    string of one.  No socket is opened and no chat area appears, whatever
    happens next. *)
Theorem missing_userInfo_throws acts :
  let p := run (RunMountEffect :: acts) (initial_page None) in
  chatArea p = None ∧
  thrown p = Some (SyntaxError "[object Object] is not valid JSON").
Proof.
  exact (thrown_stays acts (step RunMountEffect (initial_page None)) _
    eq_refl eq_refl).
Qed.

(** C25 (at most one debounce timer): in every page a run reaches at most
    one timer is pending, and the ref of the chat area holds its id: a
    keystroke always cancels the timer of the keystroke before. *)
Theorem one_timer_at_most item acts w :
  chatArea (run acts (initial_page item)) = Some w →
  length (tm_pending (timers w)) ≤ 1 ∧
  ∀ t, t ∈ tm_pending (timers w) → typingTimeOutRef (st w) = Some (t_id t).
Proof.
  intros Ha. pose proof (reachable_page_ok item acts) as Hp.
  unfold page_ok in Hp. rewrite Ha in Hp. destruct Hp as ((_&Hok&_)&_).
  split; [by apply typing_ok_pending|].
  intros t Ht. apply Hok, list_elem_of_fmap. eauto.
Qed.

(** C30 (the typing flag is never raised): in every page a run reaches the
    [isTyping] cell is [false]: nothing sets it to [true], so the guard of
    [handleTyping] never holds a [typing] packet back. *)
Theorem flag_never_raised item acts w :
  chatArea (run acts (initial_page item)) = Some w → isTyping (st w) = false.
Proof.
  intros Ha. pose proof (reachable_page_ok item acts) as Hp.
  unfold page_ok in Hp. rewrite Ha in Hp. by destruct Hp as ((_&_&Hf&_)&_).
Qed.

(** C36 (typing never throws): [handleTyping] reads [selectedGroup._id]
    unguarded, which throws on [null]; the input it is bound to is rendered
    only while a room is selected, so on every page the handler returns
    normally and the draft is what was typed. *)
Theorem input_never_throws p u w value :
  form p = Some (u, w) →
  ∃ w', handleTyping u (selectedGroup p) value w = Ok w' ∧
        chatArea (step (Input value) p) = Some w' ∧ newMessage (st w') = value.
Proof.
  intros Hf. simpl. rewrite Hf. apply form_Some in Hf as (Hs & _).
  destruct (selectedGroup p) as [| |g]; [done..|].
  pose proof (handleTyping_frame u (JObj g) value w) as Hfr.
  destruct (handleTyping u (JObj g) value w) as [w'|[e w']] eqn:Hh.
  - exists w'. by destruct Hfr as (_&_&_&_&_&_&_&_&_&Hv&_).
  - unfold handleTyping in Hh. simpl in Hh. by destruct (isTyping (st w)).
Qed.

(** ** A sample run

    Alice opens the page, selects room A, the snapshot arrives, a message
    arrives, she types a letter, selects room B and waits. *)
Definition sample_run : list action :=
  [RunMountEffect; SetSelectedGroup (JObj roomA); Resolve 0 (RMessages [m1; m2]);
   Deliver (EvMessageReceived m3); Input "h"; SetSelectedGroup (JObj roomB);
   Advance 2000].

Definition sample_page : Page := run sample_run (initial_page (Some alice)).

Definition sample_area : Area := default w_idle (chatArea sample_page).

Lemma sample_area_eq : chatArea sample_page = Some sample_area.
Proof. by vm_compute. Qed.

Lemma one_session_at_a_time_witness :
  sk_outbox (sock sample_area) =
    [("join room", PRoomId "A"); ("typing", PTyping "A" "alice");
     ("leave room", PRoomId "A"); ("join room", PRoomId "B");
     ("stop typing", PStopTyping (Some "A"))] ∧
  room_trace (sk_outbox (sock sample_area)) None = Some (Some "B").
Proof.
  split; [by vm_compute|].
  witness (one_session_at_a_time (Some alice) sample_run sample_area
    sample_area_eq ltac:(by vm_compute)).
Defined.

Lemma one_listener_per_event_witness :
  socket_listeners (sock sample_area) "message received" = [OnMessageReceived].
Proof.
  witness (one_listener_per_event (Some alice) sample_run sample_area
    "message received" sample_area_eq).
Defined.

Lemma switch_leaves_then_joins_witness :
  outbox (step (SetSelectedGroup (JObj roomA_again)) sample_page) =
    outbox sample_page ++
      [("leave room", PRoomId "B"); ("join room", PRoomId "A")].
Proof.
  witness (switch_leaves_then_joins (Some alice) sample_run sample_area
    roomB roomA_again sample_area_eq ltac:(by vm_compute) ltac:(by vm_compute)
    ltac:(by vm_compute)).
Defined.

Lemma unmount_page_leave_witness :
  outbox (step (UnmountPage ChildFirst) sample_page) =
    outbox sample_page ++ [("leave room", PRoomId "B")] ∧
  outbox (step (UnmountPage ParentFirst) sample_page) = outbox sample_page.
Proof.
  split.
  - witness (unmount_page_leave (Some alice) sample_run sample_area roomB
      ChildFirst sample_area_eq ltac:(by vm_compute) ltac:(by vm_compute)).
  - witness (unmount_page_leave (Some alice) sample_run sample_area roomB
      ParentFirst sample_area_eq ltac:(by vm_compute) ltac:(by vm_compute)).
Defined.

Lemma events_after_unmount_ignored_witness :
  step (Deliver (EvMessageReceived m4))
    (run (sample_run ++ [UnmountPage ParentFirst]) (initial_page (Some alice))) =
  run (sample_run ++ [UnmountPage ParentFirst]) (initial_page (Some alice)).
Proof.
  exact (events_after_unmount_ignored (Some alice)
    (sample_run ++ [UnmountPage ParentFirst]) (EvMessageReceived m4)
    ltac:(by vm_compute)).
Defined.

(** Alice types two letters in room A, half a second apart. *)
Definition typing_run : list action :=
  [RunMountEffect; SetSelectedGroup (JObj roomA); Input "h"; Advance 500;
   Input "hi"].

Definition typing_area : Area :=
  default w_idle (chatArea (run typing_run (initial_page (Some alice)))).

Lemma typing_area_eq :
  chatArea (run typing_run (initial_page (Some alice))) = Some typing_area.
Proof. by vm_compute. Qed.

Lemma one_timer_at_most_witness :
  tm_pending (timers typing_area) = [mkTimer 2 2500 (TypingTimeout (JObj roomA))] ∧
  length (tm_pending (timers typing_area)) ≤ 1 ∧
  ∀ t, t ∈ tm_pending (timers typing_area) →
       typingTimeOutRef (st typing_area) = Some (t_id t).
Proof.
  split; [by vm_compute|].
  exact (one_timer_at_most (Some alice) typing_run typing_area typing_area_eq).
Defined.

Lemma flag_never_raised_witness :
  sk_outbox (sock typing_area) =
    [("join room", PRoomId "A"); ("typing", PTyping "A" "alice");
     ("typing", PTyping "A" "alice")] ∧
  isTyping (st typing_area) = false.
Proof.
  split; [by vm_compute|].
  exact (flag_never_raised (Some alice) typing_run typing_area typing_area_eq).
Defined.

Lemma input_never_throws_witness :
  ∃ w', handleTyping alice (JObj roomA) "hi !" typing_area = Ok w' ∧
        chatArea (step (Input "hi !") (run typing_run (initial_page (Some alice)))) =
          Some w' ∧
        newMessage (st w') = "hi !".
Proof.
  witness (input_never_throws (run typing_run (initial_page (Some alice))) alice
    typing_area "hi !" ltac:(by_compute)).
Defined.

(** ** The scenario of spec.md section 8

    Room A is selected, the snapshot is empty, alice types "hi" and sends
    it, and the backend answers with message 5. *)
Definition send_hi_run : list action :=
  [RunMountEffect; SetSelectedGroup (JObj roomA); Resolve 0 (RMessages []);
   Input "hi"; Submit; Resolve 1 (RMessage m5)].

(** Sending "hi": after the scenario the log is the one message the
    backend returned, the draft is empty, and the packets sent are the
    join of room A, the [typing] of the keystroke and one [new message]
    for room A carrying the message. *)
Example send_hi_scenario :
  let p := run send_hi_run (initial_page (Some alice)) in
  (messages ∘ st <$> chatArea p) = Some [m5] ∧
  (newMessage ∘ st <$> chatArea p) = Some "" ∧
  outbox p = [("join room", PRoomId "A"); ("typing", PTyping "A" "alice");
              ("new message", PNewMessage m5 (Some "A"))].
Proof. by vm_compute. Qed.
