(* ===== verification/Wire.v ===== *)
(** * Wire: what goes over the channel

    The packets the chat area emits against the payload table of spec.md
    section 6, and the round trip of a room entered and left.

    - [packet_ok] is the table: each event name with the shape of its
      payload, every room id present.
    - [wire_ok] says that every packet sent conforms, and that every
      [sendMessage] still waiting for its answer was submitted with a room
      selected (its answer is what emits [new message]).  Each operation
      of the chat area preserves it; [page_wire_ok] lifts it to the page.
    - [enter_leave_round_trip] is the effect followed by its cleanup. *)

From S2P Require Import Prelude JsData Data Channel Timers Http ChatArea.
From S2P Require Import Samples Session MessageLog Presence Typing Invariant Chat.

(** The payload table: each event with the payload it carries; a room id
    is never [undefined]. *)
Definition packet_ok (p : packet) : bool :=
  match p.2 with
  | PRoomId _ => is_room p
  | PNewMessage _ groupId =>
      bool_decide (p.1 = "new message") && bool_decide (is_Some groupId)
  | PTyping _ _ => bool_decide (p.1 = "typing")
  | PStopTyping groupId =>
      bool_decide (p.1 = "stop typing") && bool_decide (is_Some groupId)
  end.

Section wire.
Context {St : Type} `{!Channel St handler}.
Implicit Types (w : World St) (u : UserInfo) (v : selection) (g : Group)
  (e : in_event) (d : nat) (r : response).

(** Every packet sent conforms to the table. *)
Definition sent_ok (w : World St) : Prop :=
  Forall (λ p, packet_ok p = true) (ch_sent (sock w)).

(** Every [sendMessage] that awaits its answer was submitted with a room
    selected. *)
Definition sends_ok (w : World St) : Prop :=
  ∀ id rq ms v, h_pending (http w) !! id = Some (rq, KSendMessage ms v) →
    truthy v = true.

Definition wire_ok (w : World St) : Prop := sent_ok w ∧ sends_ok w.

Lemma sent_ok_app w w' ps :
  ch_sent (sock w') = ch_sent (sock w) ++ ps →
  Forall (λ p, packet_ok p = true) ps → sent_ok w → sent_ok w'.
Proof. unfold sent_ok. intros -> Hps Hw. by apply Forall_app. Qed.

Lemma sent_ok_if w w' (b : bool) ps :
  ch_sent (sock w') = (if b then ch_sent (sock w) ++ ps else ch_sent (sock w)) →
  Forall (λ p, packet_ok p = true) ps → sent_ok w → sent_ok w'.
Proof.
  intros Hs Hps Hw. destruct b; [by eapply sent_ok_app|]. unfold sent_ok. by rewrite Hs.
Qed.

Lemma sent_ok_frame w w' : ch_sent (sock w') = ch_sent (sock w) → sent_ok w → sent_ok w'.
Proof. unfold sent_ok. by intros ->. Qed.

Lemma sends_ok_frame w w' : http w' = http w → sends_ok w → sends_ok w'.
Proof. unfold sends_ok. by intros ->. Qed.

Lemma sends_ok_send w w' rq k :
  http w' = http_send rq k (http w) →
  (∀ ms v, k = KSendMessage ms v → truthy v = true) →
  sends_ok w → sends_ok w'.
Proof.
  unfold sends_ok. intros -> Hk Hw id rq' ms v. simpl.
  rewrite lookup_insert_Some. intros [[_ [= <- ->]]|[_ Hid]]; eauto.
Qed.

Lemma sends_ok_take w w' id :
  http w' = (http_take id (http w)).2 → sends_ok w → sends_ok w'.
Proof.
  unfold sends_ok. intros -> Hw i rq ms v. simpl.
  rewrite lookup_delete_Some. intros [_ Hi]. eauto.
Qed.

(** ** The operations *)

Lemma deliver_wire_ok e w : wire_ok w → wire_ok (deliver e w).
Proof.
  destruct (deliver_env e w) as (_&_&Hs&_&Hh&_). intros [H1 H2].
  split; [apply (sent_ok_frame w); [by rewrite Hs|done] | by apply (sends_ok_frame w)].
Qed.

Lemma react_cleanup_wire_ok w : wire_ok w → wire_ok (react_cleanup w).
Proof.
  intros [H1 H2]. destruct (react_cleanup_env w) as (_&_&Hh&_).
  split; [|by eapply sends_ok_frame].
  pose proof (react_cleanup_sent w) as Hs. destruct (cleanup w) as [g|].
  - by eapply (sent_ok_if w _ _ [_]); [exact Hs|repeat constructor|].
  - by eapply sent_ok_frame.
Qed.

Lemma rerun_effect_wire_ok u v w : wire_ok w → wire_ok (rerun_effect u v w).
Proof.
  intros [H1' H2']%react_cleanup_wire_ok. unfold rerun_effect.
  split.
  - destruct v as [| |g]; [done..|].
    by eapply (sent_ok_if _ _ _ [_]); [apply effect_sent|repeat constructor|].
  - pose proof (effect_http u v (react_cleanup w)) as Hh'.
    destruct (truthy v); [|by eapply sends_ok_frame].
    by eapply sends_ok_send.
Qed.

Lemma sendMessage_resolved_wire_ok ms v r w :
  truthy v = true → wire_ok w → wire_ok (sendMessage_resolved ms v r w).
Proof.
  intros Hv [H1 H2].
  destruct (sendMessage_resolved_frame ms v r w) as (_&_&Hh&_).
  split; [|by apply (sends_ok_frame w)].
  destruct r; try done. destruct v as [| |g]; [done..|].
  destruct (sendMessage_succeeded ms (JObj g) data w) as (_&_&Hs&_).
  by eapply (sent_ok_if w _ _ [_]); [exact Hs|repeat constructor|].
Qed.

Lemma resolve_wire_ok id r w : wire_ok w → wire_ok (resolve id r w).
Proof.
  intros [H1 H2]. unfold resolve.
  destruct (http_take id (http w)) as [[[rq [|ms v]]|] h] eqn:Ht; [| |done].
  all: assert (wire_ok (set_http (λ _, h) w)) as Hw
    by (split; [done|apply (sends_ok_take w _ id); [by rewrite Ht|done]]).
  - destruct (fetchMessages_resolved_env r (set_http (λ _, h) w)) as (_&_&Hs&_&Hh&_).
    destruct Hw. split; [apply (sent_ok_frame (set_http (λ _, h) w)); [by rewrite Hs|done]
                        |by apply (sends_ok_frame (set_http (λ _, h) w))].
  - apply sendMessage_resolved_wire_ok; [|done].
    apply (H2 id rq ms). by apply (f_equal fst) in Ht.
Qed.

Lemma sendMessage_wire_ok u v w :
  truthy v = true → wire_ok w → wire_ok (sendMessage u v w).
Proof.
  intros Hv [H1 H2]. destruct (sendMessage_frame u v w) as (_&Hs&_).
  split; [apply (sent_ok_frame w); [by rewrite Hs|done]|].
  destruct (blank (newMessage (st w))) eqn:Hb; [by rewrite sendMessage_blank|].
  eapply sends_ok_send; [by apply sendMessage_http| |done]. by intros ?? [= _ <-].
Qed.

Lemma handleTyping_wire_ok u v value w :
  wire_ok w → wire_ok (after (handleTyping u v value w)).
Proof.
  intros [H1 H2].
  destruct (handleTyping_frame u v value w) as (_&Hh&_&_&_&_&_&_&_&_&_&_&Hs).
  split; [|by apply (sends_ok_frame w)].
  eapply sent_ok_app; [exact Hs| |done]. unfold typing_packets.
  repeat case_match; by repeat constructor.
Qed.

Lemma run_callback_wire_ok cb w : wire_ok w → wire_ok (run_callback cb w).
Proof.
  intros [H1 H2]. destruct cb as [v]. split.
  - eapply sent_ok_if; [apply run_callback_sent| |done].
    unfold stop_packets. destruct v; by repeat constructor.
  - apply (sends_ok_frame w); [|done]. unfold run_callback. by case_match.
Qed.

Lemma advance_wire_ok d w : wire_ok w → wire_ok (advance d w).
Proof. intros Hw. apply advance_ind; [apply run_callback_wire_ok | done]. Qed.

Lemma unmount_wire_ok w : wire_ok w → wire_ok (unmount w).
Proof.
  intros [H1 H2]%react_cleanup_wire_ok.
  split; [by apply (sent_ok_frame (react_cleanup w))
         |by apply (sends_ok_frame (react_cleanup w))].
Qed.
End wire.

(** ** A room entered and left *)

Section round_trip.
Context {St : Type} `{!Channel St handler}.
Implicit Types (w : World St) (u : UserInfo) (g : Group).

(** C19 (entering a room and leaving it): on an open channel with no
    session, selecting a room and then deselecting it brings the channel
    back: the listener table and the absent session are what they were,
    the cells and the timers are untouched, and the two packets sent, the
    join and the leave of that room, cancel in the room protocol. *)
Theorem enter_leave_round_trip u g w :
  session_ok w → cleanup w = None → ch_open (sock w) = true →
  let w' := rerun_effect u JNull (rerun_effect u (JObj g) w) in
  (∀ n, ch_listeners (sock w') n = ch_listeners (sock w) n) ∧
  cleanup w' = cleanup w ∧ st w' = st w ∧ timers w' = timers w ∧
  ch_sent (sock w') =
    ch_sent (sock w) ++ [("join room", PRoomId (group_id g));
                         ("leave room", PRoomId (group_id g))] ∧
  room_trace [("join room", PRoomId (group_id g));
              ("leave room", PRoomId (group_id g))] None = Some None.
Proof.
  intros Hok Hc Ho. cbv zeta.
  pose proof (rerun_effect_session_ok u JNull _ (rerun_effect_session_ok u (JObj g) w Hok))
    as Hok'.
  unfold session_ok in Hok, Hok'. rewrite rerun_effect_cleanup in Hok'. rewrite Hc in Hok.
  split_and!.
  - intros n. etrans; [apply Hok'|]. symmetry. apply Hok.
  - by rewrite rerun_effect_cleanup, Hc.
  - by rewrite !rerun_effect_st.
  - by rewrite !rerun_effect_timers.
  - rewrite rerun_effect_sent by by rewrite rerun_effect_open.
    rewrite rerun_effect_sent, rerun_effect_cleanup, Hc by done.
    simpl. by rewrite <-app_assoc.
  - unfold room_trace. cbn [foldl mbind option_bind]. rewrite room_step_join.
    cbn [mbind option_bind]. apply room_step_leave.
Qed.

End round_trip.

(** ** The page *)

Definition page_wire_ok (p : Page) : Prop :=
  from_option (wire_ok (St:=Socket handler)) True (chatArea p).

Lemma mount_wire_ok u v t : wire_ok (mount u v (io u) t).
Proof.
  rewrite mount_rerun. apply rerun_effect_wire_ok. split.
  - unfold sent_ok. simpl. constructor.
  - intros id rq ms v'. simpl. by rewrite lookup_empty.
Qed.

Lemma disconnect_wire_ok (w : Area) : wire_ok w → wire_ok (set_sock disconnect w).
Proof. intros [H1 H2]. by split. Qed.

Lemma page_wire_ok_fmap (f : Area → Area) p p' :
  (∀ w, wire_ok w → wire_ok (f w)) → chatArea p' = f <$> chatArea p →
  page_wire_ok p → page_wire_ok p'.
Proof.
  unfold page_wire_ok. intros Hf ->. destruct (chatArea p) as [w|]; [|done]. apply Hf.
Qed.

Lemma step_wire_ok a p : page_wire_ok p → page_wire_ok (step a p).
Proof.
  intros Hp. destruct a; simpl.
  - destruct (chat_mounted p), (thrown p), (chatArea p) eqn:Ha; try done.
    unfold Chat_effect. destruct (localStorage p) as [u|]; simpl; [|done].
    apply mount_wire_ok.
  - destruct (chat_mounted p), (thrown p); try done.
    unfold setSelectedGroup, rerender_area, set_selection, page_wire_ok in *.
    case_match; [done|]. cbn [chatArea localStorage selectedGroup] in *.
    destruct (chatArea p) as [w|]; [|done].
    destruct (localStorage p) as [u|]; simpl; [|done].
    by apply rerun_effect_wire_ok.
  - by apply (page_wire_ok_fmap (deliver e) p); [apply deliver_wire_ok|..].
  - destruct (form p) as [[u w]|] eqn:Hf; [|done].
    apply form_Some in Hf as (_ & _ & _ & _ & Ha).
    apply (page_wire_ok_fmap (λ w, after (handleTyping u (selectedGroup p) value w)) p);
      [intros; by apply handleTyping_wire_ok | by rewrite Ha | done].
  - destruct (form p) as [[u w]|] eqn:Hf; [|done].
    apply form_Some in Hf as (Hv & _ & _ & _ & Ha).
    apply (page_wire_ok_fmap (sendMessage u (selectedGroup p)) p);
      [intros; by apply sendMessage_wire_ok | by rewrite Ha | done].
  - by apply (page_wire_ok_fmap (resolve id r) p); [apply resolve_wire_ok|..].
  - by apply (page_wire_ok_fmap (advance d) p); [apply advance_wire_ok|..].
  - destruct (chat_mounted p); [|done]. unfold unmount_page, page_wire_ok in *.
    destruct (chatArea p) as [w|]; [|by destruct o].
    destruct o; simpl; auto using disconnect_wire_ok, unmount_wire_ok.
Qed.

Lemma run_wire_ok acts p : page_wire_ok p → page_wire_ok (run acts p).
Proof.
  revert p. induction acts as [|a acts IH]; intros p Hp; [done|].
  by apply IH, step_wire_ok.
Qed.

(** C13 (the outbox conforms to the payload table): every packet a
    reachable page has sent carries the payload of its event: a room id
    with [join room] and [leave room], a message and a room id with
    [new message], a room id and a username with [typing], a room id with
    [stop typing]; no room id is [undefined]. *)
Theorem outbox_conforms item acts :
  Forall (λ p, packet_ok p = true) (outbox (run acts (initial_page item))).
Proof.
  pose proof (run_wire_ok acts (initial_page item) I) as Hw.
  unfold page_wire_ok, outbox in *.
  destruct (chatArea _) as [w|]; [by destruct Hw | constructor].
Qed.

(** ** Sample *)

Lemma enter_leave_round_trip_witness :
  let w' := rerun_effect alice JNull (rerun_effect alice (JObj roomA) w_idle) in
  (∀ n, ch_listeners (sock w') n = ch_listeners (sock w_idle) n) ∧
  cleanup w' = cleanup w_idle ∧ st w' = st w_idle ∧ timers w' = timers w_idle ∧
  ch_sent (sock w') =
    ch_sent (sock w_idle) ++ [("join room", PRoomId (group_id roomA));
                              ("leave room", PRoomId (group_id roomA))] ∧
  room_trace [("join room", PRoomId (group_id roomA));
              ("leave room", PRoomId (group_id roomA))] None = Some None.
Proof.
  exact (enter_leave_round_trip alice roomA w_idle w_idle_session_ok
    ltac:(by_compute) ltac:(by_compute)).
Defined.
