(* ===== verification/Sidebar.v ===== *)
(** * Sidebar: the group list

    Models [src/src/components/Sidebar.jsx]: the list of groups, the
    memberships of the user, and the handlers that create, join and leave a
    group and select the room of the chat area.

    - [SidebarState] holds the [useState] cells and the modal's [isOpen];
      [Sidebar] adds the requests in flight, the toasts, the console, the
      calls made to the [setSelectedGroup] prop, the routes navigated to,
      the [userInfo] entry of [localStorage] and the errors no handler
      caught.
    - Each [async] handler is split at its [await]s: [handleJoinGroup]
      sends the POST; [handleJoinGroup_resolved] runs on its answer and
      awaits [fetchGroups]; [after_fetchGroups] is what runs once that
      returned.  A continuation carries what its closure captured: the
      [groups] of the render the handler was created in.
    - [click_group] and [click_button] are the two [onClick] closures of a
      group's entry. *)

From S2P Require Import Prelude JsData Data Channel Timers Http ChatArea Samples.

(** ** State *)

Record SidebarState := mkSidebarState {
  groups : list Group;
  userGroups : list string;
  newGroupName : string;
  newGroupDescription : string;
  isAdmin : bool;
  isOpen : bool;
}.

Definition initial_sidebar_state : SidebarState :=
  mkSidebarState [] [] "" "" false false.

(** What runs once an awaited [fetchGroups] returned. *)
Inductive after_fetch : Type :=
| FetchOnly
| ThenJoined (groups : list Group) (groupId : string)
| ThenLeft.

(** What waits for an HTTP answer. *)
Inductive sb_continuation : Type :=
| KCheckAdminStatus
| KFetchGroups (next : after_fetch)
| KCreateGroup
| KJoinGroup (groups : list Group) (groupId : string)
| KLeaveGroup.

Record Sidebar := mkSidebar {
  sb_st : SidebarState;
  sb_http : Http sb_continuation;
  sb_toasts : list Toast;
  sb_console : list http_error;
  sb_selected : list selection;
  sb_navigated : list string;
  sb_storage : option UserInfo;
  sb_unhandled : list js_error;
}.

Implicit Types (s : Sidebar) (u userInfo : UserInfo) (r : response).

(** ** Updates *)

Definition sb_set_st (f : SidebarState → SidebarState) (s : Sidebar) : Sidebar :=
  mkSidebar (f (sb_st s)) (sb_http s) (sb_toasts s) (sb_console s)
    (sb_selected s) (sb_navigated s) (sb_storage s) (sb_unhandled s).

Definition sb_send (rq : Request) (k : sb_continuation) (s : Sidebar) : Sidebar :=
  mkSidebar (sb_st s) (http_send rq k (sb_http s)) (sb_toasts s) (sb_console s)
    (sb_selected s) (sb_navigated s) (sb_storage s) (sb_unhandled s).

Definition sb_set_http (h : Http sb_continuation) (s : Sidebar) : Sidebar :=
  mkSidebar (sb_st s) h (sb_toasts s) (sb_console s)
    (sb_selected s) (sb_navigated s) (sb_storage s) (sb_unhandled s).

(** [toast({...})]. *)
Definition sb_toast (t : Toast) (s : Sidebar) : Sidebar :=
  mkSidebar (sb_st s) (sb_http s) (sb_toasts s ++ [t]) (sb_console s)
    (sb_selected s) (sb_navigated s) (sb_storage s) (sb_unhandled s).

(** [console.log(error)]. *)
Definition sb_console_log (e : http_error) (s : Sidebar) : Sidebar :=
  mkSidebar (sb_st s) (sb_http s) (sb_toasts s) (sb_console s ++ [e])
    (sb_selected s) (sb_navigated s) (sb_storage s) (sb_unhandled s).

(** A call of the [setSelectedGroup] prop. *)
Definition sb_select (v : selection) (s : Sidebar) : Sidebar :=
  mkSidebar (sb_st s) (sb_http s) (sb_toasts s) (sb_console s)
    (sb_selected s ++ [v]) (sb_navigated s) (sb_storage s) (sb_unhandled s).

(** An error thrown inside an [async] function with no handler left. *)
Definition sb_throw (e : js_error) (s : Sidebar) : Sidebar :=
  mkSidebar (sb_st s) (sb_http s) (sb_toasts s) (sb_console s)
    (sb_selected s) (sb_navigated s) (sb_storage s) (sb_unhandled s ++ [e]).

Definition setGroups (data : list Group) : Sidebar → Sidebar :=
  sb_set_st (λ t, mkSidebarState data (userGroups t) (newGroupName t)
                    (newGroupDescription t) (isAdmin t) (isOpen t)).

Definition setUserGroups (ids : list string) : Sidebar → Sidebar :=
  sb_set_st (λ t, mkSidebarState (groups t) ids (newGroupName t)
                    (newGroupDescription t) (isAdmin t) (isOpen t)).

Definition setNewGroupName (v : string) : Sidebar → Sidebar :=
  sb_set_st (λ t, mkSidebarState (groups t) (userGroups t) v
                    (newGroupDescription t) (isAdmin t) (isOpen t)).

Definition setNewGroupDescription (v : string) : Sidebar → Sidebar :=
  sb_set_st (λ t, mkSidebarState (groups t) (userGroups t) (newGroupName t)
                    v (isAdmin t) (isOpen t)).

Definition setIsAdmin (b : bool) : Sidebar → Sidebar :=
  sb_set_st (λ t, mkSidebarState (groups t) (userGroups t) (newGroupName t)
                    (newGroupDescription t) b (isOpen t)).

(** [onOpen] and [onClose] of [useDisclosure]. *)
Definition set_isOpen (b : bool) : Sidebar → Sidebar :=
  sb_set_st (λ t, mkSidebarState (groups t) (userGroups t) (newGroupName t)
                    (newGroupDescription t) (isAdmin t) b).

(** ** checkAdminStatus *)

Definition checkAdminStatus (userInfo : UserInfo) (s : Sidebar) : Sidebar :=
  s |> sb_send
    (mkRequest GET (ENDPOINT +:+ "/api/users/" +:+ ui_id userInfo) BNone
       (bearer (ui_token userInfo)))
    KCheckAdminStatus.

(** [setIsAdmin(data.user?.isAdmin || false)]. *)
Definition checkAdminStatus_resolved (r : response) (s : Sidebar) : Sidebar :=
  match r with
  | RUser data_user_isAdmin => s |> setIsAdmin (default false data_user_isAdmin)
  | RError error => s |> sb_console_log error
  | _ => s
  end.

(** ** fetchGroups *)

Definition fetchGroups (userInfo : UserInfo) (next : after_fetch) (s : Sidebar) : Sidebar :=
  s |> sb_send
    (mkRequest GET (ENDPOINT +:+ "/api/groups") BNone (bearer (ui_token userInfo)))
    (KFetchGroups next).

(** The ids of the groups that list the user among their members. *)
Definition userGroupIds (userInfo : UserInfo) (data : list Group) : list string :=
  group_id <$>
    filter (λ group, Exists (λ member, user_id member = ui_id userInfo) (members group))
      data.

Definition success_toast (t : string) : Toast :=
  mkToast t None "success" true 3000 None.

(** The rest of [handleJoinGroup], after [await fetchGroups()]: [groups]
    is the list of the render the handler was created in. *)
Definition handleJoinGroup_fetched (groups : list Group) (groupId : string)
    (s : Sidebar) : Sidebar :=
  s |> sb_select (array_find (λ g, bool_decide (group_id g = groupId)) groups)
    |> sb_toast (success_toast "Joined group successfully").

(** The rest of [handleLeaveGroup], after [await fetchGroups()]. *)
Definition handleLeaveGroup_fetched (s : Sidebar) : Sidebar :=
  s |> sb_select JNull
    |> sb_toast (success_toast "Leave group successfully").

(** Whoever awaited [fetchGroups] goes on. *)
Definition after_fetchGroups (next : after_fetch) (s : Sidebar) : Sidebar :=
  match next with
  | FetchOnly => s
  | ThenJoined groups groupId => s |> handleJoinGroup_fetched groups groupId
  | ThenLeft => s |> handleLeaveGroup_fetched
  end.

(** [fetchGroups] catches its own errors, so whoever awaits it goes on
    either way. *)
Definition fetchGroups_resolved (userInfo : UserInfo) (next : after_fetch)
    (r : response) (s : Sidebar) : Sidebar :=
  let s :=
    match r with
    | RGroups data => s |> setGroups data |> setUserGroups (userGroupIds userInfo data)
    | RError error => s |> sb_console_log error
    | _ => s
    end in
  s |> after_fetchGroups next.

(** ** The error toasts

    [description: error.response.data.message || "An error occurred"]:
    reading [data] of a missing [response], or [message] of a missing
    [data], throws inside the [catch]. *)
Definition error_description (error : http_error) : result js_error string :=
  match error with
  | NoResponse =>
      Throw (TypeError "Cannot read properties of undefined (reading 'data')")
  | NoData =>
      Throw (TypeError "Cannot read properties of undefined (reading 'message')")
  | ErrorResponse message =>
      Ok (match message with
          | Some m => if decide (m = "") then "An error occurred" else m
          | None => "An error occurred"
          end)
  end.

Definition described_error_toast (t : string) (error : http_error) (s : Sidebar) : Sidebar :=
  match error_description error with
  | Ok description => s |> sb_toast (mkToast t (Some description) "error" true 3000 None)
  | Throw e => s |> sb_throw e
  end.

(** ** handleCreateGroup *)

Definition handleCreateGroup (userInfo : UserInfo) (s : Sidebar) : Sidebar :=
  s |> sb_send
    (mkRequest POST (ENDPOINT +:+ "/api/groups")
       (BGroup (newGroupName (sb_st s)) (newGroupDescription (sb_st s)))
       (bearer (ui_token userInfo)))
    KCreateGroup.

Definition handleCreateGroup_resolved (userInfo : UserInfo) (r : response)
    (s : Sidebar) : Sidebar :=
  match r with
  | RError error => s |> described_error_toast "Error creating group" error
  | _ =>
      s |> sb_toast (success_toast "Group created")
        |> setNewGroupName ""
        |> setNewGroupDescription ""
        |> set_isOpen false
        |> fetchGroups userInfo FetchOnly
  end.

(** ** handleJoinGroup *)

Definition handleJoinGroup (userInfo : UserInfo) (groupId : string) (s : Sidebar) : Sidebar :=
  s |> sb_send
    (mkRequest POST (ENDPOINT +:+ "/api/groups/join/" +:+ groupId) BEmpty
       (bearer (ui_token userInfo)))
    (KJoinGroup (groups (sb_st s)) groupId).

Definition handleJoinGroup_resolved (userInfo : UserInfo) (groups : list Group)
    (groupId : string) (r : response) (s : Sidebar) : Sidebar :=
  match r with
  | RError error =>
      s |> sb_console_log error
        |> described_error_toast "Error Joining group" error
  | _ => s |> fetchGroups userInfo (ThenJoined groups groupId)
  end.

(** ** handleLeaveGroup *)

Definition handleLeaveGroup (userInfo : UserInfo) (groupId : string) (s : Sidebar) : Sidebar :=
  s |> sb_send
    (mkRequest POST (ENDPOINT +:+ "/api/groups/leave/" +:+ groupId) BEmpty
       (bearer (ui_token userInfo)))
    KLeaveGroup.

Definition handleLeaveGroup_resolved (userInfo : UserInfo) (r : response)
    (s : Sidebar) : Sidebar :=
  match r with
  | RError error => s |> described_error_toast "Error leaving group" error
  | _ => s |> fetchGroups userInfo ThenLeft
  end.

(** ** handleLogout *)

Definition handleLogout (s : Sidebar) : Sidebar :=
  mkSidebar (sb_st s) (sb_http s) (sb_toasts s) (sb_console s)
    (sb_selected s) (sb_navigated s ++ ["/login"]) None (sb_unhandled s).

(** ** The component *)

(** The first render and the mount effect: [checkAdminStatus()], then
    [fetchGroups()]. *)
Definition sidebar_mount (userInfo : UserInfo) : Sidebar :=
  mkSidebar initial_sidebar_state http_init [] [] [] [] (Some userInfo) []
    |> checkAdminStatus userInfo
    |> fetchGroups userInfo FetchOnly.

(** The [onClick] of a group's name: [userGroups.includes(group._id) &&
    setSelectedGroup(group)]. *)
Definition click_group (group : Group) (s : Sidebar) : Sidebar :=
  if bool_decide (group_id group ∈ userGroups (sb_st s))
  then s |> sb_select (JObj group)
  else s.

(** The [onClick] of a group's button. *)
Definition click_button (userInfo : UserInfo) (group : Group) (s : Sidebar) : Sidebar :=
  if bool_decide (group_id group ∈ userGroups (sb_st s))
  then s |> handleLeaveGroup userInfo (group_id group)
  else s |> handleJoinGroup userInfo (group_id group).

(** The function suspended at an [await] goes on with the answer. *)
Definition sb_continue (userInfo : UserInfo) (k : sb_continuation) (r : response)
    (s : Sidebar) : Sidebar :=
  match k with
  | KCheckAdminStatus => s |> checkAdminStatus_resolved r
  | KFetchGroups next => s |> fetchGroups_resolved userInfo next r
  | KCreateGroup => s |> handleCreateGroup_resolved userInfo r
  | KJoinGroup groups groupId => s |> handleJoinGroup_resolved userInfo groups groupId r
  | KLeaveGroup => s |> handleLeaveGroup_resolved userInfo r
  end.

(** The answer to request [id] arrives. *)
Definition sb_resolve (userInfo : UserInfo) (id : nat) (r : response)
    (s : Sidebar) : Sidebar :=
  match http_take id (sb_http s) with
  | (Some (_, k), h) => s |> sb_set_http h |> sb_continue userInfo k r
  | (None, _) => s
  end.

(** An answer that is not a rejection. *)
Definition fulfilled (r : response) : bool :=
  match r with RError _ => false | _ => true end.

(** * Facts *)

Lemma elem_of_userGroupIds u data x :
  x ∈ userGroupIds u data ↔
  ∃ g, g ∈ data ∧ group_id g = x ∧ ∃ m, m ∈ members g ∧ user_id m = ui_id u.
Proof.
  unfold userGroupIds. rewrite list_elem_of_fmap.
  setoid_rewrite list_elem_of_filter. setoid_rewrite Exists_exists. naive_solver.
Qed.

(** The groups the user is a member of are a sublist of the list, in its
    order. *)
Lemma userGroupIds_sublist u data :
  userGroupIds u data `sublist_of` group_id <$> data.
Proof. unfold userGroupIds. apply fmap_sublist, sublist_filter. Qed.

Lemma userGroupIds_NoDup u data :
  NoDup (group_id <$> data) → NoDup (userGroupIds u data).
Proof. intros Hnd. exact (sublist_NoDup _ _ Hnd (userGroupIds_sublist u data)). Qed.

(** With distinct ids, a group of the list is among the user's groups
    exactly when the user is one of its members. *)
Lemma userGroupIds_member u data g :
  NoDup (group_id <$> data) → g ∈ data →
  group_id g ∈ userGroupIds u data ↔
  Exists (λ member, user_id member = ui_id u) (members g).
Proof.
  intros Hnd Hg. rewrite elem_of_userGroupIds, Exists_exists. split; [|by eauto].
  intros (g' & Hg' & Hid & Hm).
  by rewrite <-(NoDup_fmap_eq group_id data g' g Hnd Hg' Hg Hid).
Qed.

(** The answer to the request just sent resumes its continuation. *)
Lemma sb_resolve_send u rq k r s :
  http_wf (sb_http s) →
  sb_resolve u (h_next (sb_http s)) r (sb_send rq k s) =
    s |> sb_set_http (mkHttp (S (h_next (sb_http s))) (h_pending (sb_http s)))
      |> sb_continue u k r.
Proof.
  intros Hwf. unfold sb_resolve.
  change (sb_http (sb_send rq k s)) with (http_send rq k (sb_http s)).
  by rewrite http_take_send.
Qed.

Lemma sb_resolve_unknown u id r s :
  h_pending (sb_http s) !! id = None → sb_resolve u id r s = s.
Proof. unfold sb_resolve, http_take. by intros ->. Qed.

(** A handler that only sends a request leaves everything else alone. *)
Lemma sb_send_frame rq k s :
  sb_st (sb_send rq k s) = sb_st s ∧ sb_toasts (sb_send rq k s) = sb_toasts s ∧
  sb_console (sb_send rq k s) = sb_console s ∧
  sb_selected (sb_send rq k s) = sb_selected s ∧
  sb_unhandled (sb_send rq k s) = sb_unhandled s ∧
  sb_storage (sb_send rq k s) = sb_storage s.
Proof. done. Qed.

Lemma sb_send_wf rq k s : http_wf (sb_http s) → http_wf (sb_http (sb_send rq k s)).
Proof. apply http_send_wf. Qed.

(** The selections an awaited [fetchGroups] is followed by. *)
Definition selections_after (next : after_fetch) : list selection :=
  match next with
  | FetchOnly => []
  | ThenJoined groups groupId =>
      [array_find (λ g, bool_decide (group_id g = groupId)) groups]
  | ThenLeft => [JNull]
  end.

Lemma fetchGroups_resolved_selected u next r s :
  sb_selected (fetchGroups_resolved u next r s) =
    sb_selected s ++ selections_after next.
Proof. destruct r, next; simpl; by rewrite ?app_nil_r. Qed.

Lemma fetchGroups_resolved_st u next data s :
  groups (sb_st (fetchGroups_resolved u next (RGroups data) s)) = data ∧
  userGroups (sb_st (fetchGroups_resolved u next (RGroups data) s)) =
    userGroupIds u data.
Proof. by destruct next. Qed.

(** A POST that was fulfilled is followed by [fetchGroups]. *)
Lemma handleJoinGroup_resolved_fulfilled u gs groupId r s :
  fulfilled r = true →
  handleJoinGroup_resolved u gs groupId r s = fetchGroups u (ThenJoined gs groupId) s.
Proof. by destruct r. Qed.

Lemma handleLeaveGroup_resolved_fulfilled u r s :
  fulfilled r = true → handleLeaveGroup_resolved u r s = fetchGroups u ThenLeft s.
Proof. by destruct r. Qed.

(** A handler that awaits a POST and then [fetchGroups]: the selections
    made once both were answered. *)
Lemma resolve_then_fetch u rq k next r r' s :
  http_wf (sb_http s) →
  (∀ s0, sb_continue u k r s0 = fetchGroups u next s0) →
  let s1 := sb_send rq k s in
  let s2 := sb_resolve u (h_next (sb_http s)) r s1 in
  let s3 := sb_resolve u (S (h_next (sb_http s))) r' s2 in
  sb_selected s2 = sb_selected s ∧
  sb_selected s3 = sb_selected s ++ selections_after next.
Proof.
  intros Hwf Hk. cbv zeta. rewrite sb_resolve_send, Hk by done.
  split; [done|]. unfold fetchGroups.
  set (s0 := sb_set_http _ s).
  change (S (h_next (sb_http s))) with (h_next (sb_http s0)).
  rewrite sb_resolve_send by by apply http_answered_wf.
  simpl sb_continue. by rewrite fetchGroups_resolved_selected.
Qed.

(** * Properties *)

(** C37 (only a joined room can be selected): once the list of groups has
    arrived, with distinct ids, clicking the name of a group of the list
    selects it exactly when the user is among its members; clicking any
    other group selects nothing. *)
Theorem click_selects_members_only u next data g s :
  NoDup (group_id <$> data) → g ∈ data →
  let listed := fetchGroups_resolved u next (RGroups data) s in
  sb_selected (click_group g listed) =
    sb_selected listed ++
      (if decide (Exists (λ member, user_id member = ui_id u) (members g))
       then [JObj g] else []).
Proof.
  intros Hnd Hg. cbv zeta. unfold click_group.
  destruct (fetchGroups_resolved_st u next data s) as [_ ->].
  pose proof (userGroupIds_member u data g Hnd Hg) as Hm.
  case_bool_decide; case_decide; simpl; rewrite ?app_nil_r; tauto.
Qed.

(** A join is awaited before the room is selected: [handleJoinGroup]
    selects nothing when the button is clicked and nothing when the POST is
    answered; once the list was fetched again it selects the group of that
    id in the list of the render the button was clicked in, not in the
    list just fetched. *)
Theorem join_selects_after_both_answers u groupId s r r' :
  http_wf (sb_http s) → fulfilled r = true →
  let s1 := handleJoinGroup u groupId s in
  let s2 := sb_resolve u (h_next (sb_http s)) r s1 in
  let s3 := sb_resolve u (S (h_next (sb_http s))) r' s2 in
  sb_selected s1 = sb_selected s ∧ sb_selected s2 = sb_selected s ∧
  sb_selected s3 =
    sb_selected s ++
      [array_find (λ g, bool_decide (group_id g = groupId)) (groups (sb_st s))].
Proof.
  intros Hwf Hr. split; [done|]. apply (resolve_then_fetch u _ _
    (ThenJoined (groups (sb_st s)) groupId)); [done|].
  intros s0. by apply handleJoinGroup_resolved_fulfilled.
Qed.

(** Leaving any group clears the selection: once the POST of
    [handleLeaveGroup] and the fetch after it were answered, the selection
    is set to [null], whichever group was left and whichever room is
    selected. *)
Theorem leave_clears_selection u groupId s r r' :
  http_wf (sb_http s) → fulfilled r = true →
  let s1 := handleLeaveGroup u groupId s in
  let s2 := sb_resolve u (h_next (sb_http s)) r s1 in
  let s3 := sb_resolve u (S (h_next (sb_http s))) r' s2 in
  sb_selected s2 = sb_selected s ∧ sb_selected s3 = sb_selected s ++ [JNull].
Proof.
  intros Hwf Hr. apply (resolve_then_fetch u _ _ ThenLeft); [done|].
  intros s0. by apply handleLeaveGroup_resolved_fulfilled.
Qed.

(** A refused join selects nothing: when the server refuses the
    join, nothing is selected, the state cells are unchanged, the error is
    logged and one error toast shows the server's message, or
    "An error occurred" when it has none. *)
Theorem join_failure_selects_nothing u groupId s message :
  http_wf (sb_http s) →
  let s' := sb_resolve u (h_next (sb_http s)) (RError (ErrorResponse message))
              (handleJoinGroup u groupId s) in
  sb_selected s' = sb_selected s ∧ sb_st s' = sb_st s ∧
  sb_console s' = sb_console s ++ [ErrorResponse message] ∧
  sb_toasts s' = sb_toasts s ++
    [mkToast "Error Joining group"
       (Some (match message with
              | Some m => if decide (m = "") then "An error occurred" else m
              | None => "An error occurred"
              end)) "error" true 3000 None] ∧
  sb_unhandled s' = sb_unhandled s.
Proof. intros Hwf. cbv zeta. unfold handleJoinGroup. by rewrite sb_resolve_send. Qed.

(** C38 (a request without answer breaks the error handler): when a POST
    is rejected without a response (the network is down), the [catch]
    block reads [error.response.data] and throws a [TypeError] of its own:
    no toast is shown and the rejection is unhandled. *)
Theorem rejected_without_response_throws u groupId s :
  http_wf (sb_http s) →
  let s' := sb_resolve u (h_next (sb_http s)) (RError NoResponse)
              (handleLeaveGroup u groupId s) in
  sb_toasts s' = sb_toasts s ∧ sb_selected s' = sb_selected s ∧
  sb_unhandled s' = sb_unhandled s ++
    [TypeError "Cannot read properties of undefined (reading 'data')"].
Proof. intros Hwf. cbv zeta. unfold handleLeaveGroup. by rewrite sb_resolve_send. Qed.

(** ** A sample sidebar

    Alice's sidebar once the admin check and the list of groups were
    answered: she is a member of rooms A and B, not of room C. *)
Definition sb_listed : Sidebar :=
  sidebar_mount alice
    |> sb_resolve alice 0 (RUser (Some false))
    |> sb_resolve alice 1 (RGroups [roomA; roomB; roomC]).

(** Room C as a later fetch returns it, with alice among its members. *)
Definition roomC_joined : Group :=
  mkGroup 9 "C" "Room C" "not joined" [bob; alice_user].

Lemma sb_listed_wf : http_wf (sb_http sb_listed).
Proof.
  intros id [x Hx].
  replace (h_pending (sb_http sb_listed)) with (∅ : gmap nat (Request * sb_continuation))
    in Hx by by vm_compute.
  by rewrite lookup_empty in Hx.
Qed.

Lemma sb_listed_userGroups : userGroups (sb_st sb_listed) = ["A"; "B"].
Proof. by vm_compute. Qed.

Lemma click_selects_members_only_witness :
  let listed := fetchGroups_resolved alice FetchOnly (RGroups [roomA; roomB; roomC])
                  (sidebar_mount alice) in
  sb_selected (click_group roomA listed) = [JObj roomA] ∧
  sb_selected (click_group roomC listed) = [].
Proof.
  split.
  - witness (click_selects_members_only alice FetchOnly [roomA; roomB; roomC] roomA
      (sidebar_mount alice) ltac:(apply (bool_decide_unpack _); by vm_compute)
      ltac:(set_solver)).
  - witness (click_selects_members_only alice FetchOnly [roomA; roomB; roomC] roomC
      (sidebar_mount alice) ltac:(apply (bool_decide_unpack _); by vm_compute)
      ltac:(set_solver)).
Defined.

Lemma join_selects_after_both_answers_witness :
  let s1 := handleJoinGroup alice "C" sb_listed in
  let s2 := sb_resolve alice 2 RDone s1 in
  let s3 := sb_resolve alice 3 (RGroups [roomA; roomB; roomC_joined]) s2 in
  sb_selected s1 = [] ∧ sb_selected s2 = [] ∧ sb_selected s3 = [JObj roomC] ∧
  groups (sb_st s3) = [roomA; roomB; roomC_joined].
Proof.
  generalize (join_selects_after_both_answers alice "C" sb_listed RDone
    (RGroups [roomA; roomB; roomC_joined]) sb_listed_wf eq_refl).
  vm_compute. intros (W1 & W2 & W3). by split_and!.
Defined.

Lemma leave_clears_selection_witness :
  let s1 := handleLeaveGroup alice "B" sb_listed in
  let s2 := sb_resolve alice 2 RDone s1 in
  let s3 := sb_resolve alice 3 (RGroups [roomA; roomB; roomC]) s2 in
  sb_selected s2 = [] ∧ sb_selected s3 = [JNull].
Proof.
  witness (leave_clears_selection alice "B" sb_listed RDone
    (RGroups [roomA; roomB; roomC]) sb_listed_wf eq_refl).
Defined.

Lemma join_failure_selects_nothing_witness :
  let s' := sb_resolve alice 2 (RError (ErrorResponse (Some "")))
              (handleJoinGroup alice "C" sb_listed) in
  sb_selected s' = [] ∧
  sb_toasts s' =
    [mkToast "Error Joining group" (Some "An error occurred") "error" true 3000 None].
Proof.
  destruct (join_failure_selects_nothing alice "C" sb_listed (Some "") sb_listed_wf)
    as (H1 & _ & _ & H2 & _).
  split; [exact H1 | exact H2].
Defined.

Lemma rejected_without_response_throws_witness :
  let s' := sb_resolve alice 2 (RError NoResponse)
              (handleLeaveGroup alice "B" sb_listed) in
  sb_toasts s' = [] ∧ sb_selected s' = [] ∧
  sb_unhandled s' =
    [TypeError "Cannot read properties of undefined (reading 'data')"].
Proof.
  witness (rejected_without_response_throws alice "B" sb_listed sb_listed_wf).
Defined.
