(* ===== verification/SidebarView.v ===== *)
(** * SidebarView: what the sidebar renders and what its controls do

    Models the JSX [src/src/components/Sidebar.jsx] returns, as far as it
    depends on the state, and the events of its controls:

    - [sidebar_render] is the render: the [+] button of an admin, one
      [GroupEntry] per group with its badge, colours and button label, and
      the modal with its two inputs while it is open.
    - [sb_event] is what can happen to a mounted sidebar: a click on a
      control that is rendered, a change of an input of the open modal, or
      the answer to a request.  [sb_step] runs the handler the JSX binds
      to the control; a control that is not rendered cannot be clicked.
      After [handleLogout] navigated away the component is unmounted: only
      the functions suspended at an [await] still run.
    - [sidebar_ok] is the invariant of the sidebar; every sidebar a run of
      events reaches from [sidebar_mount] satisfies it.
    - [sb_weight] bounds the number of answers the requests in flight can
      still need; [drain] answers them until none is left. *)

From S2P Require Import Prelude JsData Data Channel Timers Http ChatArea Samples.
From S2P Require Import Sidebar.

(** ** The view *)

(** The [Box key={group._id}] of one group. *)
Record GroupEntry := mkGroupEntry {
  entry_key : string;
  entry_bg : string;
  entry_borderColor : string;
  entry_name : string;
  entry_badge : bool;
  entry_description : string;
  entry_colorScheme : string;
  entry_variant : string;
  entry_label : string;
}.

(** The two inputs of the open modal. *)
Record ModalView := mkModalView {
  name_value : string;
  description_value : string;
}.

Record SidebarView := mkSidebarView {
  create_button : bool;
  entries : list GroupEntry;
  modal : option ModalView;
}.

(** One element of [groups.map(...)]. *)
Definition render_group (userGroups : list string) (group : Group) : GroupEntry :=
  let joined := bool_decide (group_id group ∈ userGroups) in
  mkGroupEntry (group_id group)
    (if joined then "blue.50" else "gray.50")
    (if joined then "blue.200" else "gray.200")
    (group_name group)
    joined
    (group_description group)
    (if joined then "red" else "blue")
    (if joined then "ghost" else "solid")
    (if joined then "Leave" else "Join").

(** The JSX the component returns. *)
Definition sidebar_render (t : SidebarState) : SidebarView :=
  mkSidebarView (isAdmin t)
    (render_group (userGroups t) <$> groups t)
    (if isOpen t then Some (mkModalView (newGroupName t) (newGroupDescription t))
     else None).

(** ** Events *)

Inductive sb_event : Type :=
| ClickCreate
| ClickName (i : nat)
| ClickButton (i : nat)
| ClickLogout
| CloseModal
| ChangeName (value : string)
| ChangeDescription (value : string)
| ClickCreateGroup
| Answer (id : nat) (r : response).

#[export] Instance sb_event_eq_dec : EqDecision sb_event.
Proof. solve_decision. Defined.

(** [navigate("/login")] replaces the page: the sidebar is unmounted. *)
Definition sb_mounted (s : Sidebar) : bool := bool_decide (sb_navigated s = []).

(** A control of the view is used. *)
Definition sb_control (userInfo : UserInfo) (e : sb_event) (s : Sidebar) : Sidebar :=
  let v := sidebar_render (sb_st s) in
  match e with
  | ClickCreate => if create_button v then s |> set_isOpen true else s
  | ClickName i =>
      match groups (sb_st s) !! i with
      | Some group => s |> click_group group
      | None => s
      end
  | ClickButton i =>
      match groups (sb_st s) !! i with
      | Some group => s |> click_button userInfo group
      | None => s
      end
  | ClickLogout => s |> handleLogout
  | CloseModal =>
      match modal v with Some _ => s |> set_isOpen false | None => s end
  | ChangeName value =>
      match modal v with Some _ => s |> setNewGroupName value | None => s end
  | ChangeDescription value =>
      match modal v with Some _ => s |> setNewGroupDescription value | None => s end
  | ClickCreateGroup =>
      match modal v with Some _ => s |> handleCreateGroup userInfo | None => s end
  | Answer _ _ => s
  end.

(** One event: an answer resumes the function that awaits it, mounted or
    not; a control exists while the sidebar is mounted. *)
Definition sb_step (userInfo : UserInfo) (e : sb_event) (s : Sidebar) : Sidebar :=
  match e with
  | Answer id r => s |> sb_resolve userInfo id r
  | _ => if sb_mounted s then sb_control userInfo e s else s
  end.

Definition sb_run (userInfo : UserInfo) (es : list sb_event) (s : Sidebar) : Sidebar :=
  foldl (λ s e, sb_step userInfo e s) s es.

(** ** The invariant *)

(** Pending requests, by what waits for them. *)
Definition awaits (k : sb_continuation) (s : Sidebar) (id : nat) : Prop :=
  ∃ rq, h_pending (sb_http s) !! id = Some (rq, k).

Record sidebar_ok (userInfo : UserInfo) (s : Sidebar) : Prop := mkSidebarOk {
  ok_http : http_wf (sb_http s);
  ok_userGroups : userGroups (sb_st s) = userGroupIds userInfo (groups (sb_st s));
  ok_modal : isOpen (sb_st s) = true → isAdmin (sb_st s) = true;
  ok_create : ∀ id, awaits KCreateGroup s id → isAdmin (sb_st s) = true;
  ok_checked : ∀ id, awaits KCheckAdminStatus s id → isAdmin (sb_st s) = false;
  ok_check_once : ∀ id id',
    awaits KCheckAdminStatus s id → awaits KCheckAdminStatus s id' → id = id';
}.

(** ** Answers still needed *)

(** The requests a suspended function can still send before it ends,
    its own included. *)
Definition cost (k : sb_continuation) : nat :=
  match k with
  | KCheckAdminStatus => 1
  | KFetchGroups _ => 1
  | KCreateGroup => 2
  | KJoinGroup _ _ => 2
  | KLeaveGroup => 2
  end.

Definition sb_weight (s : Sidebar) : nat :=
  map_fold (λ _ (e : Request * sb_continuation) n, cost e.2 + n) 0
    (h_pending (sb_http s)).

(** A request in flight, if there is one. *)
Definition next_pending (s : Sidebar) : option nat :=
  fst <$> head (map_to_list (h_pending (sb_http s))).

(** The environment answers requests, [answer id] to request [id], until
    none is pending or the fuel is used up. *)
Fixpoint drain (userInfo : UserInfo) (answer : nat → response) (fuel : nat)
    (s : Sidebar) : Sidebar :=
  match fuel with
  | 0 => s
  | S fuel =>
      match next_pending s with
      | Some id => drain userInfo answer fuel (sb_resolve userInfo id (answer id) s)
      | None => s
      end
  end.

(** * Facts *)

Implicit Types (s : Sidebar) (u : UserInfo) (k : sb_continuation) (r : response).

(** ** Requests in flight *)

Lemma awaits_send k' rq k s id :
  awaits k' (sb_send rq k s) id ↔
  (id = h_next (sb_http s) ∧ k' = k) ∨ (id ≠ h_next (sb_http s) ∧ awaits k' s id).
Proof.
  unfold awaits, sb_send; simpl. setoid_rewrite lookup_insert_Some. naive_solver.
Qed.

Lemma awaits_take k s id i :
  awaits k (sb_set_http (http_take id (sb_http s)).2 s) i ↔ i ≠ id ∧ awaits k s i.
Proof.
  unfold awaits; simpl. setoid_rewrite lookup_delete_Some. naive_solver.
Qed.

(** ** The invariant is kept *)

(** What touches neither the cells nor the requests. *)
Lemma sidebar_ok_frame u s s' :
  sb_st s' = sb_st s → sb_http s' = sb_http s → sidebar_ok u s → sidebar_ok u s'.
Proof.
  intros Hst Hh [H1 H2 H3 H4 H5 H6]. unfold awaits in *.
  split; unfold awaits; rewrite ?Hst, ?Hh; done.
Qed.

(** A request other than the admin check; a creation needs an admin. *)
Lemma sidebar_ok_send u rq k s :
  k ≠ KCheckAdminStatus → (k = KCreateGroup → isAdmin (sb_st s) = true) →
  sidebar_ok u s → sidebar_ok u (sb_send rq k s).
Proof.
  intros Hk Hc [H1 H2 H3 H4 H5 H6].
  split; try setoid_rewrite awaits_send; try done; [by apply http_send_wf|naive_solver..].
Qed.

Lemma sidebar_mount_ok u : sidebar_ok u (sidebar_mount u).
Proof.
  unfold sidebar_mount, fetchGroups, checkAdminStatus.
  split; repeat setoid_rewrite awaits_send; try done.
  - do 2 apply http_send_wf. apply http_init_wf.
  - unfold awaits; simpl. setoid_rewrite lookup_empty. naive_solver.
  - unfold awaits; simpl. setoid_rewrite lookup_empty. naive_solver.
Qed.

(** A setter of the cells the invariant does not read, one that closes
    the modal, or one that opens it for an admin. *)
Lemma sidebar_ok_cells u (f : SidebarState → SidebarState) s :
  groups (f (sb_st s)) = groups (sb_st s) →
  userGroups (f (sb_st s)) = userGroups (sb_st s) →
  isAdmin (f (sb_st s)) = isAdmin (sb_st s) →
  (isOpen (f (sb_st s)) = true → isOpen (sb_st s) = true ∨ isAdmin (sb_st s) = true) →
  sidebar_ok u s → sidebar_ok u (sb_set_st f s).
Proof.
  intros Hg Hu Ha Ho [H1 H2 H3 H4 H5 H6].
  split; unfold awaits in *; simpl; rewrite ?Hg, ?Hu, ?Ha; try done. naive_solver.
Qed.

Lemma sidebar_ok_listed u data s :
  sidebar_ok u s → sidebar_ok u (s |> setGroups data |> setUserGroups (userGroupIds u data)).
Proof. intros [H1 H2 H3 H4 H5 H6]. by split. Qed.

(** The table once request [id] left it. *)
Lemma sidebar_ok_take u id s :
  sidebar_ok u s → sidebar_ok u (sb_set_http (http_take id (sb_http s)).2 s).
Proof.
  intros [H1 H2 H3 H4 H5 H6].
  split; try setoid_rewrite awaits_take; try done; [by apply http_take_wf|naive_solver..].
Qed.

Lemma after_fetchGroups_ok u next s :
  sidebar_ok u s → sidebar_ok u (after_fetchGroups next s).
Proof. intros Hok. destruct next; [done|by apply (sidebar_ok_frame u s)..]. Qed.

Lemma described_error_toast_ok u t e s :
  sidebar_ok u s → sidebar_ok u (described_error_toast t e s).
Proof.
  intros Hok. unfold described_error_toast. case_match; by apply (sidebar_ok_frame u s).
Qed.

Lemma fetchGroups_ok u next s : sidebar_ok u s → sidebar_ok u (fetchGroups u next s).
Proof. intros Hok. by apply sidebar_ok_send. Qed.

(** The answer to the admin check: no other check is pending, the modal
    is closed and no creation is in flight. *)
Lemma checkAdminStatus_resolved_ok u id rq r s :
  sidebar_ok u s → h_pending (sb_http s) !! id = Some (rq, KCheckAdminStatus) →
  sidebar_ok u (checkAdminStatus_resolved r (sb_set_http (http_take id (sb_http s)).2 s)).
Proof.
  intros Hok Hid. pose proof (sidebar_ok_take u id s Hok) as Hok'.
  destruct r; try done;
    [|by apply (sidebar_ok_frame u (sb_set_http (http_take id (sb_http s)).2 s))].
  destruct Hok as [H1 H2 H3 H4 H5 H6].
  assert (awaits KCheckAdminStatus s id) as Hc by by exists rq.
  pose proof (H5 id Hc) as Hf.
  split; try setoid_rewrite awaits_take; simpl; try done.
  - by apply http_take_wf.
  - intros Ho. apply H3 in Ho. congruence.
  - intros i [_ Hi]. apply H4 in Hi. congruence.
  - intros i [Hne Hi]. destruct Hne. by apply (H6 i id).
  - naive_solver.
Qed.

Lemma handleCreateGroup_resolved_ok u r s :
  sidebar_ok u s → sidebar_ok u (handleCreateGroup_resolved u r s).
Proof.
  intros Hok. destruct r; try by apply described_error_toast_ok.
  all: apply fetchGroups_ok; do 3 (apply sidebar_ok_cells; [done..|naive_solver|]).
  all: by apply (sidebar_ok_frame u s).
Qed.

Lemma fetchGroups_resolved_ok u next r s :
  sidebar_ok u s → sidebar_ok u (fetchGroups_resolved u next r s).
Proof.
  intros Hok. unfold fetchGroups_resolved. apply after_fetchGroups_ok.
  destruct r; try done; [by apply sidebar_ok_listed | by apply (sidebar_ok_frame u s)].
Qed.

Lemma handleJoinGroup_resolved_ok u gs groupId r s :
  sidebar_ok u s → sidebar_ok u (handleJoinGroup_resolved u gs groupId r s).
Proof.
  intros Hok. destruct r; try by apply fetchGroups_ok.
  apply described_error_toast_ok. by apply (sidebar_ok_frame u s).
Qed.

Lemma handleLeaveGroup_resolved_ok u r s :
  sidebar_ok u s → sidebar_ok u (handleLeaveGroup_resolved u r s).
Proof.
  intros Hok. destruct r; try by apply fetchGroups_ok. by apply described_error_toast_ok.
Qed.

Lemma sb_resolve_ok u id r s : sidebar_ok u s → sidebar_ok u (sb_resolve u id r s).
Proof.
  intros Hok. unfold sb_resolve.
  destruct (http_take id (sb_http s)) as [[[rq k]|] h] eqn:Ht; [|done].
  assert (h = (http_take id (sb_http s)).2) as -> by by rewrite Ht.
  assert (h_pending (sb_http s) !! id = Some (rq, k)) as Hid
    by (by apply (f_equal fst) in Ht).
  pose proof (sidebar_ok_take u id s Hok) as Hok'.
  destruct k; simpl.
  - by eapply checkAdminStatus_resolved_ok.
  - by apply fetchGroups_resolved_ok.
  - by apply handleCreateGroup_resolved_ok.
  - by apply handleJoinGroup_resolved_ok.
  - by apply handleLeaveGroup_resolved_ok.
Qed.

Lemma sb_control_ok u e s : sidebar_ok u s → sidebar_ok u (sb_control u e s).
Proof.
  intros Hok. destruct e; simpl; try done.
  - destruct (isAdmin (sb_st s)) eqn:Ha; [|done]. apply sidebar_ok_cells; naive_solver.
  - case_match; [|done]. unfold click_group. case_bool_decide; [|done].
    by apply (sidebar_ok_frame u s).
  - case_match; [|done]. unfold click_button. case_bool_decide; by apply sidebar_ok_send.
  - by apply (sidebar_ok_frame u s).
  - destruct (isOpen (sb_st s)); [|done]. by apply sidebar_ok_cells.
  - destruct (isOpen (sb_st s)); [|done]. apply sidebar_ok_cells; naive_solver.
  - destruct (isOpen (sb_st s)); [|done]. apply sidebar_ok_cells; naive_solver.
  - destruct (isOpen (sb_st s)) eqn:Ho; [|done].
    apply sidebar_ok_send; [done| |done]. intros _. by apply Hok.
Qed.

Lemma sb_step_ok u e s : sidebar_ok u s → sidebar_ok u (sb_step u e s).
Proof.
  intros Hok. destruct e; [..|by apply sb_resolve_ok].
  all: unfold sb_step; destruct (sb_mounted s); [by apply sb_control_ok|done].
Qed.

Lemma sb_run_ok u es s : sidebar_ok u s → sidebar_ok u (sb_run u es s).
Proof.
  revert s. induction es as [|e es IH]; intros s Hok; [done|].
  apply IH. by apply sb_step_ok.
Qed.

Lemma reachable_sidebar_ok u es : sidebar_ok u (sb_run u es (sidebar_mount u)).
Proof. apply sb_run_ok, sidebar_mount_ok. Qed.

(** ** Termination of the answers *)

Lemma cost_pos k : 0 < cost k.
Proof. destruct k; simpl; lia. Qed.

Lemma sb_weight_frame s s' : sb_http s' = sb_http s → sb_weight s' = sb_weight s.
Proof. unfold sb_weight. by intros ->. Qed.

Lemma sb_weight_send rq k s :
  http_wf (sb_http s) → sb_weight (sb_send rq k s) = cost k + sb_weight s.
Proof.
  intros Hwf. unfold sb_weight; simpl.
  rewrite map_fold_insert_L; [done | intros; lia | by apply http_send_fresh].
Qed.

Lemma sb_weight_take id rq k s :
  h_pending (sb_http s) !! id = Some (rq, k) →
  sb_weight s = cost k + sb_weight (sb_set_http (http_take id (sb_http s)).2 s).
Proof.
  intros Hid. unfold sb_weight; simpl.
  rewrite (map_fold_delete_L _ _ id (rq, k) (h_pending (sb_http s))); [done | intros; lia | done].
Qed.

Lemma sb_weight_size s : sb_weight s ≤ 2 * size (h_pending (sb_http s)).
Proof.
  unfold sb_weight. induction (h_pending (sb_http s)) as [|id [rq k] m Hid IH] using map_ind.
  - by rewrite map_fold_empty.
  - rewrite map_fold_insert_L, map_size_insert_None by (done || intros; lia).
    simpl. destruct k; simpl; lia.
Qed.

Lemma fetchGroups_weight u next s s0 :
  sb_http s0 = sb_http s → http_wf (sb_http s) →
  sb_weight (fetchGroups u next s0) = 1 + sb_weight s.
Proof.
  intros Hh Hwf. unfold fetchGroups. rewrite sb_weight_send by by rewrite Hh.
  by rewrite (sb_weight_frame s).
Qed.

Lemma described_error_toast_http t e s : sb_http (described_error_toast t e s) = sb_http s.
Proof. unfold described_error_toast. by case_match. Qed.

(** A function that goes on can send fewer requests than it could
    before. *)
Lemma sb_continue_weight u k r s :
  http_wf (sb_http s) → sb_weight (sb_continue u k r s) < cost k + sb_weight s.
Proof.
  intros Hwf. destruct k; simpl.
  1: rewrite (sb_weight_frame s); [lia|]; by destruct r.
  1: rewrite (sb_weight_frame s); [lia|]; by destruct r, next.
  all: destruct r; simpl;
    first [rewrite (fetchGroups_weight u _ s) by done
          |rewrite (sb_weight_frame s) by by rewrite ?described_error_toast_http];
    lia.
Qed.

Lemma sb_resolve_weight u id r s :
  http_wf (sb_http s) → is_Some (h_pending (sb_http s) !! id) →
  sb_weight (sb_resolve u id r s) < sb_weight s.
Proof.
  intros Hwf [[rq k] Hid]. unfold sb_resolve, http_take. rewrite Hid.
  rewrite (sb_weight_take id rq k s Hid).
  apply sb_continue_weight. by apply http_take_wf.
Qed.

Lemma next_pending_Some s id :
  next_pending s = Some id → is_Some (h_pending (sb_http s) !! id).
Proof.
  unfold next_pending. destruct (map_to_list _) as [|[i x] l] eqn:Hl; [done|].
  intros [= <-]. exists x. apply elem_of_map_to_list. rewrite Hl. left.
Qed.

Lemma next_pending_None s : next_pending s = None → h_pending (sb_http s) = ∅.
Proof.
  unfold next_pending. destruct (map_to_list _) as [|[i x] l] eqn:Hl; [|done].
  intros _. by apply map_to_list_empty_iff.
Qed.

Lemma drain_quiescent u answer fuel s :
  sidebar_ok u s → sb_weight s ≤ fuel →
  h_pending (sb_http (drain u answer fuel s)) = ∅.
Proof.
  revert s. induction fuel as [|fuel IH]; intros s Hok Hw; simpl.
  - destruct (next_pending s) as [id|] eqn:Hn; [|by apply next_pending_None].
    apply next_pending_Some in Hn.
    pose proof (sb_resolve_weight u id (answer id) s (ok_http _ _ Hok) Hn). lia.
  - destruct (next_pending s) as [id|] eqn:Hn; [|by apply next_pending_None].
    apply next_pending_Some in Hn. apply IH; [by apply sb_resolve_ok|].
    pose proof (sb_resolve_weight u id (answer id) s (ok_http _ _ Hok) Hn). lia.
Qed.

(** ** The view *)

Lemma entries_lookup t i :
  entries (sidebar_render t) !! i = render_group (userGroups t) <$> groups t !! i.
Proof. simpl. by rewrite list_lookup_fmap. Qed.

Lemma entries_keys t : entry_key <$> entries (sidebar_render t) = group_id <$> groups t.
Proof. simpl. rewrite <-list_fmap_compose. by apply list_fmap_ext. Qed.

(** * Properties *)

(** C20 (badges show membership): in every sidebar a run of events
    reaches, when the listed ids are distinct, the entry of a group shows
    the [Joined] badge and the [Leave] label exactly when the user is among
    the members of that group as the server listed it, and [Join]
    otherwise. *)
Theorem badges_show_membership u es i g :
  let s := sb_run u es (sidebar_mount u) in
  NoDup (group_id <$> groups (sb_st s)) →
  groups (sb_st s) !! i = Some g →
  ∃ e, entries (sidebar_render (sb_st s)) !! i = Some e ∧
    entry_key e = group_id g ∧
    (entry_badge e = true ↔ Exists (λ member, user_id member = ui_id u) (members g)) ∧
    entry_label e = (if entry_badge e then "Leave" else "Join").
Proof.
  intros s Hnd Hg. exists (render_group (userGroups (sb_st s)) g).
  split_and!; [by rewrite entries_lookup, Hg | done | | done].
  simpl. rewrite bool_decide_eq_true, (ok_userGroups u s (reachable_sidebar_ok u es)).
  apply userGroupIds_member; [done|]. by eapply list_elem_of_lookup_2.
Qed.

(** The label of the button says what the click requests: on a
    mounted sidebar, clicking the button of an entry sends one POST, to the
    leave endpoint of the entry's group when the entry is labelled [Leave]
    and to its join endpoint when it is labelled [Join]; the click itself
    changes no cell, selects nothing and shows no toast. *)
Theorem button_label_predicts_request u s i e :
  sb_mounted s = true →
  entries (sidebar_render (sb_st s)) !! i = Some e →
  let s' := sb_step u (ClickButton i) s in
  h_pending (sb_http s') !! h_next (sb_http s) =
    Some (mkRequest POST
            (ENDPOINT +:+
               (if entry_badge e then "/api/groups/leave/" else "/api/groups/join/") +:+
               entry_key e)
            BEmpty (bearer (ui_token u)),
          if entry_badge e then KLeaveGroup
          else KJoinGroup (groups (sb_st s)) (entry_key e)) ∧
  (entry_label e = "Leave" ↔ entry_badge e = true) ∧
  sb_st s' = sb_st s ∧ sb_selected s' = sb_selected s ∧ sb_toasts s' = sb_toasts s.
Proof.
  intros Hm He. rewrite entries_lookup in He. cbv zeta. unfold sb_step. rewrite Hm.
  unfold sb_control. destruct (groups (sb_st s) !! i) as [g|]; [|done].
  injection He as <-. unfold click_button, render_group; simpl.
  case_bool_decide; simpl; by rewrite lookup_insert_eq.
Qed.

(** C21 (only an admin creates groups): in every sidebar a run of events
    reaches, the modal is open only where the [+] button is rendered, and a
    request that creates a group is in flight only there: the sidebar of a
    user the backend did not report as admin never sends one. *)
Theorem create_needs_admin u es :
  let s := sb_run u es (sidebar_mount u) in
  (is_Some (modal (sidebar_render (sb_st s))) →
     create_button (sidebar_render (sb_st s)) = true) ∧
  (∀ id, awaits KCreateGroup s id → create_button (sidebar_render (sb_st s)) = true).
Proof.
  intros s. destruct (reachable_sidebar_ok u es) as [_ _ Hm Hc _ _].
  split; [|done]. simpl. fold s in Hm. destruct (isOpen (sb_st s)); [auto|by intros []].
Qed.

(** C18 (the answers drain): whatever the backend answers, the functions
    suspended at an [await] end: from any reachable sidebar, answering the
    requests in flight one after the other leaves none after at most
    [sb_weight] answers, which is at most twice the number of requests in
    flight. *)
Theorem answers_drain u answer es :
  let s := sb_run u es (sidebar_mount u) in
  h_pending (sb_http (drain u answer (sb_weight s) s)) = ∅ ∧
  sb_weight s ≤ 2 * size (h_pending (sb_http s)).
Proof.
  intros s. split; [|apply sb_weight_size].
  apply drain_quiescent; [apply reachable_sidebar_ok | done].
Qed.

(** ** Samples *)

(** Alice's sidebar with the list arrived, as a run of events. *)
Definition listed_run : list sb_event :=
  [Answer 0 (RUser (Some false)); Answer 1 (RGroups [roomA; roomB; roomC])].

Lemma listed_run_eq : sb_run alice listed_run (sidebar_mount alice) = sb_listed.
Proof. done. Qed.

Lemma badges_show_membership_witness :
  ∃ e, entries (sidebar_render (sb_st sb_listed)) !! 2 = Some e ∧
    entry_key e = "C" ∧
    (entry_badge e = true ↔
       Exists (λ member, user_id member = ui_id alice) (members roomC)) ∧
    entry_label e = (if entry_badge e then "Leave" else "Join").
Proof.
  witness (badges_show_membership alice listed_run 2 roomC
    ltac:(apply (bool_decide_unpack _); by_compute) ltac:(by_compute)).
Defined.

Lemma button_label_predicts_request_witness :
  let s' := sb_step alice (ClickButton 2) sb_listed in
  h_pending (sb_http s') !! 2 =
    Some (mkRequest POST (ENDPOINT +:+ "/api/groups/join/C") BEmpty (bearer "token-alice"),
          KJoinGroup [roomA; roomB; roomC] "C") ∧
  sb_selected s' = [].
Proof.
  generalize (button_label_predicts_request alice sb_listed 2
    (render_group ["A"; "B"] roomC) ltac:(by_compute) ltac:(by_compute)).
  vm_compute. intros (H1 & _ & _ & H2 & _). by split.
Defined.
