(* ===== verification/View.v ===== *)
(** * View: what the chat area renders

    Models the render of [src/src/components/ChatArea.jsx]:
    [renderTypingIndicator] and the JSX the component returns, as far as
    they depend on the state: which of the two screens is shown, one
    bubble per message with its side, label and colours, one indicator row
    per typing user, the form with its input and whether the send button
    is disabled, and, beside them, the list of users handed to
    [UsersList] while a room is selected.  Props that are constant (sizes,
    paddings, borders) are left out.

    [formatTime] formats a timestamp with the browser's locale tables
    ([toLocaleDateString]); it is a parameter of the section. *)

From S2P Require Import Prelude JsData Data Channel Timers Http ChatArea.
From S2P Require Import Samples Session MessageLog Presence Typing Invariant Chat.

(** [alignSelf] and [justify]. *)
Inductive alignment := FlexStart | FlexEnd.

#[export] Instance alignment_eq_dec : EqDecision alignment.
Proof. solve_decision. Defined.

(** The children of a row that depend on the state. *)
Inductive item : Type :=
| Avatar (name : option string)
| Text (s : string)
| Dots.

#[export] Instance item_eq_dec : EqDecision item.
Proof. solve_decision. Defined.

(** The [Box] of one message. *)
Record Bubble := mkBubble {
  bubble_key : string;
  bubble_alignSelf : alignment;
  bubble_justify : alignment;
  bubble_header : list item;
  bubble_bg : string;
  bubble_color : string;
  bubble_content : string;
}.

(** The [Box] of one typing user. *)
Record TypingRow := mkTypingRow {
  row_key : string;
  row_alignSelf : alignment;
  row_bg : string;
  row_items : list item;
}.

(** The [form]: the input and the send button. *)
Record FormView := mkFormView {
  input_value : string;
  submit_disabled : bool;
}.

(** The screen of a selected room: header, messages, typing indicator
    and form. *)
Record Conversation := mkConversation {
  heading : string;
  subheading : string;
  bubbles : list Bubble;
  indicator : list TypingRow;
  form_view : FormView;
}.

(** The main column: the welcome screen or a room. *)
Inductive MainView : Type :=
| Welcome
| Room (c : Conversation).

(** What the component returns: the main column and, in the column beside
    it, the users handed to [UsersList], if it is rendered. *)
Record ChatAreaView := mkChatAreaView {
  main : MainView;
  users_list : option (list User);
}.

Section view.
Variable formatTime : nat → string.
Implicit Types (currentUser : UserInfo) (message : Message) (s : State)
  (selectedGroup : selection).

(** [message?.sender?._id === currentUser?._id]. *)
Definition is_mine (currentUser : UserInfo) (message : Message) : bool :=
  bool_decide (user_id <$> sender message = Some (ui_id currentUser)).

(** One element of [messages.map(...)]. *)
Definition render_message (currentUser : UserInfo) (message : Message) : Bubble :=
  let mine := is_mine currentUser message in
  mkBubble (msg_id message)
    (if mine then FlexEnd else FlexStart)
    (if mine then FlexEnd else FlexStart)
    (if mine
     then [Avatar (username <$> sender message);
           Text ("You • " +:+ formatTime (createdAt message))]
     else [Text (default "" (username <$> sender message) +:+ " • " +:+
                 formatTime (createdAt message));
           Avatar (username <$> sender message)])
    (if mine then "blue.500" else "white")
    (if mine then "white" else "gray.800")
    (content message).

(** One element of [typingUserArray.map(...)]. *)
Definition render_typing_user (currentUser : UserInfo) (username : string) : TypingRow :=
  let self := bool_decide (username = ui_username currentUser) in
  mkTypingRow username
    (if self then FlexStart else FlexEnd)
    (if self then "blue.50" else "gray.50")
    (if self
     then [Avatar (Some username); Text "You are typing"; Dots]
     else [Text (username +:+ " is typing"); Dots; Avatar (Some username)]).

(** [renderTypingIndicator]: [null] for an empty set, which renders as
    no row. *)
Definition renderTypingIndicator (currentUser : UserInfo) (s : State) : list TypingRow :=
  if decide (jsset_size (typingUsers s) = 0) then []
  else render_typing_user currentUser <$> jsset_values (typingUsers s).

(** The [form]: [value={newMessage}] and [disabled={!newMessage.trim()}]. *)
Definition render_form (s : State) : FormView :=
  mkFormView (newMessage s) (blank (newMessage s)).

(** [selectedGroup ? (room) : (welcome)]. *)
Definition render_main (currentUser : UserInfo) (selectedGroup : selection) (s : State) :
    MainView :=
  match selectedGroup with
  | JObj g =>
      Room (mkConversation (group_name g) (group_description g)
              (render_message currentUser <$> messages s)
              (renderTypingIndicator currentUser s)
              (render_form s))
  | _ => Welcome
  end.

(** The second column: [selectedGroup && <UsersList users={connectedUsers} />]. *)
Definition render_users (selectedGroup : selection) (s : State) : option (list User) :=
  if truthy selectedGroup then Some (connectedUsers s) else None.

(** The JSX the component returns. *)
Definition render (currentUser : UserInfo) (selectedGroup : selection) (s : State) :
    ChatAreaView :=
  mkChatAreaView (render_main currentUser selectedGroup s)
    (render_users selectedGroup s).

(** What the page shows where [Chat] places [<ChatArea>]: nothing before
    the socket exists, after a throw or after the unmount. *)
Definition page_view (p : Page) : option ChatAreaView :=
  '(currentUser, w) ← rendered p;
  Some (render currentUser (selectedGroup p) (st w)).

(** * Facts *)

Lemma renderTypingIndicator_map currentUser s :
  renderTypingIndicator currentUser s =
    render_typing_user currentUser <$> typingUsers s.
Proof.
  unfold renderTypingIndicator, jsset_size, jsset_values. case_decide; [|done].
  by destruct (typingUsers s).
Qed.

Lemma render_message_key currentUser (ms : list Message) :
  bubble_key <$> (render_message currentUser <$> ms) = msg_id <$> ms.
Proof. rewrite <-list_fmap_compose. by apply list_fmap_ext. Qed.

Lemma render_message_content currentUser (ms : list Message) :
  bubble_content <$> (render_message currentUser <$> ms) = content <$> ms.
Proof. rewrite <-list_fmap_compose. by apply list_fmap_ext. Qed.

Lemma row_key_render currentUser (names : list string) :
  row_key <$> (render_typing_user currentUser <$> names) = names.
Proof.
  rewrite <-list_fmap_compose. rewrite <-(list_fmap_id names) at 2.
  by apply list_fmap_ext.
Qed.

Lemma render_Room currentUser selectedGroup s c :
  main (render currentUser selectedGroup s) = Room c →
  truthy selectedGroup = true ∧
  bubbles c = render_message currentUser <$> messages s ∧
  indicator c = render_typing_user currentUser <$> typingUsers s ∧
  form_view c = render_form s ∧
  users_list (render currentUser selectedGroup s) = Some (connectedUsers s).
Proof.
  destruct selectedGroup as [| |g]; [done..|]. intros [= <-]; simpl.
  by rewrite renderTypingIndicator_map.
Qed.

(** The list of users is beside a room, never beside the welcome
    screen. *)
Lemma users_list_beside_room currentUser selectedGroup s :
  users_list (render currentUser selectedGroup s) = None ↔
  main (render currentUser selectedGroup s) = Welcome.
Proof. by destruct selectedGroup. Qed.

Lemma page_view_Room p c :
  main <$> page_view p = Some (Room c) →
  ∃ u w, form p = Some (u, w) ∧ main (render u (selectedGroup p) (st w)) = Room c.
Proof.
  unfold page_view, form. destruct (rendered p) as [[u w]|]; [|done].
  intros [= Hr]. exists u, w. by apply render_Room in Hr as Hr'; destruct Hr' as [-> _].
Qed.

Lemma set_area_same p w : chatArea p = Some w → set_area (Some w) p = p.
Proof. destruct p; simpl. by intros ->. Qed.

Lemma sendMessage_moves u v (w : Area) :
  blank (newMessage (st w)) = false → sendMessage u v w ≠ w.
Proof.
  intros Hb Heq. apply (f_equal (λ w, h_next (http w))) in Heq.
  rewrite sendMessage_http in Heq by done. simpl in Heq. lia.
Qed.

(** Bubbles follow arrivals: during a room session on an open
    channel, the bubbles shown after any run of events are the bubbles
    shown before followed by one bubble per [message received] event, in
    the order of arrival, each keyed by the id of its message. *)
Theorem bubbles_follow_arrivals u g es (w : Area) :
  installed w → ch_open (sock w) = true →
  ∃ c c', main (render u (JObj g) (st w)) = Room c ∧
    main (render u (JObj g) (st (deliver_all es w))) = Room c' ∧
    bubbles c' = bubbles c ++ (render_message u <$> arrivals es) ∧
    bubble_key <$> bubbles c' = msg_id <$> (messages (st w) ++ arrivals es).
Proof.
  intros Hi Ho. eexists _, _. split_and!; [done..| |]; simpl.
  - by rewrite deliver_all_messages, fmap_app.
  - by rewrite deliver_all_messages, render_message_key.
Qed.

(** C39 (indicator keys are distinct): on every page a run reaches, the
    typing indicator has one row per name of the typing cell, in insertion
    order, and no two rows share their React key. *)
Theorem indicator_keys_distinct item acts c :
  main <$> page_view (run acts (initial_page item)) = Some (Room c) →
  NoDup (row_key <$> indicator c) ∧
  ∃ w, chatArea (run acts (initial_page item)) = Some w ∧
       row_key <$> indicator c = typingUsers (st w).
Proof.
  intros (u & w & Hf & Hr)%page_view_Room.
  apply form_Some in Hf as (_ & Hm & _ & _ & Ha).
  apply render_Room in Hr as (_ & _ & -> & _).
  destruct (page_ok_mounted _ w (reachable_page_ok item acts) Ha Hm)
    as ((_&_&_&Hnd&_)&_).
  rewrite row_key_render. eauto.
Qed.

(** C40 (the disabled button and the guard of the handler agree): on a
    page that shows the form, the send button is disabled exactly when
    submitting the form would change nothing. *)
Theorem disabled_button_iff_noop p c :
  main <$> page_view p = Some (Room c) →
  submit_disabled (form_view c) = true ↔ step Submit p = p.
Proof.
  intros (u & w & Hf & Hr)%page_view_Room.
  apply render_Room in Hr as (_&_&_&->&_). simpl. rewrite Hf.
  apply form_Some in Hf as (_&_&_&_&Ha). split.
  - intros Hb. rewrite sendMessage_blank by done. by apply set_area_same.
  - intros Heq. apply (f_equal chatArea) in Heq. simpl in Heq.
    rewrite Ha in Heq. injection Heq as Heq.
    destruct (blank (newMessage (st w))) eqn:Hb; [done|].
    by apply sendMessage_moves in Heq.
Qed.

(** Own messages on the right: a bubble is aligned to the right,
    labelled [You] and blue exactly when the sender of its message has the
    id of the current user; a message of anybody else, or without a
    sender, is on the left under the sender's name. *)
Theorem own_bubble_on_the_right u m :
  let b := render_message u m in
  (bubble_alignSelf b = FlexEnd ↔ user_id <$> sender m = Some (ui_id u)) ∧
  (bubble_alignSelf b = FlexEnd →
     bubble_header b =
       [Avatar (username <$> sender m); Text ("You • " +:+ formatTime (createdAt m))] ∧
     bubble_bg b = "blue.500") ∧
  (bubble_alignSelf b = FlexStart →
     bubble_header b =
       [Text (default "" (username <$> sender m) +:+ " • " +:+ formatTime (createdAt m));
        Avatar (username <$> sender m)] ∧
     bubble_bg b = "white").
Proof.
  unfold render_message, is_mine; simpl. case_bool_decide; naive_solver.
Qed.

End view.

(** * Samples *)

(** A clock label for the samples. *)
Definition sample_time (t : nat) : string := "10:30".

(** Bob and Carol are typing in room A while Alice has typed a draft. *)
Definition indicator_run : list action :=
  [RunMountEffect; SetSelectedGroup (JObj roomA); Resolve 0 (RMessages [m1; m2]);
   Deliver (EvUserTyping "bob"); Deliver (EvUserTyping "carol");
   Deliver (EvUserTyping "bob"); Input "hi"].

Definition indicator_page : Page := run indicator_run (initial_page (Some alice)).

Definition indicator_room : Conversation :=
  match main <$> page_view sample_time indicator_page with
  | Some (Room c) => c
  | _ => mkConversation "" "" [] [] (mkFormView "" true)
  end.

Lemma indicator_page_view :
  main <$> page_view sample_time indicator_page = Some (Room indicator_room).
Proof. by vm_compute. Qed.

Lemma bubbles_follow_arrivals_witness :
  ∃ c c', main (render sample_time alice (JObj roomA) (st w_loaded)) = Room c ∧
    main (render sample_time alice (JObj roomA)
      (st (deliver_all [EvMessageReceived m3; EvUserJoined bob] w_loaded))) = Room c' ∧
    bubbles c' = bubbles c ++ (render_message sample_time alice <$> [m3]) ∧
    bubble_key <$> bubbles c' = ["1"; "2"; "3"].
Proof.
  witness (bubbles_follow_arrivals sample_time alice roomA
    [EvMessageReceived m3; EvUserJoined bob] w_loaded
    w_loaded_installed ltac:(by_compute)).
Defined.

Lemma indicator_keys_distinct_witness :
  NoDup (row_key <$> indicator indicator_room) ∧
  ∃ w, chatArea indicator_page = Some w ∧
       row_key <$> indicator indicator_room = typingUsers (st w).
Proof.
  exact (indicator_keys_distinct sample_time (Some alice) indicator_run
    indicator_room indicator_page_view).
Defined.

Lemma disabled_button_iff_noop_witness :
  submit_disabled (form_view indicator_room) = true ↔
  step Submit indicator_page = indicator_page.
Proof.
  exact (disabled_button_iff_noop sample_time indicator_page indicator_room
    indicator_page_view).
Defined.

Lemma own_bubble_on_the_right_witness :
  bubble_alignSelf (render_message sample_time alice m1) = FlexStart ∧
  bubble_header (render_message sample_time alice m1) =
    [Text "bob • 10:30"; Avatar (Some "bob")].
Proof.
  destruct (own_bubble_on_the_right sample_time alice m1) as (_ & _ & Hl).
  split; [done|]. exact (proj1 (Hl eq_refl)).
Defined.
