(* ===== verification/Scroll.v ===== *)
(** * Scroll: keeping the newest message in view

    Models the effect of [src/src/components/ChatArea.jsx] that follows
    the list: after a render, if [messages] or [typingUsers] is another
    object than at the render before, it scrolls the marker at the end of
    the list into view, provided the marker is in the document.

    - [scroll_deps] is the dependency array of the effect, by the objects
      the two cells hold; [scroll_effect] is what React does with the
      effect after a render and the body it may run.
    - [scrolls a p] says whether the page scrolls when [a] happens: it
      compares the render before the step with the render after it.
      Scrolling changes nothing the component reads, so the steps of
      [Chat] stay as they are and the scrolls are read off a run
      ([scroll_log]).
    - [renews] names the events that replace one of the two objects; on a
      page that shows a room these are the steps that scroll
      ([scrolls_iff_renews]), and the welcome screen never scrolls
      ([welcome_never_scrolls]). *)

From S2P Require Import Prelude JsData Data Channel Timers Http ChatArea.
From S2P Require Import Samples Session MessageLog Presence Typing Invariant Chat.

(** [[messages, typingUsers]]. *)
Definition scroll_deps (s : State) : nat * nat :=
  (messages_obj s, typingUsers_obj s).

(** The effect after a render.  React runs the body after the first
    render ([prev] is [None]) and when a dependency is not the object of
    the render before; the body scrolls if [messagesEndRef.current] is
    set, and the marker it points to is part of the room's JSX. *)
Definition scroll_effect (prev : option (nat * nat)) (selectedGroup : selection)
    (s : State) : bool :=
  bool_decide (prev ≠ Some (scroll_deps s)) && truthy selectedGroup.

(** The dependencies at the last render of the chat area, if it is
    rendered. *)
Definition rendered_deps (p : Page) : option (nat * nat) :=
  (λ uw, scroll_deps (st uw.2)) <$> rendered p.

(** Whether the render that follows [a] scrolls the list. *)
Definition scrolls (a : action) (p : Page) : bool :=
  let p' := step a p in
  match rendered p' with
  | Some (_, w') => scroll_effect (rendered_deps p) (selectedGroup p') (st w')
  | None => false
  end.

(** The scrolls of a run, one flag per action. *)
Fixpoint scroll_log (acts : list action) (p : Page) : list bool :=
  match acts with
  | [] => []
  | a :: acts => scrolls a p :: scroll_log acts (step a p)
  end.

(** The steps that store a new array in [messages] or a new [Set] in
    [typingUsers]: an incoming message or typing change, the answer to a
    fetch that carries the messages, the answer to a send that carries
    the message. *)
Definition renews (a : action) (w : Area) : bool :=
  match a with
  | Deliver (EvMessageReceived _) | Deliver (EvUserTyping _)
  | Deliver (EvUserStopTyping _) => true
  | Resolve id r =>
      match h_pending (http w) !! id, r with
      | Some (_, KFetchMessages), RMessages _ => true
      | Some (_, KSendMessage _ _), RMessage _ => true
      | _, _ => false
      end
  | _ => false
  end.

(** * Facts *)

Implicit Types (p : Page) (w : Area) (u : UserInfo) (v : selection) (a : action)
  (e : in_event).

(** ** What each operation does to the two objects *)

(** Decides whether a setter that numbers its object was called. *)
Local Ltac deps_cases :=
  unfold fetchMessages_resolved, sendMessage_resolved, scroll_deps; simpl;
  split; try done; first [by intros [] | intros _ [=]; lia].

Lemma run_handler_deps e w :
  scroll_deps (st (run_handler (handler_of e) e w)) ≠ scroll_deps (st w) ↔
  renews (Deliver e) w = true.
Proof. destruct e; deps_cases. Qed.

Lemma run_callback_deps cb w : scroll_deps (st (run_callback cb w)) = scroll_deps (st w).
Proof. destruct cb as [v]. unfold run_callback. by destruct (truthy v). Qed.

Lemma advance_deps d w : scroll_deps (st (advance d w)) = scroll_deps (st w).
Proof.
  apply (advance_ind (λ w', scroll_deps (st w') = scroll_deps (st w))); [|done].
  intros cb w' <-. apply run_callback_deps.
Qed.

Lemma handleTyping_deps u v value w :
  scroll_deps (st (after (handleTyping u v value w))) = scroll_deps (st w).
Proof.
  rewrite handleTyping_after.
  destruct (isTyping (st w)), v as [| |g];
    try (match goal with
         | |- context [arm_typing_timeout ?v (clear_typing_timeout ?w0)] =>
             destruct (typing_timer_frame v w0) as (f & ref & ->)
         end); done.
Qed.

Lemma resolve_deps id r w :
  scroll_deps (st (resolve id r w)) ≠ scroll_deps (st w) ↔
  renews (Resolve id r) w = true.
Proof.
  unfold renews. destruct (h_pending (http w) !! id) as [[rq [|ms v]]|] eqn:Hid.
  - erewrite resolve_fetch by done. destruct r; deps_cases.
  - erewrite resolve_send by done. destruct r; deps_cases.
  - rewrite resolve_unknown by done. deps_cases.
Qed.

(** ** Steps *)

(** A step between two renders of the chat area scrolls iff a dependency
    was replaced and the render after it shows a room. *)
Lemma scrolls_rendered a p u w u' w' :
  rendered p = Some (u, w) → rendered (step a p) = Some (u', w') →
  scrolls a p =
    bool_decide (scroll_deps (st w') ≠ scroll_deps (st w)) &&
    truthy (selectedGroup (step a p)).
Proof.
  intros Hr Hr'. unfold scrolls, rendered_deps, scroll_effect. cbv zeta.
  rewrite Hr, Hr'. simpl. f_equal. apply bool_decide_ext.
  split; intros Hne Heq; apply Hne; congruence.
Qed.

(** A step that leaves the two objects alone does not scroll. *)
Lemma scrolls_same_deps a p u w :
  rendered p = Some (u, w) →
  (∀ u' w', rendered (step a p) = Some (u', w') →
     scroll_deps (st w') = scroll_deps (st w)) →
  scrolls a p = false.
Proof.
  intros Hr Hd. destruct (rendered (step a p)) as [[u' w']|] eqn:Hr'.
  - erewrite scrolls_rendered by done. rewrite (Hd u' w') by done.
    by rewrite bool_decide_eq_false_2 by naive_solver.
  - unfold scrolls. cbv zeta. by rewrite Hr'.
Qed.

(** A step inside the chat area, on a rendered page. *)
Lemma scrolls_area (f : Area → Area) a p u w :
  rendered p = Some (u, w) → step a p = set_area (Some (f w)) p →
  scrolls a p =
    bool_decide (scroll_deps (st (f w)) ≠ scroll_deps (st w)) &&
    truthy (selectedGroup p).
Proof.
  intros Hr Hs. apply rendered_Some in Hr as Hp. destruct Hp as (Hm & Ht & Hl & Ha).
  erewrite (scrolls_rendered a p u w u (f w)); [by rewrite Hs|done|].
  rewrite Hs. unfold rendered, set_area; simpl. by rewrite Hm, Ht, Hl.
Qed.

(** A step that changes nothing does not scroll. *)
Lemma scrolls_noop a p : step a p = p → scrolls a p = false.
Proof.
  intros Hs. destruct (rendered p) as [[u w]|] eqn:Hr.
  - eapply scrolls_same_deps; [done|]. rewrite Hs, Hr. by intros ?? [= _ <-].
  - unfold scrolls. cbv zeta. by rewrite Hs, Hr.
Qed.

(** A step to a page that is not rendered does not scroll. *)
Lemma scrolls_not_rendered a p : rendered (step a p) = None → scrolls a p = false.
Proof. unfold scrolls. cbv zeta. by intros ->. Qed.

(** A step that keeps the state cells of the chat area does not scroll. *)
Lemma scrolls_same_st a p u w :
  rendered p = Some (u, w) →
  (∀ w', chatArea (step a p) = Some w' → scroll_deps (st w') = scroll_deps (st w)) →
  scrolls a p = false.
Proof.
  intros Hr Hst. eapply scrolls_same_deps; [done|].
  intros u' w' (_&_&_&Ha)%rendered_Some. by apply Hst.
Qed.

Lemma bool_decide_as (P : Prop) `{!Decision P} (b : bool) :
  (P ↔ b = true) → bool_decide P = b.
Proof. intros HP. destruct b; [apply bool_decide_eq_true|apply bool_decide_eq_false]; naive_solver. Qed.

(** An incoming event on a page that shows a room runs its handler. *)
Lemma deliver_in_room p u w e :
  page_ok p → form p = Some (u, w) → deliver e w = run_handler (handler_of e) e w.
Proof.
  intros Hp (Hs & Hm & _ & _ & Ha)%form_Some.
  destruct (page_ok_mounted p w Hp Ha Hm) as ((Hse & _) & _ & _ & Ho & Hc & _).
  apply deliver_installed; [|done]. unfold session_ok in Hse. rewrite Hc in Hse.
  by destruct (selectedGroup p).
Qed.

(** ** The steps of a rendered page, one by one *)

Section rendered.
Context (p : Page) (u : UserInfo) (w : Area) (Hr : rendered p = Some (u, w)).

Lemma scrolls_mount_effect : scrolls RunMountEffect p = false.
Proof.
  apply rendered_Some in Hr as (Hm & Ht & Hl & Ha).
  apply scrolls_noop. simpl. by rewrite Hm, Ht, Ha.
Qed.

(** Another room shows the list of the room before until its messages
    arrive: the effect of the selection keeps the cells. *)
Lemma scrolls_select v : scrolls (SetSelectedGroup v) p = false.
Proof.
  apply rendered_Some in Hr as Hr'. destruct Hr' as (Hm & Ht & Hl & Ha).
  apply (scrolls_same_st _ p u w Hr). simpl. rewrite Hm, Ht.
  destruct (object_is (selectedGroup p) v) eqn:Ho.
  - unfold setSelectedGroup. rewrite Ho, Ha. by intros ? [= <-].
  - rewrite (setSelectedGroup_area v p w u Ha Hl Ho). intros ? [= <-].
    by rewrite rerun_effect_st.
Qed.

Lemma scrolls_deliver e :
  scrolls (Deliver e) p =
    bool_decide (scroll_deps (st (deliver e w)) ≠ scroll_deps (st w)) &&
    truthy (selectedGroup p).
Proof.
  apply rendered_Some in Hr as Hr'. destruct Hr' as (Hm & Ht & Hl & Ha).
  apply (scrolls_area (deliver e) _ p u w Hr). simpl. by rewrite Ha.
Qed.

Lemma scrolls_input value : scrolls (Input value) p = false.
Proof.
  apply rendered_Some in Hr as Hr'. destruct Hr' as (Hm & Ht & Hl & Ha).
  apply (scrolls_same_st _ p u w Hr). simpl. unfold form. rewrite Hr.
  destruct (truthy (selectedGroup p)); simpl.
  - intros ? [= <-]. apply handleTyping_deps.
  - rewrite Ha. by intros ? [= <-].
Qed.

(** The message appears, and the list scrolls, when the answer arrives. *)
Lemma scrolls_submit : scrolls Submit p = false.
Proof.
  apply rendered_Some in Hr as Hr'. destruct Hr' as (Hm & Ht & Hl & Ha).
  apply (scrolls_same_st _ p u w Hr). simpl. unfold form. rewrite Hr.
  destruct (truthy (selectedGroup p)); simpl.
  - intros ? [= <-]. by destruct (sendMessage_frame u (selectedGroup p) w) as (-> & _).
  - rewrite Ha. by intros ? [= <-].
Qed.

Lemma scrolls_resolve id r :
  scrolls (Resolve id r) p = renews (Resolve id r) w && truthy (selectedGroup p).
Proof.
  apply rendered_Some in Hr as Hr'. destruct Hr' as (Hm & Ht & Hl & Ha).
  rewrite (scrolls_area (resolve id r) _ p u w Hr) by (simpl; by rewrite Ha).
  f_equal. apply bool_decide_as, resolve_deps.
Qed.

Lemma scrolls_advance d : scrolls (Advance d) p = false.
Proof.
  apply rendered_Some in Hr as Hr'. destruct Hr' as (Hm & Ht & Hl & Ha).
  apply (scrolls_same_st _ p u w Hr). simpl. rewrite Ha. intros ? [= <-].
  apply advance_deps.
Qed.

Lemma scrolls_unmount o : scrolls (UnmountPage o) p = false.
Proof.
  apply rendered_Some in Hr as (Hm & Ht & Hl & Ha).
  apply scrolls_not_rendered. simpl. by rewrite Hm.
Qed.

End rendered.

(** ** Which steps scroll *)

(** C24 (scrolling follows the list): on a page that shows a room, a step
    scrolls the list to its end exactly when it stores a new [messages]
    array or a new [typingUsers] set: an incoming message, a typing or
    stop-typing event of anyone (whether or not the set changes), the
    messages a fetch returns, the message a send returns.  Presence
    events, notifications, keystrokes, submitting, failed requests, the
    debounce timer and a change of room do not scroll; nor does anything
    while the welcome screen is shown. *)
Theorem scrolls_iff_renews p u w a :
  page_ok p → rendered p = Some (u, w) →
  scrolls a p = truthy (selectedGroup p) && renews a w.
Proof.
  intros Hp Hr. destruct a as [|v|e|value| |id r|d|o]; simpl renews;
    rewrite ?andb_false_r.
  - by eapply scrolls_mount_effect.
  - by eapply scrolls_select.
  - erewrite scrolls_deliver by done. rewrite andb_comm.
    destruct (truthy (selectedGroup p)) eqn:Hs; [|done]. simpl.
    erewrite deliver_in_room; [by apply bool_decide_as, run_handler_deps|done|].
    unfold form. by rewrite Hs.
  - by eapply scrolls_input.
  - by eapply scrolls_submit.
  - erewrite scrolls_resolve by done. apply andb_comm.
  - by eapply scrolls_advance.
  - by eapply scrolls_unmount.
Qed.

(** Nothing scrolls while the welcome screen is shown, not even the
    messages of a room left meanwhile when they arrive. *)
Lemma welcome_never_scrolls p u w a :
  rendered p = Some (u, w) → truthy (selectedGroup p) = false → scrolls a p = false.
Proof.
  intros Hr Hs. destruct a as [|v|e|value| |id r|d|o].
  - by eapply scrolls_mount_effect.
  - by eapply scrolls_select.
  - erewrite scrolls_deliver by done. by rewrite Hs, andb_false_r.
  - by eapply scrolls_input.
  - by eapply scrolls_submit.
  - erewrite scrolls_resolve by done. by rewrite Hs, andb_false_r.
  - by eapply scrolls_advance.
  - by eapply scrolls_unmount.
Qed.

(** The first render of the chat area scrolls if it shows a room. *)
Lemma first_render_scrolls a p u w :
  rendered p = None → rendered (step a p) = Some (u, w) →
  scrolls a p = truthy (selectedGroup (step a p)).
Proof. unfold scrolls, rendered_deps, scroll_effect. cbv zeta. by intros -> ->. Qed.

(** A stop-typing event for someone who was not typing changes nothing
    on the screen and scrolls the list all the same. *)
Lemma idle_stop_typing_scrolls p u w username :
  page_ok p → form p = Some (u, w) → username ∉ typingUsers (st w) →
  let p' := step (Deliver (EvUserStopTyping username)) p in
  scrolls (Deliver (EvUserStopTyping username)) p = true ∧
  (typingUsers ∘ st <$> chatArea p') = Some (typingUsers (st w)) ∧
  (messages ∘ st <$> chatArea p') = Some (messages (st w)).
Proof.
  intros Hp Hf Hn. cbv zeta. apply form_Some in Hf as Hf'.
  destruct Hf' as (Hs & Hm & Ht & Hl & Ha). split.
  - erewrite scrolls_deliver by (unfold rendered; by rewrite Hm, Ht, Hl, Ha).
    rewrite Hs, andb_true_r. erewrite deliver_in_room by done.
    by apply bool_decide_eq_true, run_handler_deps.
  - simpl. rewrite Ha. simpl. erewrite deliver_in_room by done. simpl.
    split; [|done]. f_equal. by apply jsset_delete_absent.
Qed.

(** * Samples *)

(** Alice opens the page, selects room A and its two messages arrive. *)
Definition quiet_run : list action :=
  [RunMountEffect; SetSelectedGroup (JObj roomA); Resolve 0 (RMessages [m1; m2])].

Definition quiet_page : Page := run quiet_run (initial_page (Some alice)).

Definition quiet_area : Area := default w_idle (chatArea quiet_page).

Lemma quiet_page_ok : page_ok quiet_page.
Proof. apply reachable_page_ok. Qed.

(** Nobody is typing in [quiet_page]; bob's stop-typing scrolls it. *)
Lemma scrolls_iff_renews_witness :
  scrolls (Deliver (EvUserStopTyping "bob")) quiet_page =
    truthy (selectedGroup quiet_page) &&
    renews (Deliver (EvUserStopTyping "bob")) quiet_area.
Proof.
  witness (scrolls_iff_renews quiet_page alice quiet_area
    (Deliver (EvUserStopTyping "bob")) quiet_page_ok ltac:(by_compute)).
Defined.

Lemma idle_stop_typing_scrolls_witness :
  scrolls (Deliver (EvUserStopTyping "bob")) quiet_page = true ∧
  (typingUsers ∘ st <$> chatArea (step (Deliver (EvUserStopTyping "bob")) quiet_page)) =
    Some [] ∧
  (messages ∘ st <$> chatArea (step (Deliver (EvUserStopTyping "bob")) quiet_page)) =
    Some [m1; m2].
Proof.
  witness (idle_stop_typing_scrolls quiet_page alice quiet_area "bob" quiet_page_ok
    ltac:(by_compute) ltac:(apply (bool_decide_unpack _); by_compute)).
Defined.

(** The scenario of spec.md section 8: the list scrolls when the snapshot
    arrives and when the answer to the send arrives, not on the
    keystroke nor on the submit. *)
Example send_hi_scrolls :
  scroll_log send_hi_run (initial_page (Some alice)) =
    [false; false; true; false; false; true].
Proof. by vm_compute. Qed.
