(* ===== verification/App.v ===== *)
(** * App: the routes, and the chat page with its sidebar

    Models [src/src/App.jsx] and the composition [src/src/pages/Chat.jsx]
    makes of the sidebar and the chat area.

    - [routes] is the route table of [App.jsx] and [match_route] the
      element a path shows; the router compares paths without regard to
      case and to slashes at the end ([normal_path]).  [PrivateRoute] is
      not under [src/]: it is a parameter of the section, the decision
      whether it renders its children for the [userInfo] it finds.
      [visit] is what a path shows: the first render of [Chat] reads
      [userInfo] in the body of the sidebar, which throws without the
      entry.
    - [ChatPage] is the page with its sidebar.  [Chat_render] is the first
      render with the effects of its commit: the sidebar's two requests
      and the page's socket.  The sidebar's calls of its
      [setSelectedGroup] prop are the page's [SetSelectedGroup] actions,
      in order ([new_selections]); its [navigate("/login")] replaces the
      route's element, so the page unmounts ([left_page]).
      [chat_step] is one action of the composition; the page's selection
      and unmount are driven by the sidebar only.  Leaving the route in
      another way than by the logout button is not an action.
    - [page_trace] is the run of the page alone that a run of the
      composition amounts to ([chat_run_page]): what is proved of every
      reachable [Page] holds of the page inside every reachable
      [ChatPage].  [last_selected] is the object the sidebar passed to
      [setSelectedGroup] last; the page's selection is that object as
      long as the page is mounted ([page_follows_sidebar]). *)

From S2P Require Import Prelude JsData Data Channel Timers Http ChatArea.
From S2P Require Import Samples Session MessageLog Presence Typing Invariant Chat.
From S2P Require Import Sidebar SidebarView.

(** ** Routes *)

(** The elements of the route table. *)
Inductive element : Type := LandingPage | Login | Register | PrivateChat.

#[export] Instance element_eq_dec : EqDecision element.
Proof. solve_decision. Defined.

(** [<Route path=... element=... />], in the order of [App.jsx]. *)
Definition routes : list (string * element) :=
  [("/", LandingPage); ("/login", Login); ("/register", Register);
   ("/chat", PrivateChat)].

(** The router matches a path against a pattern without regard to case
    and to slashes at the end of either. *)
Definition lower (c : ascii) : ascii :=
  let n := nat_of_ascii c in
  if bool_decide (65 ≤ n ≤ 90) then ascii_of_nat (n + 32) else c.

Fixpoint lowercase (s : string) : string :=
  match s with
  | EmptyString => EmptyString
  | String c s' => String (lower c) (lowercase s')
  end.

Fixpoint strip_slashes (s : string) : string :=
  match s with
  | EmptyString => EmptyString
  | String c s' =>
      match strip_slashes s' with
      | EmptyString => if decide (c = "/"%char) then EmptyString else String c EmptyString
      | t => String c t
      end
  end.

Definition normal_path (path : string) : string := lowercase (strip_slashes path).

(** The element [<Routes>] shows for a path: that of the first route that
    matches. *)
Definition match_route (path : string) : option element :=
  (λ r, r.2.2) <$>
    list_find (λ r : string * element, normal_path r.1 = normal_path path) routes.

(** ** The chat page with its sidebar *)

Record ChatPage := mkChatPage {
  cp_user : UserInfo;
  cp_page : Page;
  cp_sidebar : Sidebar;
}.

(** The first render of [<Chat />] and the effects of its commit: the
    body of [Sidebar] parses [userInfo]; the sidebar's mount effect sends
    its two requests and the page's mount effect opens the socket. *)
Definition Chat_render (item : option UserInfo) : result js_error ChatPage :=
  match read_userInfo item with
  | Ok userInfo =>
      Ok (mkChatPage userInfo (step RunMountEffect (initial_page item))
            (sidebar_mount userInfo))
  | Throw e => Throw e
  end.

(** What the app shows. *)
Inductive screen : Type :=
| NoMatch
| Elsewhere (e : element)
| Redirected
| Crashed (e : js_error)
| Chatting (c : ChatPage).

Section routes.
(** Whether [PrivateRoute] renders its children. *)
Variable PrivateRoute : option UserInfo → bool.

(** The app opened at [path] with [item] in local storage. *)
Definition visit (path : string) (item : option UserInfo) : screen :=
  match match_route path with
  | None => NoMatch
  | Some PrivateChat =>
      if PrivateRoute item then
        match Chat_render item with
        | Ok c => Chatting c
        | Throw e => Crashed e
        end
      else Redirected
  | Some e => Elsewhere e
  end.

End routes.

(** ** Actions *)

Inductive chat_action : Type :=
| OnPage (a : action)
| OnSidebar (e : sb_event).

(** The actions of the page that come from outside: the selection and the
    unmount come from the sidebar, and the mount effect ran with the first
    render. *)
Definition external (a : action) : bool :=
  match a with
  | RunMountEffect | SetSelectedGroup _ | UnmountPage _ => false
  | _ => true
  end.

(** The calls of the [setSelectedGroup] prop made between [s] and [s']. *)
Definition new_selections (s s' : Sidebar) : list selection :=
  drop (length (sb_selected s)) (sb_selected s').

(** The sidebar navigated away between [s] and [s']. *)
Definition left_page (s s' : Sidebar) : bool :=
  sb_mounted s && negb (sb_mounted s').

(** What a step of the sidebar does to the page. *)
Definition sidebar_actions (o : unmount_order) (s s' : Sidebar) : list action :=
  (SetSelectedGroup <$> new_selections s s') ++
  (if left_page s s' then [UnmountPage o] else []).

Definition chat_step (o : unmount_order) (a : chat_action) (c : ChatPage) : ChatPage :=
  match a with
  | OnPage a =>
      if external a then mkChatPage (cp_user c) (step a (cp_page c)) (cp_sidebar c)
      else c
  | OnSidebar e =>
      let s' := sb_step (cp_user c) e (cp_sidebar c) in
      mkChatPage (cp_user c) (run (sidebar_actions o (cp_sidebar c) s') (cp_page c)) s'
  end.

Definition chat_run (o : unmount_order) (acts : list chat_action) (c : ChatPage) :
    ChatPage :=
  foldl (λ c a, chat_step o a c) c acts.

(** ** The page inside the composition *)

(** The actions of the page alone that a run of the composition amounts
    to, from sidebar [s]. *)
Fixpoint page_trace (o : unmount_order) (userInfo : UserInfo)
    (acts : list chat_action) (s : Sidebar) : list action :=
  match acts with
  | [] => []
  | OnPage a :: acts =>
      (if external a then [a] else []) ++ page_trace o userInfo acts s
  | OnSidebar e :: acts =>
      let s' := sb_step userInfo e s in
      sidebar_actions o s s' ++ page_trace o userInfo acts s'
  end.

(** The events of the sidebar among the actions. *)
Definition sidebar_events (acts : list chat_action) : list sb_event :=
  omap (λ a, match a with OnSidebar e => Some e | OnPage _ => None end) acts.

(** The object the sidebar passed to [setSelectedGroup] last; [null], the
    initial value of the cell, before the first call. *)
Definition last_selected (s : Sidebar) : selection :=
  default JNull (last (sb_selected s)).

(** ** The invariant *)

Definition chat_ok (c : ChatPage) : Prop :=
  page_ok (cp_page c) ∧ sidebar_ok (cp_user c) (cp_sidebar c) ∧
  localStorage (cp_page c) = Some (cp_user c) ∧
  thrown (cp_page c) = None ∧
  chat_mounted (cp_page c) = sb_mounted (cp_sidebar c).

(** * Facts *)

Implicit Types (c : ChatPage) (p : Page) (s : Sidebar) (u : UserInfo) (o : unmount_order).

(** ** The page under its steps *)

Lemma step_localStorage a p : localStorage (step a p) = localStorage p.
Proof.
  destruct a; simpl; unfold Chat_effect, setSelectedGroup, rerender_area, set_selection,
    unmount_page; repeat case_match; done.
Qed.

Lemma step_thrown a p u :
  localStorage p = Some u → thrown p = None → thrown (step a p) = None.
Proof.
  intros Hu Ht.
  destruct a; simpl; unfold Chat_effect, setSelectedGroup, rerender_area, set_selection,
    unmount_page; rewrite ?Hu, ?Ht; simpl; repeat case_match; done.
Qed.

Lemma step_external_mounted a p :
  external a = true → chat_mounted (step a p) = chat_mounted p.
Proof.
  destruct a; simpl; try done; intros _; unfold Chat_effect; repeat case_match; done.
Qed.

Lemma step_mount_effect_mounted p :
  chat_mounted (step RunMountEffect p) = chat_mounted p.
Proof. simpl. unfold Chat_effect. repeat case_match; done. Qed.

Lemma step_select_mounted v p :
  chat_mounted (step (SetSelectedGroup v) p) = chat_mounted p.
Proof. simpl. unfold setSelectedGroup, rerender_area, set_selection. repeat case_match; done. Qed.

Lemma run_selections_mounted vs p :
  chat_mounted (run (SetSelectedGroup <$> vs) p) = chat_mounted p.
Proof.
  revert p. induction vs as [|v vs IH]; intros p; [done|].
  simpl. etrans; [apply IH|]. apply step_select_mounted.
Qed.

Lemma run_localStorage acts p : localStorage (run acts p) = localStorage p.
Proof.
  revert p. induction acts as [|a acts IH]; intros p; [done|].
  simpl. etrans; [apply IH|]. apply step_localStorage.
Qed.

Lemma run_thrown acts p u :
  localStorage p = Some u → thrown p = None → thrown (run acts p) = None.
Proof.
  revert p. induction acts as [|a acts IH]; intros p Hu Ht; [done|].
  simpl. apply IH; [by rewrite step_localStorage | by eapply step_thrown].
Qed.

Lemma run_cons a acts p : run (a :: acts) p = run acts (step a p).
Proof. done. Qed.

Lemma step_external_selectedGroup a p :
  external a = true → selectedGroup (step a p) = selectedGroup p.
Proof. destruct a; simpl; try done; intros _; repeat case_match; done. Qed.

Lemma step_thrown_stays a p e : thrown p = Some e → thrown (step a p) = Some e.
Proof.
  intros Ht. destruct a; simpl; unfold form, rendered, unmount_page;
    rewrite ?Ht; repeat case_match; simpl; done.
Qed.

Lemma step_area_is_Some a p : is_Some (chatArea p) → is_Some (chatArea (step a p)).
Proof.
  intros [w Hw]. destruct a; simpl;
    unfold Chat_effect, setSelectedGroup, rerender_area, set_selection, unmount_page;
    cbn [chatArea localStorage selectedGroup]; rewrite ?Hw;
    repeat case_match; simpl; rewrite ?Hw; eauto.
Qed.

Lemma run_area_is_Some acts p : is_Some (chatArea p) → is_Some (chatArea (run acts p)).
Proof.
  revert p. induction acts as [|a acts IH]; intros p Hp; [done|].
  rewrite run_cons. by apply IH, step_area_is_Some.
Qed.

(** ** The selection of the page *)

(** After [setSelectedGroup(v)] the cell holds the object [v]. *)
Lemma setSelectedGroup_selected v p :
  object_is (selectedGroup (setSelectedGroup v p)) v = true.
Proof.
  unfold setSelectedGroup. destruct (object_is (selectedGroup p) v) eqn:Ho; [done|].
  unfold rerender_area, set_selection. cbn [chatArea localStorage selectedGroup].
  repeat case_match; apply object_is_refl.
Qed.

Lemma step_select_selected v p :
  chat_mounted p = true → thrown p = None →
  object_is (selectedGroup (step (SetSelectedGroup v) p)) v = true.
Proof. intros Hm Ht. simpl. rewrite Hm, Ht. apply setSelectedGroup_selected. Qed.

(** After the selections [vs] the page holds the last of them. *)
Lemma run_selections_follow vs p u :
  chat_mounted p = true → thrown p = None → localStorage p = Some u →
  object_is (selectedGroup (run (SetSelectedGroup <$> vs) p))
    (default (selectedGroup p) (last vs)) = true.
Proof.
  revert p. induction vs as [|v vs IH]; intros p Hm Ht Hu; [apply object_is_refl|].
  rewrite last_cons, fmap_cons, run_cons.
  specialize (IH (step (SetSelectedGroup v) p)).
  rewrite step_select_mounted, step_localStorage in IH.
  specialize (IH Hm (step_thrown _ p u Hu Ht) Hu).
  destruct (last vs) as [y|] eqn:Hl; [done|].
  apply last_None in Hl as ->. exact (step_select_selected v p Hm Ht).
Qed.

(** [settled v p]: the page takes no notice of a call [setSelectedGroup(v)],
    because it is gone, it crashed, or its cell holds the object [v]. *)
Definition settled (v : selection) (p : Page) : Prop :=
  chat_mounted p = false ∨ thrown p ≠ None ∨ object_is (selectedGroup p) v = true.

Lemma settled_noop v p : settled v p → step (SetSelectedGroup v) p = p.
Proof.
  simpl. intros [Hm|[Ht|Ho]].
  - by rewrite Hm.
  - destruct (chat_mounted p); [|done]. by destruct (thrown p).
  - destruct (chat_mounted p), (thrown p); try done. unfold setSelectedGroup. by rewrite Ho.
Qed.

Lemma step_select_settled v p : settled v (step (SetSelectedGroup v) p).
Proof.
  destruct (chat_mounted p) eqn:Hm; [|left; simpl; by rewrite Hm].
  destruct (thrown p) as [e|] eqn:Ht;
    [right; left; simpl; rewrite Hm, Ht; cbn; by rewrite Ht|].
  right; right. by apply step_select_selected.
Qed.

Lemma settled_external v a p : external a = true → settled v p → settled v (step a p).
Proof.
  intros Ha [Hm|[Ht|Ho]].
  - left. by rewrite step_external_mounted.
  - right; left. destruct (thrown p) as [e|] eqn:He; [|done].
    by rewrite (step_thrown_stays a p e He).
  - right; right. by rewrite step_external_selectedGroup.
Qed.

Lemma step_unmount_mounted o p : chat_mounted (step (UnmountPage o) p) = false.
Proof. simpl. by destruct (chat_mounted p) eqn:?. Qed.

(** ** The sidebar under its steps *)

Lemma sb_resolve_navigated u id r s :
  sb_navigated (sb_resolve u id r s) = sb_navigated s.
Proof.
  unfold sb_resolve. destruct (http_take _ _) as [[[rq k]|] h]; [|done].
  destruct k as [|next| | |], r; simpl; try destruct next;
    unfold described_error_toast; repeat case_match; done.
Qed.


Lemma sb_control_navigated u e s :
  sb_navigated (sb_control u e s) =
    sb_navigated s ++ (if decide (e = ClickLogout) then ["/login"] else []).
Proof.
  destruct e; simpl; unfold click_group, click_button;
    repeat case_match; simpl; by rewrite ?app_nil_r.
Qed.

(** The log of the calls of [setSelectedGroup] only grows. *)
Lemma sb_resolve_selected u id r s :
  sb_selected s `prefix_of` sb_selected (sb_resolve u id r s).
Proof.
  unfold sb_resolve. destruct (http_take _ _) as [[[rq k]|] h]; [|done].
  destruct k as [|next| | |], r; simpl; try destruct next;
    unfold described_error_toast; repeat case_match; simpl;
    first [done | by apply prefix_app_r].
Qed.

Lemma sb_control_selected u e s :
  sb_selected s `prefix_of` sb_selected (sb_control u e s).
Proof.
  destruct e; simpl; unfold click_group, click_button;
    repeat case_match; simpl; first [done | by apply prefix_app_r].
Qed.

Lemma sb_step_selected u e s :
  sb_selected s `prefix_of` sb_selected (sb_step u e s).
Proof.
  destruct e; unfold sb_step;
    try (destruct (sb_mounted s); [apply sb_control_selected|done]).
  apply sb_resolve_selected.
Qed.

Lemma new_selections_spec s s' :
  sb_selected s `prefix_of` sb_selected s' →
  sb_selected s' = sb_selected s ++ new_selections s s'.
Proof. unfold new_selections. intros [vs ->]. by rewrite drop_app_length. Qed.

(** Only the logout of a mounted sidebar navigates. *)
Lemma sb_step_navigated u e s :
  sb_navigated (sb_step u e s) =
    sb_navigated s ++
      (if decide (e = ClickLogout) then if sb_mounted s then ["/login"] else [] else []).
Proof.
  destruct e; unfold sb_step;
    try (destruct (sb_mounted s); [by rewrite sb_control_navigated|by rewrite app_nil_r]).
  by rewrite sb_resolve_navigated, app_nil_r.
Qed.

Lemma sb_step_mounted u e s :
  sb_mounted (sb_step u e s) = sb_mounted s && negb (bool_decide (e = ClickLogout)).
Proof.
  unfold sb_mounted at 1. rewrite sb_step_navigated.
  case_decide as He; [|by rewrite app_nil_r, (bool_decide_eq_false_2 _ He), andb_true_r].
  rewrite (bool_decide_eq_true_2 _ He), andb_false_r.
  destruct (sb_mounted s) eqn:Hm; [|by rewrite app_nil_r].
  apply bool_decide_eq_false. by intros [_ ?]%app_eq_nil.
Qed.

Lemma left_page_step u e s :
  left_page s (sb_step u e s) = sb_mounted s && bool_decide (e = ClickLogout).
Proof.
  unfold left_page. rewrite sb_step_mounted.
  by destruct (sb_mounted s), (bool_decide (e = ClickLogout)).
Qed.

(** ** The composition *)

Lemma chat_step_user o a c : cp_user (chat_step o a c) = cp_user c.
Proof. destruct a as [a|e]; simpl; [by destruct (external a)|done]. Qed.

Lemma chat_run_cons o a acts c :
  chat_run o (a :: acts) c = chat_run o acts (chat_step o a c).
Proof. done. Qed.

Lemma chat_run_user o acts c : cp_user (chat_run o acts c) = cp_user c.
Proof.
  revert c. induction acts as [|a acts IH]; intros c; [done|].
  by rewrite chat_run_cons, IH, chat_step_user.
Qed.

(** A run of the composition is a run of the page alone and a run of the
    sidebar alone. *)
Lemma chat_run_page o acts c :
  cp_page (chat_run o acts c) =
    run (page_trace o (cp_user c) acts (cp_sidebar c)) (cp_page c).
Proof.
  revert c. induction acts as [|[a|e] acts IH]; intros c; [done|..];
    rewrite chat_run_cons, IH, chat_step_user; simpl.
  - by destruct (external a).
  - by rewrite run_app.
Qed.

Lemma chat_run_sidebar o acts c :
  cp_sidebar (chat_run o acts c) =
    sb_run (cp_user c) (sidebar_events acts) (cp_sidebar c).
Proof.
  revert c. induction acts as [|[a|e] acts IH]; intros c; [done|..];
    rewrite chat_run_cons, IH, chat_step_user; simpl; [|done].
  by destruct (external a).
Qed.

(** ** The invariant is kept *)

Lemma Chat_render_ok item c : Chat_render item = Ok c → chat_ok c.
Proof.
  unfold Chat_render. destruct item as [u|]; [|done]. intros [= <-].
  split_and!; cbn [cp_page cp_user cp_sidebar].
  - exact (step_page_ok RunMountEffect _ (initial_page_ok (Some u))).
  - apply sidebar_mount_ok.
  - exact (step_localStorage RunMountEffect (initial_page (Some u))).
  - exact (step_thrown RunMountEffect (initial_page (Some u)) u eq_refl eq_refl).
  - exact (step_mount_effect_mounted (initial_page (Some u))).
Qed.

(** What a step of the sidebar does to the mount flag of the page. *)
Lemma run_sidebar_actions_mounted o s s' p :
  chat_mounted (run (sidebar_actions o s s') p) =
    chat_mounted p && negb (left_page s s').
Proof.
  unfold sidebar_actions. rewrite run_app.
  destruct (left_page s s').
  - rewrite andb_false_r. exact (step_unmount_mounted o _).
  - rewrite andb_true_r. exact (run_selections_mounted _ p).
Qed.

Lemma chat_step_ok o a c : chat_ok c → chat_ok (chat_step o a c).
Proof.
  intros (Hp & Hs & Hu & Ht & Hm). destruct a as [a|e]; simpl.
  - destruct (external a) eqn:He; [|done]. split_and!; simpl; try done.
    + by apply step_page_ok.
    + by rewrite step_localStorage.
    + by eapply step_thrown.
    + by rewrite step_external_mounted.
  - split_and!; simpl.
    + by apply run_page_ok.
    + by apply sb_step_ok.
    + by rewrite run_localStorage.
    + by eapply run_thrown.
    + rewrite run_sidebar_actions_mounted, left_page_step, sb_step_mounted, Hm.
      by destruct (sb_mounted (cp_sidebar c)), (bool_decide (e = ClickLogout)).
Qed.

Lemma chat_run_ok o acts c : chat_ok c → chat_ok (chat_run o acts c).
Proof.
  revert c. induction acts as [|a acts IH]; intros c Hok; [done|].
  by apply IH, chat_step_ok.
Qed.

(** ** The page follows the sidebar *)

(** While the page is mounted its cell holds the object the sidebar
    selected last. *)
Definition follows (c : ChatPage) : Prop :=
  chat_mounted (cp_page c) = true →
  object_is (selectedGroup (cp_page c)) (last_selected (cp_sidebar c)) = true.

Lemma chat_step_follows o a c : chat_ok c → follows c → follows (chat_step o a c).
Proof.
  intros (Hp & Hs & Hu & Ht & Hm) Hf. destruct a as [a|e]; cbn [chat_step].
  - destruct (external a) eqn:He; [|done]. unfold follows. cbn [cp_page cp_sidebar].
    rewrite step_external_mounted, step_external_selectedGroup by done. exact Hf.
  - cbv zeta. unfold follows. cbn [cp_page cp_sidebar].
    rewrite run_sidebar_actions_mounted. intros [Hmt Hl%negb_true_iff]%andb_true_iff.
    unfold sidebar_actions. rewrite Hl, app_nil_r. unfold last_selected.
    rewrite (new_selections_spec _ _ (sb_step_selected (cp_user c) e (cp_sidebar c))).
    rewrite last_app.
    pose proof (run_selections_follow
      (new_selections (cp_sidebar c) (sb_step (cp_user c) e (cp_sidebar c)))
      (cp_page c) (cp_user c) Hmt Ht Hu) as Hrun.
    destruct (last (new_selections _ _)) as [y|] eqn:Hlast; [done|].
    apply last_None in Hlast. rewrite Hlast. exact (Hf Hmt).
Qed.

Lemma chat_step_area o a c :
  is_Some (chatArea (cp_page c)) → is_Some (chatArea (cp_page (chat_step o a c))).
Proof.
  intros Ha. destruct a as [a|e]; cbn [chat_step].
  - destruct (external a); [|done]. by apply step_area_is_Some.
  - by apply run_area_is_Some.
Qed.

(** What holds of the composition from its first render on. *)
Lemma chat_run_follows o item c0 acts :
  Chat_render item = Ok c0 →
  let c := chat_run o acts c0 in
  chat_ok c ∧ follows c ∧ is_Some (chatArea (cp_page c)).
Proof.
  intros Hr. cbv zeta.
  assert (chat_ok c0 ∧ follows c0 ∧ is_Some (chatArea (cp_page c0))) as H0.
  { split; [by eapply Chat_render_ok|].
    unfold Chat_render in Hr. destruct item as [u|]; [|done]. injection Hr as <-.
    split; [by intros _|]. by eexists. }
  clear Hr. revert c0 H0. induction acts as [|a acts IH]; intros c (Hok & Hf & Ha); [done|].
  rewrite chat_run_cons. apply IH.
  split_and!; [by apply chat_step_ok | by apply chat_step_follows | by apply chat_step_area].
Qed.

(** ** Selections *)

(** A selection of another object on a mounted page with its chat area:
    the room selected before is left, the new one is joined. *)
Lemma select_outbox v p w :
  page_ok p → chatArea p = Some w → chat_mounted p = true →
  object_is (selectedGroup p) v = false →
  selectedGroup (step (SetSelectedGroup v) p) = v ∧
  outbox (step (SetSelectedGroup v) p) =
    outbox p ++ leave_packets (opt_chain id (selectedGroup p)) ++ join_packets v.
Proof.
  intros Hp Ha Hm Hv.
  destruct (page_ok_mounted p w Hp Ha Hm) as (_&Ht&[u Hu]&Ho&Hc&_).
  simpl. rewrite Hm, Ht. split.
  - unfold setSelectedGroup, rerender_area, set_selection. rewrite Hv. cbn [chatArea localStorage selectedGroup]. by rewrite Ha, Hu.
  - unfold outbox. rewrite (setSelectedGroup_area _ p w u Ha Hu Hv), Ha. simpl.
    etrans; [exact (rerun_effect_sent u v w Ho)|]. by rewrite Hc.
Qed.

(** What a step of the sidebar that stays mounted asks of the page. *)
Lemma sidebar_actions_selected o s s' vs :
  sb_selected s' = sb_selected s ++ vs → sb_mounted s' = sb_mounted s →
  sidebar_actions o s s' = SetSelectedGroup <$> vs.
Proof.
  intros Hs Hm. unfold sidebar_actions, new_selections, left_page.
  rewrite Hs, drop_app_length, Hm, andb_negb_r. by rewrite app_nil_r.
Qed.

Lemma sidebar_actions_none o s s' :
  sb_selected s' = sb_selected s → sb_mounted s' = sb_mounted s →
  sidebar_actions o s s' = [].
Proof.
  intros Hs Hm. apply (sidebar_actions_selected o s s' []); [|done].
  by rewrite app_nil_r.
Qed.

(** [find] on a list with distinct ids finds the group itself. *)
Lemma array_find_group gs i g :
  NoDup (group_id <$> gs) → gs !! i = Some g →
  array_find (λ x, bool_decide (group_id x = group_id g)) gs = JObj g.
Proof.
  intros Hnd Hi.
  destruct (array_find _ gs) as [| |g'] eqn:Hf.
  - by apply array_find_not_null in Hf.
  - apply array_find_undefined in Hf. rewrite Forall_forall in Hf.
    apply list_elem_of_lookup_2, Hf in Hi. by rewrite bool_decide_eq_true_2 in Hi.
  - apply array_find_Some in Hf as [Hg' Hid%bool_decide_eq_true].
    f_equal. apply (NoDup_fmap_eq group_id gs); [done..| by eapply list_elem_of_lookup_2 | done].
Qed.

(** ** The name of an entry clicked again *)

Lemma sidebar_actions_same o s : sidebar_actions o s s = [].
Proof. by apply sidebar_actions_none. Qed.

(** A second click on a name asks of the page what the first one asked:
    nothing, or the selection of the entry's object. *)
Lemma sidebar_actions_click o u i s :
  let s' := sb_step u (ClickName i) s in
  sidebar_actions o s' (sb_step u (ClickName i) s') = sidebar_actions o s s' ∧
  (sidebar_actions o s s' = [] ∨
   ∃ g, sidebar_actions o s s' = [SetSelectedGroup (JObj g)]).
Proof.
  cbv zeta. unfold sb_step, sb_control.
  destruct (sb_mounted s) eqn:Hm; [|rewrite Hm, !sidebar_actions_same; by auto].
  destruct (groups (sb_st s) !! i) as [g|] eqn:Hg;
    [|rewrite Hm, Hg, !sidebar_actions_same; by auto].
  unfold click_group. destruct (bool_decide (group_id g ∈ userGroups (sb_st s))) eqn:Hin;
    [|rewrite Hm, Hg, Hin, !sidebar_actions_same; by auto].
  change (sb_mounted (sb_select (JObj g) s)) with (sb_mounted s).
  change (sb_st (sb_select (JObj g) s)) with (sb_st s). rewrite Hm, Hg, Hin.
  rewrite !(sidebar_actions_selected o _ (sb_select (JObj g) _) [JObj g]) by done.
  eauto.
Qed.

(** The page's own events leave the sidebar alone, and a page that takes
    no notice of a selection goes on doing so. *)
Lemma chat_run_pages o acts c v :
  let c' := chat_run o (OnPage <$> acts) c in
  cp_user c' = cp_user c ∧ cp_sidebar c' = cp_sidebar c ∧
  (settled v (cp_page c) → settled v (cp_page c')).
Proof.
  cbv zeta. revert c. induction acts as [|a acts IH]; intros c; [done|].
  rewrite fmap_cons, chat_run_cons.
  destruct (IH (chat_step o (OnPage a) c)) as (Hu & Hs & Hv).
  rewrite Hu, Hs. cbn [chat_step] in *. destruct (external a) eqn:He; [|done].
  split_and!; [done..|]. intros Hc. by apply Hv, settled_external.
Qed.

(** ** The button of an entry *)

Lemma click_button_step u s i g :
  sb_mounted s = true → groups (sb_st s) !! i = Some g →
  sb_step u (ClickButton i) s = click_button u g s.
Proof. intros Hm Hg. unfold sb_step, sb_control. by rewrite Hm, Hg. Qed.

Lemma click_name_step u s i g :
  sb_mounted s = true → groups (sb_st s) !! i = Some g →
  sb_step u (ClickName i) s = click_group g s.
Proof. intros Hm Hg. unfold sb_step, sb_control. by rewrite Hm, Hg. Qed.

(** The sidebar once the button of entry [i] was clicked and its POST
    and the fetch after it were answered. *)
Lemma button_flow u s i g r r' :
  sidebar_ok u s → sb_mounted s = true →
  groups (sb_st s) !! i = Some g → fulfilled r = true →
  let n := h_next (sb_http s) in
  let s1 := sb_step u (ClickButton i) s in
  let s2 := sb_step u (Answer n r) s1 in
  let s3 := sb_step u (Answer (S n) r') s2 in
  sb_selected s1 = sb_selected s ∧ sb_selected s2 = sb_selected s ∧
  sb_selected s3 = sb_selected s ++
    [if bool_decide (group_id g ∈ userGroups (sb_st s)) then JNull
     else array_find (λ x, bool_decide (group_id x = group_id g)) (groups (sb_st s))].
Proof.
  intros Hok Hm Hg Hr. cbv zeta. rewrite (click_button_step u s i g Hm Hg).
  unfold click_button.
  pose proof (ok_http u s Hok) as Hwf.
  case_bool_decide; (split; [done|]).
  - apply (resolve_then_fetch u _ _ ThenLeft); [done|].
    intros s0. by apply handleLeaveGroup_resolved_fulfilled.
  - apply (resolve_then_fetch u _ _ (ThenJoined (groups (sb_st s)) (group_id g))); [done|].
    intros s0. by apply handleJoinGroup_resolved_fulfilled.
Qed.

(** The page once the button of entry [i] was clicked and both answers
    arrived: one selection. *)
Lemma button_flow_page o c i g r r' :
  chat_ok c → chat_mounted (cp_page c) = true →
  groups (sb_st (cp_sidebar c)) !! i = Some g → fulfilled r = true →
  let n := h_next (sb_http (cp_sidebar c)) in
  cp_page (chat_run o [OnSidebar (ClickButton i); OnSidebar (Answer n r);
                       OnSidebar (Answer (S n) r')] c) =
    step (SetSelectedGroup
            (if bool_decide (group_id g ∈ userGroups (sb_st (cp_sidebar c))) then JNull
             else array_find (λ x, bool_decide (group_id x = group_id g))
                    (groups (sb_st (cp_sidebar c)))))
      (cp_page c).
Proof.
  intros (Hp & Hs & Hu & Ht & Hm) Hmt Hg Hr. cbv zeta. rewrite Hmt in Hm.
  destruct (button_flow (cp_user c) (cp_sidebar c) i g r r' Hs (eq_sym Hm) Hg Hr)
    as (H1 & H2 & H3).
  rewrite chat_run_page. cbn [page_trace].
  rewrite (sidebar_actions_none o _ _ H1) by by rewrite sb_step_mounted, andb_true_r.
  rewrite (sidebar_actions_none o _ _ (eq_trans H2 (eq_sym H1)))
    by by rewrite sb_step_mounted, andb_true_r.
  erewrite (sidebar_actions_selected o _ _ [_]);
    [done | by rewrite H3, H2 | by rewrite sb_step_mounted, andb_true_r].
Qed.

(** The page going away, with its chat area. *)
Lemma unmount_outbox o p w :
  page_ok p → chatArea p = Some w → chat_mounted p = true →
  outbox (step (UnmountPage o) p) =
    outbox p ++ match o with
                | ChildFirst => leave_packets (opt_chain id (selectedGroup p))
                | ParentFirst => []
                end.
Proof.
  intros Hp Ha Hm. destruct (page_ok_mounted p w Hp Ha Hm) as (_&_&_&Ho&Hc&_).
  unfold outbox. simpl. rewrite Hm. unfold unmount_page. rewrite Ha.
  destruct o; simpl.
  - rewrite app_nil_r. exact (unmount_sent_closed (set_sock disconnect w) eq_refl).
  - etrans; [exact (unmount_sent w Ho)|]. by rewrite Hc.
Qed.

Lemma unmount_page_silent o p w :
  page_ok p → chatArea p = Some w → chat_mounted p = true →
  ∃ w', chatArea (step (UnmountPage o) p) = Some w' ∧
    ch_open (sock w') = false ∧ ∀ n, ch_listeners (sock w') n = [].
Proof.
  intros Hp Ha Hm.
  pose proof (step_page_ok (UnmountPage o) p Hp) as Hp'.
  assert (∃ w', chatArea (step (UnmountPage o) p) = Some w') as [w' Ha'].
  { simpl. rewrite Hm. unfold unmount_page. rewrite Ha. destruct o; simpl; eauto. }
  exists w'. split; [done|].
  destruct (page_ok_unmounted _ w' Hp' Ha' (step_unmount_mounted o p)) as ((Hs&_)&Ho&Hc).
  split; [done|]. intros n. etrans; [exact (session_listeners w' n Hs)|]. by rewrite Hc.
Qed.

(** * Properties *)

(** C11 (the page follows the sidebar): from the first render on, as
    long as the page is mounted, the [selectedGroup] cell of the page
    holds the object the sidebar passed to [setSelectedGroup] last ([null]
    before the first call), and the socket is in the room of that
    selection: the joins and leaves sent so far alternate and end in
    it. *)
Theorem page_follows_sidebar o item c0 acts :
  Chat_render item = Ok c0 →
  let c := chat_run o acts c0 in
  chat_mounted (cp_page c) = true →
  object_is (selectedGroup (cp_page c)) (last_selected (cp_sidebar c)) = true ∧
  ∃ w, chatArea (cp_page c) = Some w ∧
    room_trace (ch_sent (sock w)) None =
      Some (group_id <$> opt_chain id (selectedGroup (cp_page c))).
Proof.
  intros Hr c Hm.
  destruct (chat_run_follows o item c0 acts Hr) as ((Hp & _) & Hf & [w Ha]).
  split; [by apply Hf|]. exists w. split; [done|].
  destruct (page_ok_mounted _ w Hp Ha Hm) as (_ & _ & _ & _ & Hc & Hroom).
  unfold room_ok in Hroom. by rewrite Hroom, Hc.
Qed.

(** C28 (a name clicked again): clicking the name of an entry a second
    time, whatever happened to the page in between (events of the room,
    keystrokes, submits, answers, time passing), changes nothing on the
    page: if the first click selected the entry, the second passes the
    same object and React drops the call, so no room is left or joined
    and no messages are fetched.  spec.md asks for a leave and a
    rejoin. *)
Theorem click_again_changes_nothing o c i acts :
  let c1 := chat_run o (OnSidebar (ClickName i) :: (OnPage <$> acts)) c in
  cp_page (chat_step o (OnSidebar (ClickName i)) c1) = cp_page c1.
Proof.
  cbv zeta. rewrite chat_run_cons.
  pose proof (chat_run_pages o acts (chat_step o (OnSidebar (ClickName i)) c)) as Hrun.
  cbv zeta in Hrun.
  set (c' := chat_step o (OnSidebar (ClickName i)) c) in *.
  set (c1 := chat_run o (OnPage <$> acts) c') in *.
  change (cp_page (chat_step o (OnSidebar (ClickName i)) c1))
    with (run (sidebar_actions o (cp_sidebar c1)
                 (sb_step (cp_user c1) (ClickName i) (cp_sidebar c1))) (cp_page c1)).
  destruct (Hrun JNull) as (-> & -> & _).
  change (cp_user c') with (cp_user c).
  change (cp_sidebar c') with (sb_step (cp_user c) (ClickName i) (cp_sidebar c)).
  destruct (sidebar_actions_click o (cp_user c) i (cp_sidebar c)) as [-> [Hnil|[g Hg]]].
  - by rewrite Hnil.
  - rewrite Hg. apply (settled_noop (JObj g)), Hrun.
    change (cp_page c')
      with (run (sidebar_actions o (cp_sidebar c)
                   (sb_step (cp_user c) (ClickName i) (cp_sidebar c))) (cp_page c)).
    rewrite Hg. apply step_select_settled.
Qed.

(** C12 (joining a group enters its room): on a mounted page with its
    chat area, clicking [Join] on an entry of a list with distinct ids
    selects nothing until the POST and the fetch after it were answered;
    then the group of the entry is selected, and the socket leaves the room
    selected before, if any, and joins the room of the group. *)
Theorem join_enters_room o c w i g r r' :
  chat_ok c → chatArea (cp_page c) = Some w → chat_mounted (cp_page c) = true →
  NoDup (group_id <$> groups (sb_st (cp_sidebar c))) →
  groups (sb_st (cp_sidebar c)) !! i = Some g →
  group_id g ∉ userGroups (sb_st (cp_sidebar c)) →
  object_is (selectedGroup (cp_page c)) (JObj g) = false →
  fulfilled r = true →
  let n := h_next (sb_http (cp_sidebar c)) in
  let c1 := chat_run o [OnSidebar (ClickButton i); OnSidebar (Answer n r)] c in
  let c2 := chat_step o (OnSidebar (Answer (S n) r')) c1 in
  cp_page c1 = cp_page c ∧
  selectedGroup (cp_page c2) = JObj g ∧
  outbox (cp_page c2) =
    outbox (cp_page c) ++ leave_packets (opt_chain id (selectedGroup (cp_page c))) ++
      [("join room", PRoomId (group_id g))].
Proof.
  intros Hok Ha Hm Hnd Hg Hni Hv Hr. cbv zeta.
  match goal with |- _ ∧ selectedGroup (cp_page ?c2) = _ ∧ _ =>
    assert (cp_page c2 = step (SetSelectedGroup (JObj g)) (cp_page c)) as ->
  end.
  { etrans; [exact (button_flow_page o c i g r r' Hok Hm Hg Hr)|].
    by rewrite bool_decide_eq_false_2, (array_find_group _ i g). }
  destruct Hok as (Hp & Hs & Hu & Ht & Hmt).
  split; [|exact (select_outbox (JObj g) (cp_page c) w Hp Ha Hm Hv)].
  rewrite Hm in Hmt.
  destruct (button_flow (cp_user c) (cp_sidebar c) i g r r' Hs (eq_sym Hmt) Hg Hr)
    as (H1 & H2 & _).
  rewrite chat_run_page. cbn [page_trace].
  rewrite (sidebar_actions_none o _ _ H1) by by rewrite sb_step_mounted, andb_true_r.
  by rewrite (sidebar_actions_none o _ _ (eq_trans H2 (eq_sym H1)))
    by by rewrite sb_step_mounted, andb_true_r.
Qed.

(** C16 (leaving any group closes the room): on a mounted page with a
    room selected, clicking [Leave] on any joined entry, the one of the
    selected room or another, ends, once both answers arrived, with no
    room selected and the selected room left on the socket. *)
Theorem leave_closes_the_room o c w i g selected r r' :
  chat_ok c → chatArea (cp_page c) = Some w → chat_mounted (cp_page c) = true →
  groups (sb_st (cp_sidebar c)) !! i = Some g →
  group_id g ∈ userGroups (sb_st (cp_sidebar c)) →
  selectedGroup (cp_page c) = JObj selected →
  fulfilled r = true →
  let n := h_next (sb_http (cp_sidebar c)) in
  let c' := chat_run o [OnSidebar (ClickButton i); OnSidebar (Answer n r);
                        OnSidebar (Answer (S n) r')] c in
  selectedGroup (cp_page c') = JNull ∧
  outbox (cp_page c') =
    outbox (cp_page c) ++ [("leave room", PRoomId (group_id selected))].
Proof.
  intros Hok Ha Hm Hg Hin Hsel Hr. cbv zeta.
  match goal with |- selectedGroup (cp_page ?c') = _ ∧ _ =>
    assert (cp_page c' = step (SetSelectedGroup JNull) (cp_page c)) as ->
  end.
  { etrans; [exact (button_flow_page o c i g r r' Hok Hm Hg Hr)|].
    by rewrite bool_decide_eq_true_2. }
  destruct Hok as (Hp & _).
  destruct (select_outbox JNull (cp_page c) w Hp Ha Hm) as [H1 H2];
    [by rewrite Hsel|].
  split; [done|]. by rewrite H2, Hsel.
Qed.

(** C22 (the selected room clicked again after a refresh): every fetch
    of the list gives new objects, so clicking the name of the room that
    is selected, once the list was fetched again, is a change of
    selection: the socket leaves the room and joins it again. *)
Theorem reselect_after_refresh_rejoins o c w i g selected :
  chat_ok c → chatArea (cp_page c) = Some w → chat_mounted (cp_page c) = true →
  groups (sb_st (cp_sidebar c)) !! i = Some g →
  group_id g ∈ userGroups (sb_st (cp_sidebar c)) →
  selectedGroup (cp_page c) = JObj selected →
  group_id g = group_id selected → group_ref g ≠ group_ref selected →
  let c' := chat_step o (OnSidebar (ClickName i)) c in
  selectedGroup (cp_page c') = JObj g ∧
  outbox (cp_page c') =
    outbox (cp_page c) ++ [("leave room", PRoomId (group_id selected));
                           ("join room", PRoomId (group_id selected))].
Proof.
  intros (Hp & Hs & Hu & Ht & Hmt) Ha Hm Hg Hin Hsel Hid Href c'.
  rewrite Hm in Hmt.
  assert (cp_page c' = step (SetSelectedGroup (JObj g)) (cp_page c)) as ->.
  { unfold c'. cbn [chat_step cp_page]. rewrite (click_name_step _ _ i g) by done.
    unfold click_group. rewrite bool_decide_eq_true_2 by done.
    by erewrite (sidebar_actions_selected o _ _ [_]). }
  destruct (select_outbox (JObj g) (cp_page c) w Hp Ha Hm) as [H1 H2].
  { rewrite Hsel. simpl. apply bool_decide_eq_false. intros Heq. by apply Href. }
  split; [done|]. rewrite H2, Hsel. simpl. by rewrite Hid.
Qed.

(** C17 (logout tears the page down): [handleLogout] removes [userInfo]
    and navigates to [/login], which shows the login page: the chat page
    unmounts, its socket ends closed without listeners, and the leave of
    the selected room is sent only if the chat area's cleanup runs before
    the socket is disconnected. *)
Theorem logout_tears_down o c w :
  chat_ok c → chatArea (cp_page c) = Some w → chat_mounted (cp_page c) = true →
  let c' := chat_step o (OnSidebar ClickLogout) c in
  sb_storage (cp_sidebar c') = None ∧
  match_route <$> sb_navigated (cp_sidebar c') = [Some Login] ∧
  chat_mounted (cp_page c') = false ∧
  (∃ w', chatArea (cp_page c') = Some w' ∧ ch_open (sock w') = false ∧
         ∀ n, ch_listeners (sock w') n = []) ∧
  outbox (cp_page c') =
    outbox (cp_page c) ++ match o with
                          | ChildFirst => leave_packets (opt_chain id (selectedGroup (cp_page c)))
                          | ParentFirst => []
                          end.
Proof.
  intros (Hp & Hs & Hu & Ht & Hmt) Ha Hm c'. rewrite Hm in Hmt.
  assert (sb_step (cp_user c) ClickLogout (cp_sidebar c) = handleLogout (cp_sidebar c))
    as Hstep by (unfold sb_step; by rewrite <-Hmt).
  assert (cp_page c' = step (UnmountPage o) (cp_page c)) as ->.
  { unfold c'. cbn [chat_step cp_page]. unfold sidebar_actions.
    rewrite left_page_step, <-Hmt. rewrite Hstep. unfold new_selections. simpl.
    by rewrite drop_all. }
  unfold c'. cbn [chat_step cp_sidebar]. rewrite Hstep. simpl.
  symmetry in Hmt. apply bool_decide_eq_true in Hmt. rewrite Hmt.
  split_and!; [done | done | apply step_unmount_mounted | by eapply unmount_page_silent
              | by eapply unmount_outbox].
Qed.

(** C23 (the chat route without [userInfo]): opened at [/chat] with no
    [userInfo] in local storage, the app shows what [PrivateRoute] puts in
    place of its children if it holds them back, and otherwise nothing:
    the body of the sidebar gives [JSON.parse] an object, the render
    throws, and React unmounts the tree.  With [userInfo] the page mounts
    and its invariant holds. *)
Theorem chat_route_needs_userInfo (PrivateRoute : option UserInfo → bool) u :
  visit PrivateRoute "/chat" None =
    (if PrivateRoute None
     then Crashed (SyntaxError "[object Object] is not valid JSON")
     else Redirected) ∧
  (PrivateRoute (Some u) = true →
   ∃ c, visit PrivateRoute "/chat" (Some u) = Chatting c ∧ chat_ok c ∧ cp_user c = u).
Proof.
  split; [done|]. intros HP. eexists. unfold visit. simpl. rewrite HP.
  split; [done|]. split; [|done]. by apply (Chat_render_ok (Some u)).
Qed.

(** ** Samples

    Alice, an admin, opens the chat: the socket is created with the first
    render, then the admin check and the list of groups are answered.  She enters room A, then
    creates a group, after which the list is fetched again. *)
Definition chat_start : ChatPage :=
  mkChatPage alice (step RunMountEffect (initial_page (Some alice))) (sidebar_mount alice).

Definition listed_acts : list chat_action :=
  [OnSidebar (Answer 0 (RUser (Some true)));
   OnSidebar (Answer 1 (RGroups [roomA; roomB; roomC]))].

Definition chat_listed : ChatPage := chat_run ChildFirst listed_acts chat_start.

Definition chat_inA : ChatPage := chat_step ChildFirst (OnSidebar (ClickName 0)) chat_listed.

Definition chat_refreshed : ChatPage :=
  chat_run ChildFirst
    [OnSidebar ClickCreate; OnSidebar (ChangeName "D"); OnSidebar ClickCreateGroup;
     OnSidebar (Answer 2 RDone); OnSidebar (Answer 3 (RGroups [roomA_again; roomB; roomC]))]
    chat_inA.

Definition area_of (c : ChatPage) : Area := default w_idle (chatArea (cp_page c)).

Lemma chat_start_ok : chat_ok chat_start.
Proof. by apply (Chat_render_ok (Some alice)). Qed.

Lemma chat_listed_ok : chat_ok chat_listed.
Proof. apply chat_run_ok, chat_start_ok. Qed.

Lemma chat_inA_ok : chat_ok chat_inA.
Proof. apply chat_step_ok, chat_listed_ok. Qed.

Lemma chat_refreshed_ok : chat_ok chat_refreshed.
Proof. apply chat_run_ok, chat_inA_ok. Qed.

Lemma chat_listed_area : chatArea (cp_page chat_listed) = Some (area_of chat_listed).
Proof. by vm_compute. Qed.

Lemma chat_inA_area : chatArea (cp_page chat_inA) = Some (area_of chat_inA).
Proof. by vm_compute. Qed.

Lemma chat_refreshed_area :
  chatArea (cp_page chat_refreshed) = Some (area_of chat_refreshed).
Proof. by vm_compute. Qed.

Lemma page_follows_sidebar_witness :
  object_is (selectedGroup (cp_page chat_refreshed)) (last_selected (cp_sidebar chat_refreshed))
    = true ∧
  ∃ w, chatArea (cp_page chat_refreshed) = Some w ∧
    room_trace (ch_sent (sock w)) None =
      Some (group_id <$> opt_chain id (selectedGroup (cp_page chat_refreshed))).
Proof.
  witness (page_follows_sidebar ChildFirst (Some alice) chat_start
    (listed_acts ++ [OnSidebar (ClickName 0); OnSidebar ClickCreate;
       OnSidebar (ChangeName "D"); OnSidebar ClickCreateGroup;
       OnSidebar (Answer 2 RDone);
       OnSidebar (Answer 3 (RGroups [roomA_again; roomB; roomC]))])
    eq_refl ltac:(by_compute)).
Defined.

(** Alice clicks room A again after a message arrived and she typed: the
    page has sent the one join of the first click and nothing else but
    the [typing] of her keystroke. *)
Example click_again_sample :
  outbox (cp_page (chat_run ChildFirst
    [OnPage (Deliver (EvMessageReceived m3)); OnPage (Input "h");
     OnSidebar (ClickName 0)] chat_inA)) =
    [("join room", PRoomId "A"); ("typing", PTyping "A" "alice")].
Proof. by vm_compute. Qed.

Lemma join_enters_room_witness :
  let c1 := chat_run ChildFirst [OnSidebar (ClickButton 2); OnSidebar (Answer 2 RDone)]
              chat_inA in
  let c2 := chat_step ChildFirst (OnSidebar (Answer 3 (RError NoResponse))) c1 in
  cp_page c1 = cp_page chat_inA ∧
  selectedGroup (cp_page c2) = JObj roomC ∧
  outbox (cp_page c2) =
    [("join room", PRoomId "A"); ("leave room", PRoomId "A"); ("join room", PRoomId "C")].
Proof.
  witness (join_enters_room ChildFirst chat_inA (area_of chat_inA) 2 roomC RDone
    (RError NoResponse) chat_inA_ok chat_inA_area ltac:(by_compute)
    ltac:(apply (bool_decide_unpack _); by_compute) ltac:(by_compute)
    ltac:(apply (bool_decide_unpack _); by_compute) ltac:(by_compute) eq_refl).
Defined.

Lemma leave_closes_the_room_witness :
  let c' := chat_run ChildFirst [OnSidebar (ClickButton 1); OnSidebar (Answer 2 RDone);
              OnSidebar (Answer 3 (RGroups [roomA; roomC]))] chat_inA in
  selectedGroup (cp_page c') = JNull ∧
  outbox (cp_page c') = [("join room", PRoomId "A"); ("leave room", PRoomId "A")].
Proof.
  witness (leave_closes_the_room ChildFirst chat_inA (area_of chat_inA) 1 roomB roomA
    RDone (RGroups [roomA; roomC]) chat_inA_ok chat_inA_area ltac:(by_compute)
    ltac:(by_compute) ltac:(apply (bool_decide_unpack _); by_compute)
    ltac:(by_compute) eq_refl).
Defined.

Lemma reselect_after_refresh_rejoins_witness :
  let c' := chat_step ChildFirst (OnSidebar (ClickName 0)) chat_refreshed in
  selectedGroup (cp_page c') = JObj roomA_again ∧
  outbox (cp_page c') =
    [("join room", PRoomId "A"); ("leave room", PRoomId "A"); ("join room", PRoomId "A")].
Proof.
  witness (reselect_after_refresh_rejoins ChildFirst chat_refreshed
    (area_of chat_refreshed) 0 roomA_again roomA chat_refreshed_ok chat_refreshed_area
    ltac:(by_compute) ltac:(by_compute) ltac:(apply (bool_decide_unpack _); by_compute)
    ltac:(by_compute) eq_refl ltac:(by_compute)).
Defined.

Lemma logout_tears_down_witness :
  let c' := chat_step ChildFirst (OnSidebar ClickLogout) chat_inA in
  sb_storage (cp_sidebar c') = None ∧
  match_route <$> sb_navigated (cp_sidebar c') = [Some Login] ∧
  chat_mounted (cp_page c') = false ∧
  (∃ w', chatArea (cp_page c') = Some w' ∧ ch_open (sock w') = false ∧
         ∀ n, ch_listeners (sock w') n = []) ∧
  outbox (cp_page c') = [("join room", PRoomId "A"); ("leave room", PRoomId "A")].
Proof.
  witness (logout_tears_down ChildFirst chat_inA (area_of chat_inA) chat_inA_ok
    chat_inA_area ltac:(by_compute)).
Defined.

(** A guard that lets in whoever has a [userInfo] entry. *)
Definition guard_userInfo (item : option UserInfo) : bool := bool_decide (is_Some item).

Lemma chat_route_needs_userInfo_witness :
  visit (λ _, true) "/chat" None =
    Crashed (SyntaxError "[object Object] is not valid JSON") ∧
  visit guard_userInfo "/chat" None = Redirected ∧
  ∃ c, visit guard_userInfo "/chat" (Some alice) = Chatting c ∧ chat_ok c ∧ cp_user c = alice.
Proof.
  split; [exact (proj1 (chat_route_needs_userInfo (λ _, true) alice))|].
  split; [exact (proj1 (chat_route_needs_userInfo guard_userInfo alice))|].
  exact (proj2 (chat_route_needs_userInfo guard_userInfo alice) eq_refl).
Defined.
